(** * PrivateSportShop stock monitor: the transition engine of [server.js]

    A shallow embedding of the stock-transition state machine of
    [server.js]: the registry of monitored products, the sweep
    [monitorAllProducts], the handlers that write the state, and the
    properties the specification states about them.

    Modelling conventions.
    - Product ids, size ids and registry keys are JavaScript strings; a
      numeric id is represented by its decimal string, which is what
      [toString()] and property lookup make of it.
    - A plain object used as a dictionary is a [JsObj]: its own properties
      in creation order, enumerated the way [Object.keys] does (array
      indices first, in ascending order, then the other names in creation
      order), and the prototype that an assignment to [__proto__]
      installs.  A lookup of a name that is not an own property gives
      nothing the program can use, except under [__proto__]; see [JsObj].
      A [Set] is a duplicate-free list in insertion order, a [Map] an
      association list in insertion order.
    - A request handler and a sweep run from beginning to end without other
      handlers interleaved at their [await] points.  The handlers that only
      read the state ([/health], [/ping], [GET /api/products],
      [GET /api/history]) are not inputs of the model.
    - The network is an oracle: the answer of the product endpoint per
      product id, and the answer of the basket endpoint per call, the
      latter as a function of everything the handler did before the call.
      What the process does to the outside world is recorded as a list of
      events: calls of the basket endpoint with their result, and alerts
      posted to the webhook (whether the post arrives is not observed by
      the program).
    - An exception is modelled where the program can meet one: a fetch
      that fails, a request field that is not iterable, and the sink.
      [new URL(webhook)] and the construction of the webhook request belong
      to the platform; their verdict on a webhook string is the parameter
      [webhook_error] of the section [Engine].  What the runtime does with a
      promise that is rejected and not awaited is outside the model.
    - The clock is an input: the two readings of [addToHistory]. *)

From Stdlib Require Import String Ascii List Bool Arith NArith ZArith Lia.
From Stdlib Require Import Permutation Sorted.
Import ListNotations.
Open Scope string_scope.
Open Scope list_scope.

Set Implicit Arguments.

(** ** JavaScript values used by the program *)

Definition SizeId := string.
Definition ProductId := string.
Definition Timestamp := string.

(** Truthiness of a string: only the empty string is falsy. *)
Definition truthy (s : string) : bool := negb (s =? "").

(** [a || b] on optional strings ([None] is undefined or null). *)
Definition js_or (a b : option string) : option string :=
  match a with
  | Some s => if truthy s then a else b
  | None => b
  end.

(** [a || d] with a string default. *)
Definition js_or_default (a : option string) (d : string) : string :=
  match a with
  | Some s => if truthy s then s else d
  | None => d
  end.

(** [String.prototype.toLowerCase] on the ASCII range. *)
Definition lower_ascii (c : ascii) : ascii :=
  let n := nat_of_ascii c in
  if (65 <=? n)%nat && (n <=? 90)%nat then ascii_of_nat (n + 32) else c.

Fixpoint toLowerCase (s : string) : string :=
  match s with
  | EmptyString => EmptyString
  | String c r => String (lower_ascii c) (toLowerCase r)
  end.

(** [s.startsWith(p)]. *)
Fixpoint startsWith (p s : string) : bool :=
  match p, s with
  | EmptyString, _ => true
  | String a p', String b s' => Ascii.eqb a b && startsWith p' s'
  | String _ _, EmptyString => false
  end.

(** [s.includes(sub)]. *)
Fixpoint includes (sub s : string) : bool :=
  startsWith sub s ||
  match s with
  | EmptyString => false
  | String _ s' => includes sub s'
  end.

(** ** Sets: [new Set()], insertion ordered *)

Module JsSet.

Definition t := list string.

Definition empty : t := [].

Fixpoint has (s : t) (x : string) : bool :=
  match s with
  | [] => false
  | y :: r => (y =? x) || has r x
  end.

Definition add (x : string) (s : t) : t :=
  if has s x then s else s ++ [x].

Fixpoint delete (x : string) (s : t) : t :=
  match s with
  | [] => []
  | y :: r => if y =? x then delete x r else y :: delete x r
  end.

(** [new Set(iterable)]: the elements are added one after the other. *)
Definition of_list (l : list string) : t :=
  fold_left (fun s x => add x s) l empty.

(** [Array.from(set)]. *)
Definition elements (s : t) : list string := s.

End JsSet.

(** ** Plain objects used as dictionaries *)

Module JsObj.

Section Obj.
Variable V : Type.

(** An object created by [{}] and filled by assignments [o[k] = v] of
    objects [v]: its own properties in creation order, and the object
    that an assignment to the name [__proto__] has installed as its
    prototype, if any.  ([Object.prototype] has a setter under that
    name: the assignment creates no own property.) *)
Record t := {
  own : list (string * V);
  proto : option V
}.

Definition empty : t := {| own := []; proto := None |}.

Fixpoint lookup (l : list (string * V)) (k : string) : option V :=
  match l with
  | [] => None
  | (k', v) :: r => if k' =? k then Some v else lookup r k
  end.

(** An existing property keeps its place. *)
Fixpoint update (l : list (string * V)) (k : string) (v : V)
    : list (string * V) :=
  match l with
  | [] => [(k, v)]
  | (k', v') :: r =>
      if k' =? k then (k', v) :: r else (k', v') :: update r k v
  end.

(** [o[k]], as far as the program reads it: the own property [k], or
    under the name [__proto__] the installed prototype.  Any other name
    that is not an own property is looked up as absent: what the prototype
    chain gives for it (a function or object of [Object.prototype], or a
    string, number or boolean field of the installed prototype) has
    neither the property [size] nor [inStock], which is all the program
    reads of the result. *)
Definition get (o : t) (k : string) : option V :=
  if k =? "__proto__" then proto o else lookup (own o) k.

(** [o[k] = v]. *)
Definition set (o : t) (k : string) (v : V) : t :=
  if k =? "__proto__"
  then {| own := own o; proto := Some v |}
  else {| own := update (own o) k v; proto := proto o |}.

(** The value of a decimal digit. *)
Definition digit (c : ascii) : option N :=
  let n := N_of_ascii c in
  if ((48 <=? n) && (n <=? 57))%N then Some (n - 48)%N else None.

Fixpoint digits (s : string) (acc : N) : option N :=
  match s with
  | EmptyString => Some acc
  | String c r =>
      match digit c with
      | Some d => digits r (acc * 10 + d)%N
      | None => None
      end
  end.

(** A property name is an array index when it is the canonical decimal
    form of an integer below 2^32 - 1. *)
Definition array_index (k : string) : option N :=
  match k with
  | EmptyString => None
  | String c r =>
      if Ascii.eqb c "0"%char
      then (if r =? "" then Some 0%N else None)
      else match digits k 0 with
           | Some n => if (n <? 4294967295)%N then Some n else None
           | None => None
           end
  end.

Definition is_index (e : string * V) : bool :=
  match array_index (fst e) with Some _ => true | None => false end.

Definition index_of (e : string * V) : N :=
  match array_index (fst e) with Some n => n | None => 0%N end.

Fixpoint insert_by_index (e : string * V) (l : list (string * V)) :=
  match l with
  | [] => [e]
  | e' :: r =>
      if (index_of e <=? index_of e')%N
      then e :: e' :: r
      else e' :: insert_by_index e r
  end.

Definition sort_by_index (l : list (string * V)) :=
  fold_right insert_by_index [] l.

(** [Object.entries(o)]: the own properties, array indices ascending,
    then the other property names in creation order. *)
Definition entries (o : t) : list (string * V) :=
  sort_by_index (filter is_index (own o))
    ++ filter (fun e => negb (is_index e)) (own o).

(** [Object.keys(o)]. *)
Definition keys (o : t) : list string := map fst (entries o).

End Obj.

Arguments empty {V}.

End JsObj.

(** ** Maps: [new Map()], insertion ordered *)

Module JsMap.

Section Map.
Variable V : Type.

Definition t := list (string * V).

Definition empty : t := [].

Fixpoint get (m : t) (k : string) : option V :=
  match m with
  | [] => None
  | (k', v) :: r => if k' =? k then Some v else get r k
  end.

Definition has (m : t) (k : string) : bool :=
  match get m k with Some _ => true | None => false end.

(** [m.set(k, v)]: an existing key keeps its place. *)
Fixpoint set (m : t) (k : string) (v : V) : t :=
  match m with
  | [] => [(k, v)]
  | (k', v') :: r => if k' =? k then (k', v) :: r else (k', v') :: set r k v
  end.

Fixpoint delete (m : t) (k : string) : t :=
  match m with
  | [] => []
  | (k', v') :: r => if k' =? k then delete r k else (k', v') :: delete r k
  end.

Definition size (m : t) : nat := length m.

(** The keys of a map built with [set] are pairwise distinct. *)
Definition wf (m : t) : Prop := NoDup (map fst m).

End Map.

Arguments empty {V}.

End JsMap.

(** ** The data model *)

(** One entry of [sizeMapping]: [{ size, productId }]. *)
Record SizeInfo := {
  size : string;
  size_productId : option string
}.

(** One entry of [stockInfo]: [{ inStock, quantity }]. *)
Record StockEntry := {
  inStock : bool;
  quantity : Z
}.

(** [productInfo], as [fetchProductDetails] builds it. *)
Record ProductInfo := {
  info_productId : string;
  title : string;
  brand : string;
  price : option string;
  originalPrice : option string;
  discount : option string;
  imageUrl : option string;
  info_inStock : bool;
  productType : option string;
  description : option string
}.

(** The part of the upstream payload the program reads. *)
Record SizeValue := {
  sv_id : string;
  sv_value : string;
  sv_product_id : option string
}.

Record ProductOption := {
  opt_code : string;
  opt_values : option (list SizeValue)
}.

Record Prices := {
  prices_current : option string;
  prices_specialPrice : option string;
  prices_old : option string;
  prices_retailPrice : option string;
  prices_discount : option string
}.

Record Payload := {
  data_entity_id : option string;
  data_productID : option string;
  data_name : option string;
  data_brand_name : option string;
  data_prices : option Prices;
  data_image0 : option string;
  data_thumbnail0 : option string;
  data_inStock : bool;
  data_in_stock : option string;
  data_product_type : option string;
  data_description : option string;
  data_options : option (list ProductOption)
}.

(** One value of [monitoredProducts]. *)
Record Product := {
  productId : ProductId;
  productInfo : ProductInfo;
  sizeMapping : JsObj.t SizeInfo;
  watchedSizes : JsSet.t;
  watchAll : bool;
  hadSizes : bool;
  previousStock : JsObj.t StockEntry;
  notified : JsSet.t
}.

Definition with_notified (f : JsSet.t -> JsSet.t) (p : Product) : Product :=
  {| productId := productId p; productInfo := productInfo p;
     sizeMapping := sizeMapping p; watchedSizes := watchedSizes p;
     watchAll := watchAll p; hadSizes := hadSizes p;
     previousStock := previousStock p; notified := f (notified p) |}.

Definition with_hadSizes (b : bool) (p : Product) : Product :=
  {| productId := productId p; productInfo := productInfo p;
     sizeMapping := sizeMapping p; watchedSizes := watchedSizes p;
     watchAll := watchAll p; hadSizes := b;
     previousStock := previousStock p; notified := notified p |}.

Definition with_watchedSizes (w : JsSet.t) (p : Product) : Product :=
  {| productId := productId p; productInfo := productInfo p;
     sizeMapping := sizeMapping p; watchedSizes := w;
     watchAll := watchAll p; hadSizes := hadSizes p;
     previousStock := previousStock p; notified := notified p |}.

(** The three assignments that end the [try] block of the sweep. *)
Definition with_snapshot (st : JsObj.t StockEntry) (i : ProductInfo)
    (m : JsObj.t SizeInfo) (p : Product) : Product :=
  {| productId := productId p; productInfo := i;
     sizeMapping := m; watchedSizes := watchedSizes p;
     watchAll := watchAll p; hadSizes := hadSizes p;
     previousStock := st; notified := notified p |}.

(** One value of [productHistory]. *)
Record HistoryEntry := {
  hist_productId : ProductId;
  hist_title : string;
  hist_brand : string;
  hist_price : option string;
  hist_originalPrice : option string;
  hist_discount : option string;
  hist_imageUrl : option string;
  hist_sizeMapping : JsObj.t SizeInfo;
  addedAt : Timestamp;
  lastMonitored : Timestamp
}.

(** The mutable part of [CONFIG]. *)
Record Config := {
  discordWebhook : string;
  checkIntervalMs : Z;
  basicAuth : string;
  cookies : string
}.

(** The handle [setInterval] returns. *)
Record Interval := { everyMs : Z }.

(** The module-level state of [server.js]. *)
Record Sys := {
  CONFIG : Config;
  monitoredProducts : JsMap.t Product;
  productHistory : JsMap.t HistoryEntry;
  monitoringInterval : option Interval;
  tokenExpiredNotified : bool
}.

(** ** What the process does to the outside world *)

Inductive Event :=
| Reserve (pid : ProductId) (sizeId : SizeId) (ok : bool)
    (** one call of the basket endpoint, with its result *)
| Notify (info : ProductInfo) (sizeId : SizeId) (sizeName : string)
    (qty : Z) (productUrl : string)
    (** one stock alert posted to the webhook *)
| TokenAlert (errorMessage : string).
    (** one credentials-expired alert posted to the webhook *)

Definition is_reserve (e : Event) : bool :=
  match e with Reserve _ _ _ => true | _ => false end.

Definition is_reserve_ok (e : Event) : bool :=
  match e with Reserve _ _ ok => ok | _ => false end.

Definition is_reserve_of (s : SizeId) (e : Event) : bool :=
  match e with Reserve _ s' _ => s' =? s | _ => false end.

Definition is_notify (e : Event) : bool :=
  match e with Notify _ _ _ _ _ => true | _ => false end.

Definition is_notify_of (s : SizeId) (e : Event) : bool :=
  match e with Notify _ s' _ _ _ => s' =? s | _ => false end.

Definition is_token_alert (e : Event) : bool :=
  match e with TokenAlert _ => true | _ => false end.

Definition count (f : Event -> bool) (tr : list Event) : nat :=
  length (filter f tr).

(** What [makeRequest] settles to for the product endpoint; a payload
    whose shape makes [fetchProductDetails] throw counts as [Rejected]. *)
Inductive FetchResult :=
| Resolved (data : Payload)
| Rejected (message : string).

(** What [addToCart] returns. *)
Record CartResult := {
  success : bool;
  cart_message : string
}.

(** The basket endpoint: the result of a call, given what happened before. *)
Definition CartOracle := list Event -> ProductId -> SizeId -> CartResult.

(** ** Computations that may throw *)

Inductive Outcome (A : Type) :=
| Returned (a : A)
| Thrown (message : string).

Arguments Returned {A} a.
Arguments Thrown {A} message.

(** The state a handler threads: what it mutates, and what it has done. *)
Record St (L : Type) := {
  local : L;
  events : list Event
}.

Definition Proc (L A : Type) := St L -> Outcome A * St L.

Definition ret {L A} (a : A) : Proc L A := fun st => (Returned a, st).

Definition throw {L A} (message : string) : Proc L A :=
  fun st => (Thrown message, st).

Definition bind {L A B} (m : Proc L A) (k : A -> Proc L B) : Proc L B :=
  fun st =>
    match m st with
    | (Returned a, st') => k a st'
    | (Thrown message, st') => (Thrown message, st')
    end.

Notation "x <- m ;; k" := (bind m (fun x => k))
  (at level 61, m at next level, right associativity).
Notation "m ;;; k" := (bind m (fun _ => k))
  (at level 61, right associativity).

Definition get_local {L} : Proc L L := fun st => (Returned (local st), st).

Definition modify {L} (f : L -> L) : Proc L unit :=
  fun st => (Returned tt, {| local := f (local st); events := events st |}).

Definition emit {L} (e : Event) : Proc L unit :=
  fun st => (Returned tt, {| local := local st; events := events st ++ [e] |}).

(** [for (const x of l) body(x)]. *)
Fixpoint for_of {L A} (l : list A) (body : A -> Proc L unit) : Proc L unit :=
  match l with
  | [] => ret tt
  | x :: r => body x ;;; for_of r body
  end.

(** ** [fetchProductDetails]: from the payload to the snapshot *)

Definition Snapshot : Type :=
  (ProductInfo * JsObj.t SizeInfo * JsObj.t StockEntry)%type.

Definition parseProductInfo (pid : ProductId) (data : Payload) : ProductInfo :=
  {| info_productId :=
       js_or_default (js_or (data_entity_id data) (data_productID data)) pid;
     title := js_or_default (data_name data) "Unknown";
     brand := js_or_default (data_brand_name data) "Unknown";
     price :=
       match data_prices data with
       | Some p => js_or (prices_current p) (prices_specialPrice p)
       | None => None
       end;
     originalPrice :=
       match data_prices data with
       | Some p => js_or (prices_old p) (prices_retailPrice p)
       | None => None
       end;
     discount :=
       match data_prices data with
       | Some p =>
           match prices_discount p with
           | Some d => if truthy d then Some (String.append d "%") else None
           | None => None
           end
       | None => None
       end;
     imageUrl := js_or (data_image0 data) (js_or (data_thumbnail0 data) None);
     info_inStock :=
       data_inStock data ||
       match data_in_stock data with
       | Some v => v =? "1"
       | None => false
       end;
     productType := data_product_type data;
     description := data_description data |}.

(** The loop over [sizeOption.values]: every listed size is taken to be in
    stock, with quantity 1. *)
Fixpoint parseSizes (values : list SizeValue)
    (sm : JsObj.t SizeInfo) (si : JsObj.t StockEntry)
    : JsObj.t SizeInfo * JsObj.t StockEntry :=
  match values with
  | [] => (sm, si)
  | sizeValue :: r =>
      let sizeId := sv_id sizeValue in
      parseSizes r
        (JsObj.set sm sizeId
           {| size := sv_value sizeValue;
              size_productId := sv_product_id sizeValue |})
        (JsObj.set si sizeId {| inStock := true; quantity := 1 |})
  end.

Definition parseOptions (data : Payload)
    : JsObj.t SizeInfo * JsObj.t StockEntry :=
  match data_options data with
  | Some opts =>
      match find (fun opt => opt_code opt =? "size") opts with
      | Some sizeOption =>
          match opt_values sizeOption with
          | Some values => parseSizes values JsObj.empty JsObj.empty
          | None => (JsObj.empty, JsObj.empty)
          end
      | None => (JsObj.empty, JsObj.empty)
      end
  | None => (JsObj.empty, JsObj.empty)
  end.

Definition parseProduct (pid : ProductId) (data : Payload) : Snapshot :=
  (parseProductInfo pid data, fst (parseOptions data), snd (parseOptions data)).

Definition fetchProductDetails {L} (fetch : ProductId -> FetchResult)
    (pid : ProductId) : Proc L Snapshot :=
  match fetch pid with
  | Resolved data => ret (parseProduct pid data)
  | Rejected message => throw message
  end.

(** [Object.keys(sizeMapping).length > 0]. *)
Definition hasSizesOf (sm : JsObj.t SizeInfo) : bool :=
  (0 <? length (JsObj.keys sm))%nat.

(** [stock?.inStock], as a condition. *)
Definition inStockOf (stock : option StockEntry) : bool :=
  match stock with
  | Some e => inStock e
  | None => false
  end.

(** [stock.quantity || 1]. *)
Definition quantityOr1 (stock : option StockEntry) : Z :=
  match stock with
  | Some e => if (quantity e =? 0)%Z then 1%Z else quantity e
  | None => 1%Z
  end.

(** [sizeMapping[sizeId]?.size || sizeId]. *)
Definition sizeNameOf (sm : JsObj.t SizeInfo) (sizeId : SizeId) : string :=
  match JsObj.get sm sizeId with
  | Some i => if truthy (size i) then size i else sizeId
  | None => sizeId
  end.

Definition productUrlOf (pid : ProductId) : string :=
  String.append "https://www.privatesportshop.fr/catalog/product/view/id/" pid.

(** [addToCart]: one call of the basket endpoint; it never throws. *)
Definition addToCart {L} (cart : CartOracle) (pid : ProductId)
    (sizeId : SizeId) : Proc L CartResult :=
  fun st =>
    let result := cart (events st) pid sizeId in
    (Returned result,
     {| local := local st;
        events := events st ++ [Reserve pid sizeId (success result)] |}).

(** The two substring tests on the lower-cased error message. *)
Definition authSignalSweep (message : string) : bool :=
  let errorMsg := toLowerCase message in
  includes "unauthorized" errorMsg || includes "401" errorMsg ||
  includes "403" errorMsg || includes "token" errorMsg ||
  includes "auth" errorMsg || includes "expired" errorMsg.

Definition authSignalEndpoint (message : string) : bool :=
  let errorMsg := toLowerCase message in
  includes "unauthorized" errorMsg || includes "401" errorMsg ||
  includes "403" errorMsg || includes "token" errorMsg ||
  includes "auth" errorMsg.

(** ** The engine *)

Section Engine.

(** The platform's verdict on a webhook string: [None] when
    [new URL(webhook)] and the request built from it go through,
    [Some message] when they throw an error with that message. *)
Variable webhook_error : string -> option string.

(** The webhook is unset, or a usable URL: the sink does not throw. *)
Definition sinkOk (cfg : Config) : bool :=
  negb (truthy (discordWebhook cfg)) ||
  match webhook_error (discordWebhook cfg) with
  | None => true
  | Some _ => false
  end.

(** [sendDiscordNotification].  Without a webhook it returns at once.
    Otherwise it builds the request inside the executor of the promise it
    returns: [new URL(CONFIG.discordWebhook)] comes first there, and an
    exception of the executor rejects the promise, which the callers
    await.  Once the request exists, the promise resolves whether the
    delivery succeeds or fails ([req.on('error', () => resolve(false))]). *)
Definition sendDiscordNotification {L} (cfg : Config) (info : ProductInfo)
    (sizeId : SizeId) (sizeName : string) (qty : Z) (productUrl : string)
    : Proc L unit :=
  if negb (truthy (discordWebhook cfg)) then ret tt
  else
    match webhook_error (discordWebhook cfg) with
    | Some message => throw message
    | None => emit (Notify info sizeId sizeName qty productUrl)
    end.

(** [sendTokenExpiredNotification], on the flag [tokenExpiredNotified]:
    the flag is set before the request is built, in the same way as in
    [sendDiscordNotification]. *)
Definition sendTokenExpiredNotification (cfg : Config)
    (errorMessage : string) : Proc bool unit :=
  flag <- get_local ;;
  if flag || negb (truthy (discordWebhook cfg)) then ret tt
  else
    modify (fun _ => true) ;;;
    match webhook_error (discordWebhook cfg) with
    | Some message => throw message
    | None => emit (TokenAlert (substring 0 200 errorMessage))
    end.

(** *** One product of a sweep: the [try] block of [monitorAllProducts] *)

(** The loop of the restock branch; [addedToCart] is its local flag. *)
Fixpoint restockLoop (cfg : Config) (cart : CartOracle) (info : ProductInfo)
    (productUrl : string) (entries : list (SizeId * SizeInfo))
    (addedToCart : bool) : Proc Product unit :=
  match entries with
  | [] => ret tt
  | (sizeId, sizeInfo) :: rest =>
      if negb addedToCart then
        product <- get_local ;;
        cartResult <- addToCart cart (productId product) sizeId ;;
        if success cartResult then
          sendDiscordNotification cfg info sizeId (size sizeInfo) 1
            productUrl ;;;
          modify (with_notified (JsSet.add sizeId)) ;;;
          restockLoop cfg cart info productUrl rest true
        else restockLoop cfg cart info productUrl rest false
      else restockLoop cfg cart info productUrl rest addedToCart
  end.

(** The condition under the comment [BACK IN STOCK]: the restock edge
    of an entry in [watchAll] mode. *)
Definition restockDetected (product : Product) (hasSizes : bool) : bool :=
  negb (hadSizes product) && hasSizes.

(** The [watchAll] branch. *)
Definition watchAllBranch (cfg : Config) (cart : CartOracle)
    (info : ProductInfo) (sm : JsObj.t SizeInfo) (productUrl : string)
    (hasSizes : bool) : Proc Product unit :=
  product <- get_local ;;
  if watchAll product then
    let hadSizesBefore := hadSizes product in
    (if restockDetected product hasSizes then
       restockLoop cfg cart info productUrl (JsObj.entries sm) false ;;;
       modify (with_hadSizes true)
     else ret tt) ;;;
    (if hadSizesBefore && negb hasSizes then
       modify (with_hadSizes false) ;;;
       modify (with_notified (fun _ => JsSet.empty))
     else ret tt)
  else ret tt.

(** The condition under the comment [New stock detected]: the size is
    in stock now, was not in the stored snapshot, and is not in
    [product.notified]. *)
Definition newStockDetected (product : Product)
    (stockInfo : JsObj.t StockEntry) (sizeId : SizeId) : bool :=
  let currentStock := JsObj.get stockInfo sizeId in
  let previous := JsObj.get (previousStock product) sizeId in
  let wasInStock := inStockOf previous in
  let nowInStock := inStockOf currentStock in
  nowInStock && negb wasInStock
    && negb (JsSet.has (notified product) sizeId).

(** The body of the loop over [product.watchedSizes]. *)
Definition checkSize (cfg : Config) (cart : CartOracle)
    (info : ProductInfo) (sm : JsObj.t SizeInfo)
    (stockInfo : JsObj.t StockEntry) (productUrl : string)
    (sizeId : SizeId) : Proc Product unit :=
  product <- get_local ;;
  let currentStock := JsObj.get stockInfo sizeId in
  let sizeName := sizeNameOf sm sizeId in
  let nowInStock := inStockOf currentStock in
  (if newStockDetected product stockInfo sizeId then
     cartResult <- addToCart cart (productId product) sizeId ;;
     if success cartResult then
       sendDiscordNotification cfg info sizeId sizeName
         (quantityOr1 currentStock) productUrl ;;;
       modify (with_notified (JsSet.add sizeId))
     else ret tt
   else ret tt) ;;;
  product <- get_local ;;
  if JsSet.has (notified product) sizeId && negb nowInStock then
    modify (with_notified (JsSet.delete sizeId))
  else ret tt.

Definition monitorProduct (cfg : Config) (fetch : ProductId -> FetchResult)
    (cart : CartOracle) : Proc Product unit :=
  product <- get_local ;;
  snapshot <- fetchProductDetails fetch (productId product) ;;
  let '(info, sm, stockInfo) := snapshot in
  let productUrl := productUrlOf (productId product) in
  let hasSizes := hasSizesOf sm in
  watchAllBranch cfg cart info sm productUrl hasSizes ;;;
  product <- get_local ;;
  for_of (JsSet.elements (watchedSizes product))
    (checkSize cfg cart info sm stockInfo productUrl) ;;;
  modify (with_snapshot stockInfo info sm).

(** The [catch] block: the alert for a failure that looks like an
    authorization failure; it is awaited, so what it throws leaves the
    sweep. *)
Definition catchClause (cfg : Config) (message : string) : Proc bool unit :=
  if authSignalSweep message
  then sendTokenExpiredNotification cfg message
  else ret tt.

(** *** The sweep *)

(** The loop over the entries of [monitoredProducts].  The flag
    [tokenExpiredNotified] is the local state; the products come back
    as the loop left them, also when the sweep ends by an exception. *)
Fixpoint sweepEntries (cfg : Config) (fetch : ProductId -> FetchResult)
    (cart : CartOracle) (entries : list (string * Product)) (st : St bool)
    : Outcome unit * list (string * Product) * St bool :=
  match entries with
  | [] => (Returned tt, [], st)
  | (key, product) :: rest =>
      let '(tried, pst) :=
        monitorProduct cfg fetch cart
          {| local := product; events := events st |} in
      let st1 := {| local := local st; events := events pst |} in
      let caught :=
        match tried with
        | Returned _ => (Returned tt, st1)
        | Thrown message => catchClause cfg message st1
        end in
      match caught with
      | (Returned _, st2) =>
          let '(o, rest', st3) := sweepEntries cfg fetch cart rest st2 in
          (o, (key, local pst) :: rest', st3)
      | (Thrown message, st2) =>
          (Thrown message, (key, local pst) :: rest, st2)
      end
  end.

(** What a handler leaves behind. *)
Record Reply (A : Type) := {
  result : A;
  state : Sys;
  log : list Event
}.

Definition with_registry (m : JsMap.t Product) (flag : bool) (s : Sys) : Sys :=
  {| CONFIG := CONFIG s; monitoredProducts := m;
     productHistory := productHistory s;
     monitoringInterval := monitoringInterval s;
     tokenExpiredNotified := flag |}.

Definition monitorAllProducts (s : Sys) (fetch : ProductId -> FetchResult)
    (cart : CartOracle) : Reply (Outcome unit) :=
  if (JsMap.size (monitoredProducts s) =? 0)%nat then
    {| result := Returned tt; state := s; log := [] |}
  else
    let '(o, entries, st) :=
      sweepEntries (CONFIG s) fetch cart (monitoredProducts s)
        {| local := tokenExpiredNotified s; events := [] |} in
    {| result := o;
       state := with_registry entries (local st) s;
       log := events st |}.

(** *** The scheduler *)

Definition with_interval (i : option Interval) (s : Sys) : Sys :=
  {| CONFIG := CONFIG s; monitoredProducts := monitoredProducts s;
     productHistory := productHistory s;
     monitoringInterval := i;
     tokenExpiredNotified := tokenExpiredNotified s |}.

Definition startMonitoring (s : Sys) : Sys :=
  match monitoringInterval s with
  | None =>
      with_interval (Some {| everyMs := checkIntervalMs (CONFIG s) |}) s
  | Some _ => s
  end.

Definition stopMonitoring (s : Sys) : Sys :=
  match monitoringInterval s with
  | Some _ => with_interval None s
  | None => s
  end.

Definition resetTokenExpiredFlag (s : Sys) : Sys :=
  with_registry (monitoredProducts s) false s.

(** *** The control endpoints *)

(** The JSON bodies of the responses, as far as the properties read
    them. *)
Inductive Body :=
| ErrorBody (error : string)
    (** [{ error }] *)
| MessageBody (message : string)
    (** [{ success: true, message }] *)
| AddedBody (mode : string) (nowInStock : bool) (alreadyInStock : list string)
    (** the answer of a successful add *)
| SizesBody (sizes : list SizeId)
    (** [{ success: true, watchedSizes }] *)
| PreviewBody (pid : ProductId) (snapshot : Snapshot)
    (** the answer of the preview endpoint *)
| UnhandledBody (message : string).
    (** the error page of the framework for a handler that threw *)

Record Response := {
  status : nat;
  body : Body
}.

Definition respond (code : nat) (b : Body) : Response :=
  {| status := code; body := b |}.

(** The field [watchedSizes] of a request body. *)
Inductive WatchedSizesField :=
| WsNullish
    (** the field is missing, or null *)
| WsArray (l : list SizeId)
    (** an array (of strings) *)
| WsString (chars : list SizeId)
    (** a string, given by the sequence of its characters *)
| WsOther (isTruthy : bool) (notIterable : string).
    (** a number, a boolean or an object: not iterable; [notIterable] is
        the message of the TypeError an iteration over it throws *)

Definition wsTruthy (w : WatchedSizesField) : bool :=
  match w with
  | WsNullish => false
  | WsArray _ => true
  | WsString chars => negb (Nat.eqb (length chars) 0)
  | WsOther b _ => b
  end.

Definition wsIsArray (w : WatchedSizesField) : bool :=
  match w with WsArray _ => true | _ => false end.

(** [watchedSizes.length], where the value has one. *)
Definition wsLength (w : WatchedSizesField) : option nat :=
  match w with
  | WsArray l => Some (length l)
  | WsString chars => Some (length chars)
  | _ => None
  end.

(** What [for (... of watchedSizes)] iterates over. *)
Definition wsIterate (w : WatchedSizesField) : Outcome (list SizeId) :=
  match w with
  | WsNullish => Thrown "watchedSizes is not iterable"
  | WsArray l => Returned l
  | WsString chars => Returned chars
  | WsOther _ message => Thrown message
  end.

(** [new Set(watchedSizes)]: a missing or null argument gives the empty
    set. *)
Definition newSet (w : WatchedSizesField) : Outcome JsSet.t :=
  match w with
  | WsNullish => Returned JsSet.empty
  | WsArray l => Returned (JsSet.of_list l)
  | WsString chars => Returned (JsSet.of_list chars)
  | WsOther _ message => Thrown message
  end.

Record AddBody := {
  add_productId : option ProductId;
  add_watchedSizes : WatchedSizesField;
  add_watchAll : bool
}.

(** [addToHistory]; the two readings of the clock are [now1], [now2]. *)
Definition addToHistory (pid : ProductId) (info : ProductInfo)
    (sm : JsObj.t SizeInfo) (now1 now2 : Timestamp)
    (h : JsMap.t HistoryEntry) : JsMap.t HistoryEntry :=
  JsMap.set h pid
    {| hist_productId := pid;
       hist_title :=
         if truthy (title info) then title info
         else String.append "Produit " pid;
       hist_brand := brand info;
       hist_price := price info;
       hist_originalPrice := originalPrice info;
       hist_discount := discount info;
       hist_imageUrl := imageUrl info;
       hist_sizeMapping := sm;
       addedAt := now1;
       lastMonitored := now2 |}.

Definition with_history (h : JsMap.t HistoryEntry) (s : Sys) : Sys :=
  {| CONFIG := CONFIG s; monitoredProducts := monitoredProducts s;
     productHistory := h;
     monitoringInterval := monitoringInterval s;
     tokenExpiredNotified := tokenExpiredNotified s |}.

Definition with_products (m : JsMap.t Product) (s : Sys) : Sys :=
  with_registry m (tokenExpiredNotified s) s.

(** The loop of the add handler over the available sizes: it stops at
    the first size that goes into the cart.  The local state is
    [notifiedSet]. *)
Fixpoint addRestockLoop (cfg : Config) (cart : CartOracle)
    (pid : ProductId) (info : ProductInfo) (productUrl : string)
    (entries : list (SizeId * SizeInfo)) : Proc JsSet.t unit :=
  match entries with
  | [] => ret tt
  | (sizeId, sizeInfo) :: rest =>
      cartResult <- addToCart cart pid sizeId ;;
      if success cartResult then
        sendDiscordNotification cfg info sizeId (size sizeInfo) 1
          productUrl ;;;
        modify (JsSet.add sizeId)
      else addRestockLoop cfg cart pid info productUrl rest
  end.

(** The body of the loop of the add handler over the watched sizes. *)
Definition addCheckSize (cfg : Config) (cart : CartOracle)
    (pid : ProductId) (info : ProductInfo) (sm : JsObj.t SizeInfo)
    (stockInfo : JsObj.t StockEntry) (productUrl : string)
    (sizeId : SizeId) : Proc JsSet.t unit :=
  let stock := JsObj.get stockInfo sizeId in
  if inStockOf stock then
    let sizeName := sizeNameOf sm sizeId in
    cartResult <- addToCart cart pid sizeId ;;
    if success cartResult then
      sendDiscordNotification cfg info sizeId sizeName (quantityOr1 stock)
        productUrl ;;;
      modify (JsSet.add sizeId)
    else ret tt
  else ret tt.

Definition lengthPositive (w : WatchedSizesField) : bool :=
  match wsLength w with
  | Some n => (0 <? n)%nat
  | None => false
  end.

(** The add handler up to the point where it writes the registry: the
    fetch, the immediate-stock checks, and the construction of the
    watched set. *)
Definition addPrepare (cfg : Config) (pid : ProductId)
    (watchedSizes : WatchedSizesField) (watchAll : bool)
    (fetch : ProductId -> FetchResult) (cart : CartOracle)
    : Proc JsSet.t (Snapshot * JsSet.t) :=
  snapshot <- fetchProductDetails fetch pid ;;
  let '(info, sm, stockInfo) := snapshot in
  let productUrl := productUrlOf pid in
  let hasSizes := hasSizesOf sm in
  (if watchAll && hasSizes
   then addRestockLoop cfg cart pid info productUrl (JsObj.entries sm)
   else ret tt) ;;;
  (if wsTruthy watchedSizes && lengthPositive watchedSizes then
     match wsIterate watchedSizes with
     | Returned l =>
         for_of l (addCheckSize cfg cart pid info sm stockInfo productUrl)
     | Thrown message => throw message
     end
   else ret tt) ;;;
  match (if wsTruthy watchedSizes then newSet watchedSizes
         else Returned JsSet.empty) with
  | Returned watched => ret (snapshot, watched)
  | Thrown message => throw message
  end.

(** Building the answer of a successful add calls [watchedSizes.map],
    which only an array has. *)
Definition addAnswer (watchedSizes : WatchedSizesField) (watchAll : bool)
    (sm : JsObj.t SizeInfo) (notifiedSet : JsSet.t) : Outcome Response :=
  if wsTruthy watchedSizes && negb (wsIsArray watchedSizes)
  then Thrown "watchedSizes.map is not a function"
  else
    Returned
      (respond 200
         (AddedBody (if watchAll then "watchAll" else "watchSizes")
            (hasSizesOf sm)
            (map (sizeNameOf sm) (JsSet.elements notifiedSet)))).

(** The [catch] block of the add and preview handlers: the alert is not
    awaited, so what it throws does not reach the handler. *)
Definition endpointCatch (s : Sys) (message : string) (tr : list Event)
    : Reply Response :=
  let st :=
    if authSignalEndpoint message
    then snd (sendTokenExpiredNotification (CONFIG s) message
                {| local := tokenExpiredNotified s; events := tr |})
    else {| local := tokenExpiredNotified s; events := tr |} in
  {| result := respond 500 (ErrorBody message);
     state := with_registry (monitoredProducts s) (local st) s;
     log := events st |}.

(** [POST /api/products/add]. *)
Definition apiProductsAdd (s : Sys) (req : AddBody)
    (fetch : ProductId -> FetchResult) (cart : CartOracle)
    (now1 now2 : Timestamp) : Reply Response :=
  let watchedSizes := add_watchedSizes req in
  let watchAll := add_watchAll req in
  match add_productId req with
  | None =>
      {| result := respond 400 (ErrorBody "Product ID is required");
         state := s; log := [] |}
  | Some pid =>
      if negb (truthy pid) then
        {| result := respond 400 (ErrorBody "Product ID is required");
           state := s; log := [] |}
      else if negb watchAll &&
              (negb (wsTruthy watchedSizes)
               || negb (wsIsArray watchedSizes)
               || negb (lengthPositive watchedSizes)) then
        {| result :=
             respond 400
               (ErrorBody "watchedSizes array is required (or set watchAll: true for out-of-stock products)");
           state := s; log := [] |}
      else
        let key := pid in
        match addPrepare (CONFIG s) pid watchedSizes watchAll fetch cart
                {| local := JsSet.empty; events := [] |} with
        | (Thrown message, st) => endpointCatch s message (events st)
        | (Returned (info, sm, stockInfo, watched), st) =>
            let notifiedSet := local st in
            let s1 :=
              with_products
                (JsMap.set (monitoredProducts s) key
                   {| productId := pid; productInfo := info;
                      sizeMapping := sm; watchedSizes := watched;
                      watchAll := watchAll; hadSizes := hasSizesOf sm;
                      previousStock := stockInfo;
                      notified := notifiedSet |}) s in
            let s2 :=
              with_history
                (addToHistory pid info sm now1 now2 (productHistory s1)) s1 in
            let s3 := startMonitoring s2 in
            match addAnswer watchedSizes watchAll sm notifiedSet with
            | Returned answer =>
                {| result := answer; state := s3; log := events st |}
            | Thrown message => endpointCatch s3 message (events st)
            end
        end
  end.

(** [DELETE /api/products/:key]. *)
Definition apiProductsDelete (s : Sys) (key : string) : Reply Response :=
  if JsMap.has (monitoredProducts s) key then
    let s1 := with_products (JsMap.delete (monitoredProducts s) key) s in
    let s2 :=
      if (JsMap.size (monitoredProducts s1) =? 0)%nat
      then stopMonitoring s1 else s1 in
    {| result := respond 200 (MessageBody "Product removed");
       state := s2; log := [] |}
  else
    {| result := respond 404 (ErrorBody "Product not found");
       state := s; log := [] |}.

(** [PUT /api/products/:key/sizes]. *)
Definition apiProductsSizes (s : Sys) (key : string)
    (field : WatchedSizesField) : Reply Response :=
  match JsMap.get (monitoredProducts s) key with
  | None =>
      {| result := respond 404 (ErrorBody "Product not found");
         state := s; log := [] |}
  | Some product =>
      match newSet field with
      | Returned watched =>
          let product' := with_watchedSizes watched product in
          {| result :=
               respond 200 (SizesBody (JsSet.elements (watchedSizes product')));
             state :=
               with_products (JsMap.set (monitoredProducts s) key product') s;
             log := [] |}
      | Thrown message =>
          {| result := respond 500 (UnhandledBody message);
             state := s; log := [] |}
      end
  end.

(** [POST /api/products/:key/reset]. *)
Definition apiProductsReset (s : Sys) (key : string) : Reply Response :=
  match JsMap.get (monitoredProducts s) key with
  | None =>
      {| result := respond 404 (ErrorBody "Product not found");
         state := s; log := [] |}
  | Some product =>
      {| result := respond 200 (MessageBody "Notifications reset");
         state :=
           with_products
             (JsMap.set (monitoredProducts s) key
                (with_notified (fun _ => JsSet.empty) product)) s;
         log := [] |}
  end.

(** [DELETE /api/history]. *)
Definition apiHistoryClear (s : Sys) : Reply Response :=
  {| result := respond 200 (MessageBody "History cleared");
     state := with_history JsMap.empty s; log := [] |}.

(** [DELETE /api/history/:key]. *)
Definition apiHistoryDelete (s : Sys) (key : string) : Reply Response :=
  if JsMap.has (productHistory s) key then
    {| result := respond 200 (MessageBody "Item removed from history");
       state := with_history (JsMap.delete (productHistory s) key) s;
       log := [] |}
  else
    {| result := respond 404 (ErrorBody "Item not found in history");
       state := s; log := [] |}.

Definition with_config (c : Config) (s : Sys) : Sys :=
  {| CONFIG := c; monitoredProducts := monitoredProducts s;
     productHistory := productHistory s;
     monitoringInterval := monitoringInterval s;
     tokenExpiredNotified := tokenExpiredNotified s |}.

(** The body of [POST /api/config/auth]; the field [headers] is given by
    what [parseHeadersFromEnv] makes of it. *)
Record AuthBody := {
  auth_headers_basicAuth : string;
  auth_headers_cookies : string;
  auth_basicAuth : string;
  auth_cookies : string
}.

Definition pick (new old : string) : string :=
  if truthy new then new else old.

(** [POST /api/config/auth]. *)
Definition apiConfigAuth (s : Sys) (req : AuthBody) : Reply Response :=
  let c := CONFIG s in
  let c' :=
    {| discordWebhook := discordWebhook c;
       checkIntervalMs := checkIntervalMs c;
       basicAuth :=
         pick (auth_basicAuth req)
           (pick (auth_headers_basicAuth req) (basicAuth c));
       cookies :=
         pick (auth_cookies req)
           (pick (auth_headers_cookies req) (cookies c)) |} in
  {| result := respond 200 (MessageBody "Auth updated");
     state := resetTokenExpiredFlag (with_config c' s);
     log := [] |}.

(** [POST /api/config/discord]; a missing field is the empty string. *)
Definition apiConfigDiscord (s : Sys) (webhook : string) : Reply Response :=
  if negb (truthy webhook) then
    {| result := respond 400 (ErrorBody "Webhook URL is required");
       state := s; log := [] |}
  else
    let c := CONFIG s in
    {| result := respond 200 (MessageBody "Discord webhook updated");
       state :=
         with_config
           {| discordWebhook := webhook;
              checkIntervalMs := checkIntervalMs c;
              basicAuth := basicAuth c;
              cookies := cookies c |} s;
       log := [] |}.

(** [POST /api/products/fetch].  [resolved] is the product id the
    handler ends up with: the field [productId], or what
    [parseProductUrl] makes of the field [url]; [Thrown] when
    [parseProductUrl] throws. *)
Definition apiProductsFetch (s : Sys) (resolved : Outcome (option ProductId))
    (fetch : ProductId -> FetchResult) : Reply Response :=
  match resolved with
  | Thrown message => endpointCatch s message []
  | Returned None =>
      {| result := respond 400 (ErrorBody "Product ID is required (or provide URL)");
         state := s; log := [] |}
  | Returned (Some pid) =>
      if negb (truthy pid) then
        {| result := respond 400 (ErrorBody "Product ID is required (or provide URL)");
           state := s; log := [] |}
      else
        match fetch pid with
        | Resolved data =>
            {| result := respond 200 (PreviewBody pid (parseProduct pid data));
               state := s; log := [] |}
        | Rejected message => endpointCatch s message []
        end
  end.

(** *** Runs of the process *)

(** What can happen to the process: a request, or a tick of the timer. *)
Inductive Input :=
| Add (req : AddBody) (fetch : ProductId -> FetchResult)
    (cart : CartOracle) (now1 now2 : Timestamp)
| Remove (key : string)
| PutSizes (key : string) (watchedSizes : WatchedSizesField)
| ResetNotified (key : string)
| HistoryClear
| HistoryDelete (key : string)
| ConfigAuth (req : AuthBody)
| ConfigDiscord (webhook : string)
| Preview (resolved : Outcome (option ProductId))
    (fetch : ProductId -> FetchResult)
| Tick (fetch : ProductId -> FetchResult) (cart : CartOracle).

Definition forget {A} (r : Reply A) : Sys * list Event := (state r, log r).

(** One step of the process.  The timer only ticks while it is set. *)
Definition step (s : Sys) (i : Input) : Sys * list Event :=
  match i with
  | Add req fetch cart now1 now2 =>
      forget (apiProductsAdd s req fetch cart now1 now2)
  | Remove key => forget (apiProductsDelete s key)
  | PutSizes key w => forget (apiProductsSizes s key w)
  | ResetNotified key => forget (apiProductsReset s key)
  | HistoryClear => forget (apiHistoryClear s)
  | HistoryDelete key => forget (apiHistoryDelete s key)
  | ConfigAuth req => forget (apiConfigAuth s req)
  | ConfigDiscord webhook => forget (apiConfigDiscord s webhook)
  | Preview resolved fetch => forget (apiProductsFetch s resolved fetch)
  | Tick fetch cart =>
      match monitoringInterval s with
      | Some _ => forget (monitorAllProducts s fetch cart)
      | None => (s, [])
      end
  end.

(** A run: the inputs one after the other; the events of each step. *)
Fixpoint run (s : Sys) (inputs : list Input) : Sys * list (list Event) :=
  match inputs with
  | [] => (s, [])
  | i :: rest =>
      let '(s1, tr) := step s i in
      let '(s2, trs) := run s1 rest in
      (s2, tr :: trs)
  end.

(** The state of a freshly started process. *)
Definition initial (c : Config) : Sys :=
  {| CONFIG := c; monitoredProducts := JsMap.empty;
     productHistory := JsMap.empty;
     monitoringInterval := None;
     tokenExpiredNotified := false |}.

Inductive reachable : Sys -> Prop :=
| reachable_initial : forall c, reachable (initial c)
| reachable_step : forall s i, reachable s -> reachable (fst (step s i)).

End Engine.

(** * The rest of the program *)

(** The functions of [server.js] around the engine: the parser of pasted
    headers, the configuration at startup, the parser of product links and
    the two handlers that use them, from the fields of their bodies.

    In the text functions below a character is a code unit below 256, and
    the fields [headers], [url] and [productId] of a body are strings or
    absent.  [new URL(url).searchParams.get('id')] belongs to the platform:
    it is the parameter [queryId] of the section [Preview]. *)

(** ** [parseHeadersFromEnv] *)

(** The white space and line terminators that [String.prototype.trim]
    removes, among the code units below 256. *)
Definition isWhiteSpace (c : ascii) : bool :=
  let n := nat_of_ascii c in
  (n =? 9)%nat || (n =? 10)%nat || (n =? 11)%nat || (n =? 12)%nat ||
  (n =? 13)%nat || (n =? 32)%nat || (n =? 160)%nat.

Fixpoint trimStart (s : string) : string :=
  match s with
  | EmptyString => EmptyString
  | String c r => if isWhiteSpace c then trimStart r else s
  end.

Fixpoint trimEnd (s : string) : string :=
  match s with
  | EmptyString => EmptyString
  | String c r =>
      let r' := trimEnd r in
      if isWhiteSpace c && (r' =? "") then EmptyString else String c r'
  end.

(** [s.trim()]. *)
Definition trim (s : string) : string := trimEnd (trimStart s).

(** [s.substring(n)]. *)
Fixpoint substringFrom (n : nat) (s : string) : string :=
  match n, s with
  | O, _ => s
  | S n', String _ r => substringFrom n' r
  | S _, EmptyString => EmptyString
  end.

Definition LF : ascii := ascii_of_nat 10.

(** [s.split('\n')]. *)
Fixpoint splitLines (s : string) : list string :=
  match s with
  | EmptyString => [EmptyString]
  | String c r =>
      if Ascii.eqb c LF then EmptyString :: splitLines r
      else
        match splitLines r with
        | line :: lines => String c line :: lines
        | [] => [String c EmptyString]
        end
  end.

(** The object [parseHeadersFromEnv] returns. *)
Record ParsedHeaders := {
  parsed_basicAuth : string;
  parsed_cookies : string
}.

Definition noHeaders : ParsedHeaders :=
  {| parsed_basicAuth := ""; parsed_cookies := "" |}.

(** The body of the loop over the lines. *)
Definition parseHeaderLine (result : ParsedHeaders) (line : string)
    : ParsedHeaders :=
  let trimmed := trim line in
  let result1 :=
    if startsWith "authorization:" (toLowerCase trimmed) then
      let value := trim (substringFrom 14 trimmed) in
      if startsWith "basic " (toLowerCase value) then
        {| parsed_basicAuth := trim (substringFrom 6 value);
           parsed_cookies := parsed_cookies result |}
      else result
    else result in
  if startsWith "cookie:" (toLowerCase trimmed) then
    {| parsed_basicAuth := parsed_basicAuth result1;
       parsed_cookies := trim (substringFrom 7 trimmed) |}
  else result1.

Definition parseHeadersFromEnv (headersStr : option string) : ParsedHeaders :=
  match headersStr with
  | None => noHeaders
  | Some s =>
      if negb (truthy s) then noHeaders
      else fold_left parseHeaderLine (splitLines s) noHeaders
  end.

(** ** The configuration at startup *)

(** The environment variables the program reads for [CONFIG]. *)
Record Env := {
  DISCORD_WEBHOOK : option string;
  PSS_HEADERS : option string;
  PSS_BASIC_AUTH : option string;
  PSS_COOKIES : option string
}.

(** The constant [CONFIG], as the module initialises it. *)
Definition startupConfig (env : Env) : Config :=
  let parsedHeaders := parseHeadersFromEnv (PSS_HEADERS env) in
  {| discordWebhook := js_or_default (DISCORD_WEBHOOK env) "";
     checkIntervalMs := 60 * 1000;
     basicAuth :=
       if truthy (parsed_basicAuth parsedHeaders)
       then parsed_basicAuth parsedHeaders
       else js_or_default (PSS_BASIC_AUTH env) "";
     cookies :=
       if truthy (parsed_cookies parsedHeaders)
       then parsed_cookies parsedHeaders
       else js_or_default (PSS_COOKIES env) "" |}.

(** ** [POST /api/config/auth], from the fields of its body *)

Record AuthRequest := {
  req_headers : option string;
  req_basicAuth : option string;
  req_cookies : option string
}.

(** What the handler reads of the body: the field [headers] through
    [parseHeadersFromEnv], when it is truthy. *)
Definition authBodyOf (r : AuthRequest) : AuthBody :=
  let parsed :=
    match req_headers r with
    | Some headers =>
        if truthy headers then parseHeadersFromEnv (Some headers)
        else noHeaders
    | None => noHeaders
    end in
  {| auth_headers_basicAuth := parsed_basicAuth parsed;
     auth_headers_cookies := parsed_cookies parsed;
     auth_basicAuth := js_or_default (req_basicAuth r) "";
     auth_cookies := js_or_default (req_cookies r) "" |}.

Definition apiConfigAuthRequest (s : Sys) (r : AuthRequest) : Reply Response :=
  apiConfigAuth s (authBodyOf r).

(** ** [parseProductUrl] and [POST /api/products/fetch] *)

Definition isDigit (c : ascii) : bool :=
  let n := nat_of_ascii c in (48 <=? n)%nat && (n <=? 57)%nat.

(** The longest run of digits at the start of [s]. *)
Fixpoint takeDigits (s : string) : string :=
  match s with
  | EmptyString => EmptyString
  | String c r => if isDigit c then String c (takeDigits r) else EmptyString
  end.

(** The capture of the pattern [/id/(digits)] when it matches at the start
    of [s]. *)
Definition matchIdHere (s : string) : option string :=
  if startsWith "/id/" s then
    let digits := takeDigits (substringFrom 4 s) in
    if truthy digits then Some digits else None
  else None.

(** [url.match] with that pattern: the capture of the leftmost match. *)
Fixpoint matchId (s : string) : option string :=
  match matchIdHere s with
  | Some digits => Some digits
  | None =>
      match s with
      | EmptyString => None
      | String _ r => matchId r
      end
  end.

Record FetchBody := {
  fetch_productId : option ProductId;
  fetch_url : option string
}.

Section Preview.

Variable webhook_error : string -> option string.

(** The platform's [new URL(url).searchParams.get('id')]: [Thrown] when
    [new URL] rejects the string, [Returned None] when the query has no
    parameter [id]. *)
Variable queryId : string -> Outcome (option string).

Definition parseProductUrl (url : string) : Outcome (option string) :=
  match matchId url with
  | Some id => Returned (Some id)
  | None =>
      match queryId url with
      | Thrown message => Thrown message
      | Returned (Some id) =>
          if truthy id then Returned (Some id) else Returned None
      | Returned None => Returned None
      end
  end.

Definition optTruthy (v : option string) : bool :=
  match v with
  | Some s => truthy s
  | None => false
  end.

(** The end of the preview handler, once it has a product id. *)
Definition previewProduct (s : Sys) (productId : option ProductId)
    (fetch : ProductId -> FetchResult) : Reply Response :=
  match productId with
  | Some pid =>
      if negb (truthy pid) then
        {| result := respond 400 (ErrorBody "Product ID is required (or provide URL)");
           state := s; log := [] |}
      else
        match fetch pid with
        | Resolved data =>
            {| result := respond 200 (PreviewBody pid (parseProduct pid data));
               state := s; log := [] |}
        | Rejected message => endpointCatch webhook_error s message []
        end
  | None =>
      {| result := respond 400 (ErrorBody "Product ID is required (or provide URL)");
         state := s; log := [] |}
  end.

(** [POST /api/products/fetch], from the fields of its body. *)
Definition apiProductsFetchRequest (s : Sys) (req : FetchBody)
    (fetch : ProductId -> FetchResult) : Reply Response :=
  match fetch_url req with
  | Some url =>
      if truthy url && negb (optTruthy (fetch_productId req)) then
        match parseProductUrl url with
        | Thrown message => endpointCatch webhook_error s message []
        | Returned None =>
            {| result := respond 400 (ErrorBody "Invalid PrivateSportShop URL format");
               state := s; log := [] |}
        | Returned (Some pid) => previewProduct s (Some pid) fetch
        end
      else previewProduct s (fetch_productId req) fetch
  | None => previewProduct s (fetch_productId req) fetch
  end.

End Preview.

(** ** [makeRequest]: the error for a response with a status of 400 or more *)

(** The message of the error [makeRequest] rejects with; [statusCode] is
    the status as the template literal prints it, in decimal. *)
Definition httpErrorMessage (statusCode responseText : string) : string :=
  String.append "HTTP "
    (String.append statusCode (String.append ": " responseText)).

(** * The vocabulary of the properties *)

(** [I] holds after [m], whether it returns or throws. *)
Definition preserves {L A} (I : St L -> Prop) (m : Proc L A) : Prop :=
  forall st, I st -> I (snd (m st)).

(** The events of a step are appended to those before it. *)
Definition extends {L} (tr0 : list Event) (st : St L) : Prop :=
  exists added, events st = tr0 ++ added.

(** The trace has [n] events that satisfy [f]. *)
Definition counts {L} (f : Event -> bool) (n : nat) (st : St L) : Prop :=
  count f (events st) = n.

(** The product endpoint refuses this entry with a message that the sweep
    takes for an authorization failure. *)
Definition authFails (fetch : ProductId -> FetchResult)
    (kp : string * Product) : bool :=
  match fetch (productId (snd kp)) with
  | Rejected message => authSignalSweep message
  | Resolved _ => false
  end.

(** What the sink appends when it does not throw. *)
Definition notifyEvents (cfg : Config) (info : ProductInfo) (sizeId : SizeId)
    (sizeName : string) (qty : Z) (productUrl : string) : list Event :=
  if truthy (discordWebhook cfg)
  then [Notify info sizeId sizeName qty productUrl] else [].

(** [p'] differs from [p] in [notified] at most. *)
Definition sameButNotified (p p' : Product) : Prop :=
  p' = with_notified (fun _ => notified p') p.

(** What one iteration of the loop over the watched sizes appends. *)
Definition checkSizeEvents (cfg : Config) (cart : CartOracle)
    (info : ProductInfo) (sm : JsObj.t SizeInfo)
    (stockInfo : JsObj.t StockEntry) (productUrl : string)
    (st : St Product) (x : SizeId) : list Event :=
  let p := local st in
  if newStockDetected p stockInfo x then
    let ok := success (cart (events st) (productId p) x) in
    Reserve (productId p) x ok ::
      (if ok then
         notifyEvents cfg info x (sizeNameOf sm x)
           (quantityOr1 (JsObj.get stockInfo x)) productUrl
       else [])
  else [].

(** Whether the size is in [notified] after its iteration. *)
Definition checkSizeNotified (cart : CartOracle)
    (stockInfo : JsObj.t StockEntry) (st : St Product) (x : SizeId) : bool :=
  let p := local st in
  inStockOf (JsObj.get stockInfo x) &&
  (JsSet.has (notified p) x ||
   (newStockDetected p stockInfo x &&
    success (cart (events st) (productId p) x))).

(** The shape of what the restock loop appends, for the sizes [ks] it goes
    through: failed calls for the first sizes, then nothing more, or one
    call that succeeded, followed by its alert unless the sink was silent
    or threw. *)
Inductive restockShape (pid : ProductId) : list SizeId -> list Event -> Prop :=
| shape_done : forall ks, restockShape pid ks []
| shape_failed : forall k ks tr,
    restockShape pid ks tr ->
    restockShape pid (k :: ks) (Reserve pid k false :: tr)
| shape_reserved : forall k ks,
    restockShape pid (k :: ks) [Reserve pid k true]
| shape_notified : forall k ks info name url,
    restockShape pid (k :: ks) [Reserve pid k true; Notify info k name 1 url].

Definition reservedSize (e : Event) : SizeId :=
  match e with
  | Reserve _ s _ => s
  | Notify _ s _ _ _ => s
  | TokenAlert _ => ""
  end.

(** The basket calls of a restock edge, told from the answers of the basket
    endpoint: the sizes [ks] are tried one after the other, each call after
    the trace [tr] of the refused calls before it, up to and including the
    first call that the endpoint accepts, or to the last size. *)
Fixpoint restockCalls (cart : CartOracle) (pid : ProductId)
    (tr : list Event) (ks : list SizeId) : list Event :=
  match ks with
  | [] => []
  | k :: rest =>
      let ok := success (cart tr pid k) in
      Reserve pid k ok ::
        (if ok then []
         else restockCalls cart pid (tr ++ [Reserve pid k false]) rest)
  end.

(** The fields of an entry that only the end of the [try] block, or no
    step of a sweep at all, writes. *)
Definition sameEntry (p p' : Product) : Prop :=
  productId p' = productId p /\ watchedSizes p' = watchedSizes p /\
  watchAll p' = watchAll p /\ previousStock p' = previousStock p.

(** The stored state of an entry agrees with what [fetch] answers: the
    stored snapshot is the one observed, and in [watchAll] mode
    [hadSizes] tells whether that snapshot has sizes. *)
Definition settled (fetch : ProductId -> FetchResult) (p : Product) : Prop :=
  match fetch (productId p) with
  | Resolved data =>
      previousStock p = snd (parseProduct (productId p) data) /\
      (watchAll p = true ->
       hadSizes p = hasSizesOf (snd (fst (parseProduct (productId p) data))))
  | Rejected _ => True
  end.

(** The entry was re-armed against what [fetch] answers: it stores the
    snapshot observed, and a watched size is in [notified] only if that
    snapshot has it in stock. *)
Definition rearmed (fetch : ProductId -> FetchResult) (p : Product) : Prop :=
  match fetch (productId p) with
  | Resolved data =>
      previousStock p = snd (parseProduct (productId p) data) /\
      forall x, In x (watchedSizes p) -> JsSet.has (notified p) x = true ->
                inStockOf (JsObj.get (previousStock p) x) = true
  | Rejected _ => True
  end.

(** The rest of the [try] block, once the fetch has succeeded. *)
Definition afterFetch (webhook_error : string -> option string)
    (cfg : Config) (cart : CartOracle) (pid : ProductId) (snapshot : Snapshot)
    : Proc Product unit :=
  let '(info, sm, stockInfo) := snapshot in
  watchAllBranch webhook_error cfg cart info sm (productUrlOf pid)
    (hasSizesOf sm) ;;;
  product <- get_local ;;
  for_of (JsSet.elements (watchedSizes product))
    (checkSize webhook_error cfg cart info sm stockInfo (productUrlOf pid)) ;;;
  modify (with_snapshot stockInfo info sm).

(** The registry has one entry per key, and it is empty exactly when the
    timer is not set. *)
Definition schedulerInvariant (s : Sys) : Prop :=
  JsMap.wf (monitoredProducts s) /\
  (JsMap.size (monitoredProducts s) = 0 <-> monitoringInterval s = None).




(** ** The vocabulary of the further properties *)

(** The values of the size option that [fetchProductDetails] goes
    through: those of the first option with the code [size]. *)
Definition listedSizes (data : Payload) : list SizeValue :=
  match data_options data with
  | Some opts =>
      match find (fun opt => opt_code opt =? "size") opts with
      | Some sizeOption =>
          match opt_values sizeOption with
          | Some values => values
          | None => []
          end
      | None => []
      end
  | None => []
  end.

(** A name under which an assignment creates an own property. *)
Definition notProto (k : string) : bool := negb (k =? "__proto__").

(** A property name that is an array index, and its value. *)
Definition isIndexKey (k : string) : bool :=
  match JsObj.array_index k with Some _ => true | None => false end.

Definition indexKey (k : string) : N :=
  match JsObj.array_index k with Some n => n | None => 0%N end.

(** Whether [e] may come right after [prev]: a stock alert needs, right
    before it, a basket call that succeeded, for the size of the alert and
    for the product its link points to. *)
Definition alertAfter (prev : option Event) (e : Event) : bool :=
  match e with
  | Notify _ x _ _ url =>
      match prev with
      | Some (Reserve pid y true) => (y =? x) && (url =? productUrlOf pid)
      | _ => false
      end
  | _ => true
  end.

(** Every event of the trace may come after the one before it. *)
Fixpoint alertsFollowReservations (prev : option Event) (tr : list Event)
    : bool :=
  match tr with
  | [] => true
  | e :: r => alertAfter prev e && alertsFollowReservations (Some e) r
  end.

(** The invariant of the [try] block of an entry with the id [pid]. *)
Definition pairedAt (pid : ProductId) (st : St Product) : Prop :=
  productId (local st) = pid /\
  alertsFollowReservations None (events st) = true.

Definition paired {L} (st : St L) : Prop :=
  alertsFollowReservations None (events st) = true.

(** The invariant of the add handler on [notifiedSet]: a size is in it
    only after a basket call for it succeeded. *)
Definition notifiedReserved (pid : ProductId) (st : St JsSet.t) : Prop :=
  forall x, JsSet.has (local st) x = true ->
            In (Reserve pid x true) (events st).

(** What no step of a sweep writes: the id, the watched sizes and the
    mode of an entry. *)
Definition sameIdentity (p p' : Product) : Prop :=
  productId p' = productId p /\ watchedSizes p' = watchedSizes p /\
  watchAll p' = watchAll p.

Definition keptAs (p0 : Product) (st : St Product) : Prop :=
  sameIdentity p0 (local st).

(** The entries of the registry as the process builds them: each one under
    its own product id, with a set as watched sizes. *)
Definition entryOk (kp : string * Product) : Prop :=
  productId (snd kp) = fst kp /\ NoDup (watchedSizes (snd kp)).

(** The invariant of the stored state: the entries are as above, a
    history entry is stored under its product id, and a timer that is set
    has the period of the configuration. *)
Definition storeOk (s : Sys) : Prop :=
  Forall entryOk (monitoredProducts s) /\
  Forall (fun ke => hist_productId (snd ke) = fst ke) (productHistory s) /\
  (forall i, monitoringInterval s = Some i ->
             everyMs i = checkIntervalMs (CONFIG s)).

(** The basket calls of the trace are for products that [allowed]
    accepts. *)
Definition callsOnlyFor (allowed : ProductId -> bool) (tr : list Event)
    : bool :=
  forallb (fun e => match e with
                    | Reserve pid _ _ => allowed pid
                    | _ => true
                    end) tr.

Definition callsAt (allowed : ProductId -> bool) (pid : ProductId)
    (st : St Product) : Prop :=
  productId (local st) = pid /\ callsOnlyFor allowed (events st) = true.

Definition callsIn {L} (allowed : ProductId -> bool) (st : St L) : Prop :=
  callsOnlyFor allowed (events st) = true.

(** The products the basket may be called for at an input: the product of
    an add, the products of the registry at a tick of the timer, and none
    otherwise. *)
Definition mayReserve (s : Sys) (i : Input) (pid : ProductId) : bool :=
  match i with
  | Add req _ _ _ _ =>
      match add_productId req with
      | Some p => p =? pid
      | None => false
      end
  | Tick _ _ =>
      existsb (fun kp => productId (snd kp) =? pid) (monitoredProducts s)
  | _ => false
  end.

(** A string of decimal digits. *)
Fixpoint allDigits (s : string) : bool :=
  match s with
  | EmptyString => true
  | String c r => isDigit c && allDigits r
  end.

Definition startsWithDigit (s : string) : bool :=
  match s with
  | EmptyString => false
  | String c _ => isDigit c
  end.

(** Header lines put together into a text, with [eol] between them. *)
Fixpoint joinLines (eol : string) (lines : list string) : string :=
  match lines with
  | [] => EmptyString
  | [line] => line
  | line :: rest => String.append line (String.append eol (joinLines eol rest))
  end.

Definition CR : ascii := ascii_of_nat 13.

Fixpoint noLineBreak (s : string) : bool :=
  match s with
  | EmptyString => true
  | String c r => negb (Ascii.eqb c LF) && noLineBreak r
  end.

(** A line that [parseHeadersFromEnv] passes over: one line, whose name
    is neither [authorization] nor [cookie]. *)
Definition isOtherHeader (line : string) : bool :=
  noLineBreak line
  && negb (startsWith "authorization:" (toLowerCase (trim line)))
  && negb (startsWith "cookie:" (toLowerCase (trim line))).

(** The value of a header: not empty, on one line, without white space
    around it. *)
Definition isHeaderValue (v : string) : bool :=
  truthy v && noLineBreak v && (trim v =? v).

(** ** Sample inputs *)

Module Sample.

(** A stand-in for the platform on the webhooks used below: [new URL]
    accepts an https address and throws [Invalid URL] on a string without
    a scheme. *)
Definition url (webhook : string) : option string :=
  if startsWith "https://" webhook then None else Some "Invalid URL".

Definition config (webhook : string) : Config :=
  {| discordWebhook := webhook; checkIntervalMs := 60000;
     basicAuth := ""; cookies := "" |}.

Definition sizeValue (id : string) : SizeValue :=
  {| sv_id := id; sv_value := String.append "EU " id; sv_product_id := None |}.

(** A payload whose size option lists [ids], in that order. *)
Definition payload (ids : list string) : Payload :=
  {| data_entity_id := None; data_productID := None;
     data_name := Some "Trail shoe"; data_brand_name := Some "Acme";
     data_prices := None; data_image0 := None; data_thumbnail0 := None;
     data_inStock := true; data_in_stock := None;
     data_product_type := None; data_description := None;
     data_options :=
       Some [ {| opt_code := "size";
                 opt_values := Some (map sizeValue ids) |} ] |}.

(** The product endpoint answers with the sizes [ids]. *)
Definition upstream (ids : list string) : ProductId -> FetchResult :=
  fun _ => Resolved (payload ids).

(** The product endpoint refuses the credentials. *)
Definition unauthorized : ProductId -> FetchResult :=
  fun _ => Rejected "HTTP 401: Unauthorized".

(** The basket endpoint always answers the same. *)
Definition basket (ok : bool) : CartOracle :=
  fun _ _ _ => {| success := ok; cart_message := "" |}.

(** The basket endpoint refuses the first call and accepts the others. *)
Definition basketRefusesFirst : CartOracle :=
  fun tr _ _ =>
    {| success := negb (Nat.eqb (length tr) 0); cart_message := "" |}.

Definition watchSizes (pid : ProductId) (l : list SizeId) : AddBody :=
  {| add_productId := Some pid; add_watchedSizes := WsArray l;
     add_watchAll := false |}.

Definition watchAny (pid : ProductId) : AddBody :=
  {| add_productId := Some pid; add_watchedSizes := WsNullish;
     add_watchAll := true |}.

Definition credentials : AuthBody :=
  {| auth_headers_basicAuth := ""; auth_headers_cookies := "";
     auth_basicAuth := "dXNlcjp0b2tlbg=="; auth_cookies := "" |}.

Definition hook : string := "https://discord.test/api/webhooks/1/abc".

(** An entry that watches size 38, seen out of stock so far. *)
Definition entry38 : Product :=
  {| productId := "1";
     productInfo := parseProductInfo "1" (payload []);
     sizeMapping := JsObj.empty; watchedSizes := ["38"];
     watchAll := false; hadSizes := false;
     previousStock := JsObj.empty; notified := JsSet.empty |}.

(** An entry in [watchAll] mode for a product without sizes so far. *)
Definition entryAny : Product :=
  {| productId := "1";
     productInfo := parseProductInfo "1" (payload []);
     sizeMapping := JsObj.empty; watchedSizes := JsSet.empty;
     watchAll := true; hadSizes := false;
     previousStock := JsObj.empty; notified := JsSet.empty |}.

End Sample.

(** * Properties *)

Arguments hasSizesOf : simpl never.
Arguments productUrlOf : simpl never.
Arguments monitorProduct : simpl never.
Arguments catchClause : simpl never.

(** ** The enumeration order of a dictionary *)

(** Upstream lists 42, 38, XL, 7: [Object.keys] gives the array indices in
    ascending order first, then the other names. *)
Example keys_of_sizes :
  JsObj.keys (fst (parseOptions (Sample.payload ["42"; "38"; "XL"; "7"])))
    = ["7"; "38"; "42"; "XL"].
Proof. reflexivity. Qed.

(** A size listed twice is one property, at its first place. *)
Example keys_of_repeated_size :
  JsObj.keys (fst (parseOptions (Sample.payload ["M"; "S"; "M"]))) = ["M"; "S"].
Proof. reflexivity. Qed.

Example set_of_repeated_sizes :
  JsSet.of_list ["38"; "40"; "38"] = ["38"; "40"].
Proof. reflexivity. Qed.

(** ** Sets and maps *)

Lemma has_app (s1 s2 : JsSet.t) (x : string) :
  JsSet.has (s1 ++ s2) x = JsSet.has s1 x || JsSet.has s2 x.
Proof.
  induction s1 as [|y s1 IH]; simpl; [reflexivity|].
  now rewrite IH, orb_assoc.
Qed.

Lemma has_add (x y : string) (s : JsSet.t) :
  JsSet.has (JsSet.add x s) y = (x =? y) || JsSet.has s y.
Proof.
  unfold JsSet.add. destruct (JsSet.has s x) eqn:Hx.
  - destruct (String.eqb_spec x y) as [->|]; simpl; [now rewrite Hx|reflexivity].
  - rewrite has_app. simpl. rewrite orb_false_r. apply orb_comm.
Qed.

Lemma has_delete (x y : string) (s : JsSet.t) :
  JsSet.has (JsSet.delete x s) y = negb (x =? y) && JsSet.has s y.
Proof.
  induction s as [|z s IH]; simpl.
  - now rewrite andb_false_r.
  - destruct (String.eqb_spec z x) as [->|Hzx].
    + rewrite IH. destruct (String.eqb_spec x y); simpl; reflexivity.
    + simpl. rewrite IH.
      destruct (String.eqb_spec z y) as [->|Hzy]; simpl.
      * destruct (String.eqb_spec x y); [congruence|reflexivity].
      * reflexivity.
Qed.

Section MapFacts.
Variable V : Type.
Implicit Types (m : JsMap.t V) (k : string) (v : V).

Lemma map_keys_set m k v :
  JsMap.get m k <> None -> map fst (JsMap.set m k v) = map fst m.
Proof.
  induction m as [|[k' v'] m IH]; simpl; [congruence|].
  destruct (k' =? k); simpl; [reflexivity|].
  intros H. now rewrite IH.
Qed.

Lemma map_keys_set_new m k v :
  JsMap.get m k = None -> map fst (JsMap.set m k v) = map fst m ++ [k].
Proof.
  induction m as [|[k' v'] m IH]; simpl; [reflexivity|].
  destruct (k' =? k); simpl; [discriminate|].
  intros H. now rewrite IH.
Qed.

Lemma map_get_None m k : JsMap.get m k = None <-> ~ In k (map fst m).
Proof.
  induction m as [|[k' v'] m IH]; simpl; [tauto|].
  destruct (String.eqb_spec k' k); [intuition congruence|].
  rewrite IH. tauto.
Qed.

Lemma map_set_nonempty m k v : JsMap.size (JsMap.set m k v) <> 0.
Proof.
  destruct m as [|[k' v'] m]; simpl; [discriminate|].
  destruct (k' =? k); simpl; discriminate.
Qed.

Lemma map_wf_set m k v : JsMap.wf m -> JsMap.wf (JsMap.set m k v).
Proof.
  unfold JsMap.wf. intros Hwf.
  destruct (JsMap.get m k) eqn:Hg.
  - rewrite map_keys_set; [assumption|congruence].
  - rewrite map_keys_set_new by assumption.
    apply NoDup_app; [assumption|constructor; [tauto|constructor]|].
    intros x Hx [<-|[]]. now apply map_get_None in Hg.
Qed.

Lemma map_keys_delete m k : forall x,
  In x (map fst (JsMap.delete m k)) <-> In x (map fst m) /\ x <> k.
Proof.
  induction m as [|[k' v'] m IH]; simpl; intros x; [tauto|].
  destruct (String.eqb_spec k' k) as [->|Hk]; simpl; rewrite IH.
  - intuition congruence.
  - intuition congruence.
Qed.

Lemma map_wf_delete m k : JsMap.wf m -> JsMap.wf (JsMap.delete m k).
Proof.
  unfold JsMap.wf. induction m as [|[k' v'] m IH]; simpl; intros Hwf.
  - constructor.
  - inversion Hwf as [|? ? Hnin Hnd]; subst.
    destruct (k' =? k); simpl; [auto|].
    constructor; [|auto].
    rewrite map_keys_delete. tauto.
Qed.

(** Deleting a key that is there takes exactly one entry away. *)
Lemma map_size_delete m k :
  JsMap.wf m -> JsMap.has m k = true ->
  S (JsMap.size (JsMap.delete m k)) = JsMap.size m.
Proof.
  unfold JsMap.wf, JsMap.has, JsMap.size.
  induction m as [|[k' v'] m IH]; simpl; intros Hwf Hhas; [discriminate|].
  inversion Hwf as [|? ? Hnin Hnd]; subst.
  destruct (String.eqb_spec k' k) as [->|Hk]; simpl.
  - f_equal. clear IH Hwf Hnd Hhas.
    induction m as [|[k2 v2] m IH]; simpl in *; [reflexivity|].
    destruct (String.eqb_spec k2 k) as [->|]; [tauto|].
    simpl. f_equal. apply IH. tauto.
  - f_equal. now apply IH.
Qed.

Lemma map_get_set_same m k v : JsMap.get (JsMap.set m k v) k = Some v.
Proof.
  induction m as [|[k' v'] m IH]; simpl.
  - now rewrite String.eqb_refl.
  - destruct (k' =? k) eqn:E; simpl; rewrite E; [reflexivity|assumption].
Qed.

Lemma map_get_set_other m k k2 v :
  k2 <> k -> JsMap.get (JsMap.set m k v) k2 = JsMap.get m k2.
Proof.
  intros Hne. induction m as [|[k' v'] m IH]; simpl.
  - destruct (String.eqb_spec k k2); congruence.
  - destruct (String.eqb_spec k' k) as [->|]; simpl.
    + destruct (String.eqb_spec k k2); congruence.
    + now rewrite IH.
Qed.

Lemma map_get_delete_other m k k2 :
  k2 <> k -> JsMap.get (JsMap.delete m k) k2 = JsMap.get m k2.
Proof.
  intros Hne. induction m as [|[k' v'] m IH]; simpl; [reflexivity|].
  destruct (String.eqb_spec k' k) as [->|]; simpl.
  - rewrite IH. destruct (String.eqb_spec k k2); congruence.
  - now rewrite IH.
Qed.

End MapFacts.

(** ** A small program logic for [Proc] *)

Section Logic.
Context {L : Type}.
Implicit Types (I P : St L -> Prop).

Lemma preserves_ret {A} I (a : A) : preserves I (ret a).
Proof. intros st H; exact H. Qed.

Lemma preserves_throw {A} I message : preserves I (@throw L A message).
Proof. intros st H; exact H. Qed.

Lemma preserves_get I : preserves I (@get_local L).
Proof. intros st H; exact H. Qed.

Lemma preserves_bind {A B} I (m : Proc L A) (k : A -> Proc L B) :
  preserves I m -> (forall a, preserves I (k a)) -> preserves I (bind m k).
Proof.
  intros Hm Hk st H. unfold bind.
  specialize (Hm st H). destruct (m st) as [[a|message] st']; simpl in *.
  - now apply Hk.
  - assumption.
Qed.

Lemma preserves_for_of {A} I (l : list A) (body : A -> Proc L unit) :
  (forall x, In x l -> preserves I (body x)) -> preserves I (for_of l body).
Proof.
  induction l as [|x l IH]; simpl; intros H.
  - apply preserves_ret.
  - apply preserves_bind; [apply H; now left|].
    intros _. apply IH. intros y Hy. apply H. now right.
Qed.

(** A loop whose body returns: [I] is its invariant; what one iteration
    establishes about its element, [P x], is kept by the others. *)
Lemma returns_for_of {A} (I : St L -> Prop) (P : A -> St L -> Prop)
    (l : list A) (body : A -> Proc L unit) :
  (forall x st, In x l -> I st ->
     exists st', body x st = (Returned tt, st') /\ I st' /\ P x st' /\
                 (forall y, P y st -> P y st')) ->
  forall st, I st ->
    exists st', for_of l body st = (Returned tt, st') /\ I st' /\
                (forall x, In x l -> P x st') /\ (forall y, P y st -> P y st').
Proof.
  induction l as [|x l IH]; simpl; intros Hbody st HI.
  - exists st. repeat split; auto. intros x [].
  - destruct (Hbody x st (or_introl eq_refl) HI) as (st1 & E1 & HI1 & HP1 & Hk1).
    destruct (IH (fun y st0 Hy => Hbody y st0 (or_intror Hy)) st1 HI1)
      as (st2 & E2 & HI2 & HP2 & Hk2).
    exists st2. unfold bind. rewrite E1. repeat split; auto.
    intros y [<-|Hy]; auto.
Qed.

End Logic.

Lemma count_app f tr1 tr2 : count f (tr1 ++ tr2) = count f tr1 + count f tr2.
Proof. unfold count. now rewrite filter_app, length_app. Qed.

(** ** The sink *)

Section Sink.
Variable webhook_error : string -> option string.
Context {L : Type}.

Lemma sendDiscordNotification_ok cfg info sizeId sizeName qty url (st : St L) :
  sinkOk webhook_error cfg = true ->
  sendDiscordNotification webhook_error cfg info sizeId sizeName qty url st =
    (Returned tt,
     {| local := local st;
        events := events st ++ notifyEvents cfg info sizeId sizeName qty url |}).
Proof.
  unfold sinkOk, sendDiscordNotification, notifyEvents, ret, throw, emit.
  destruct (truthy (discordWebhook cfg)); simpl.
  - destruct (webhook_error (discordWebhook cfg)); [discriminate|reflexivity].
  - intros _. rewrite app_nil_r. now destruct st.
Qed.

(** Whatever the webhook, the sink leaves the local state alone and
    appends at most one stock alert. *)
Lemma sendDiscordNotification_any cfg info sizeId sizeName qty url (st : St L) :
  exists o added,
    sendDiscordNotification webhook_error cfg info sizeId sizeName qty url st =
      (o, {| local := local st; events := events st ++ added |}) /\
    (added = [] \/ added = [Notify info sizeId sizeName qty url]).
Proof.
  unfold sendDiscordNotification, ret, throw, emit.
  destruct (truthy (discordWebhook cfg)); simpl.
  - destruct (webhook_error (discordWebhook cfg)) as [message|].
    + exists (Thrown message), []. rewrite app_nil_r. destruct st; auto.
    + exists (Returned tt), [Notify info sizeId sizeName qty url]. auto.
  - exists (Returned tt), []. rewrite app_nil_r. destruct st; auto.
Qed.

End Sink.

(** ** One watched size of a sweep *)

Lemma sameButNotified_refl p : sameButNotified p p.
Proof. unfold sameButNotified. now destruct p. Qed.

Lemma sameButNotified_trans p q r :
  sameButNotified p q -> sameButNotified q r -> sameButNotified p r.
Proof.
  unfold sameButNotified. intros Hq Hr. rewrite Hr at 1. rewrite Hq at 1.
  reflexivity.
Qed.

Lemma sameButNotified_with f p : sameButNotified p (with_notified f p).
Proof. unfold sameButNotified. reflexivity. Qed.

Section CheckSize.
Variable webhook_error : string -> option string.
Variables (cfg : Config) (cart : CartOracle) (info : ProductInfo)
          (sm : JsObj.t SizeInfo) (stockInfo : JsObj.t StockEntry)
          (productUrl : string).
Hypothesis sink : sinkOk webhook_error cfg = true.

Lemma checkSize_returns (x : SizeId) (st : St Product) :
  exists st',
    checkSize webhook_error cfg cart info sm stockInfo productUrl x st
      = (Returned tt, st') /\
    sameButNotified (local st) (local st') /\
    events st' =
      events st ++ checkSizeEvents cfg cart info sm stockInfo productUrl st x /\
    JsSet.has (notified (local st')) x = checkSizeNotified cart stockInfo st x /\
    (forall y, y <> x ->
       JsSet.has (notified (local st')) y = JsSet.has (notified (local st)) y).
Proof.
  destruct st as [p tr].
  unfold checkSize, checkSizeEvents, checkSizeNotified, bind, get_local, ret,
    modify, addToCart; cbn.
  destruct (newStockDetected p stockInfo x) eqn:Hfire; cbn.
  - (* the edge fires: one call of the basket endpoint *)
    assert (Hnow : inStockOf (JsObj.get stockInfo x) = true).
    { unfold newStockDetected in Hfire.
      destruct (inStockOf (JsObj.get stockInfo x)); [reflexivity|discriminate]. }
    assert (Hnot : JsSet.has (notified p) x = false).
    { unfold newStockDetected in Hfire.
      destruct (JsSet.has (notified p) x); [|reflexivity].
      now rewrite andb_false_r in Hfire. }
    destruct (success (cart tr (productId p) x)) eqn:Hok; cbn.
    + rewrite sendDiscordNotification_ok by assumption. cbn.
      rewrite has_add, String.eqb_refl, Hnow. cbn.
      eexists. split; [reflexivity|]. cbn.
      split; [apply sameButNotified_with|].
      split; [now rewrite <- app_assoc|].
      split; [now rewrite has_add, String.eqb_refl, orb_true_r|].
      intros y Hy. rewrite has_add.
      destruct (String.eqb_spec x y); [congruence|reflexivity].
    + rewrite Hnot. cbn.
      eexists. split; [reflexivity|]. cbn.
      split; [apply sameButNotified_refl|].
      split; [reflexivity|].
      split; [now rewrite Hnot, Hnow|].
      reflexivity.
  - (* no edge: only the re-arm rule *)
    rewrite app_nil_r, orb_false_r.
    destruct (JsSet.has (notified p) x) eqn:Hhas; cbn.
    + destruct (inStockOf (JsObj.get stockInfo x)) eqn:Hnow; cbn.
      * eexists. split; [reflexivity|]. cbn.
        split; [apply sameButNotified_refl|]. auto.
      * eexists. split; [reflexivity|]. cbn.
        split; [apply sameButNotified_with|].
        split; [reflexivity|].
        split; [now rewrite has_delete, String.eqb_refl|].
        intros y Hy. rewrite has_delete.
        destruct (String.eqb_spec x y); [congruence|reflexivity].
    + eexists. split; [reflexivity|]. cbn.
      split; [apply sameButNotified_refl|].
      rewrite andb_false_r. auto.
Qed.

End CheckSize.

(** ** The loop over the watched sizes *)

Section WatchedLoop.
Variable webhook_error : string -> option string.
Variables (cfg : Config) (cart : CartOracle) (info : ProductInfo)
          (sm : JsObj.t SizeInfo) (stockInfo : JsObj.t StockEntry)
          (productUrl : string).
Hypothesis sink : sinkOk webhook_error cfg = true.

(** The loop returns; it changes [notified] only; afterwards every size
    it went through is in [notified] only if it is in stock now. *)
Lemma watchedLoop_returns (l : list SizeId) (st : St Product) :
  exists st',
    for_of l (checkSize webhook_error cfg cart info sm stockInfo productUrl) st
      = (Returned tt, st') /\
    sameButNotified (local st) (local st') /\
    extends (events st) st' /\
    (forall x, In x l -> JsSet.has (notified (local st')) x = true ->
               inStockOf (JsObj.get stockInfo x) = true).
Proof.
  pose (I := fun s : St Product =>
               sameButNotified (local st) (local s) /\ extends (events st) s).
  pose (P := fun (x : SizeId) (s : St Product) =>
               JsSet.has (notified (local s)) x = true ->
               inStockOf (JsObj.get stockInfo x) = true).
  destruct (@returns_for_of Product SizeId I P l
              (checkSize webhook_error cfg cart info sm stockInfo productUrl))
    with (st := st) as (st' & E & [HI1 HI2] & HP & _).
  - intros x s _ [Hs He].
    destruct (@checkSize_returns webhook_error cfg cart info sm stockInfo
                productUrl sink x s) as (s' & E & Hf & Hev & Hx & Hy).
    exists s'. split; [exact E|]. split; [split|split].
    + eapply sameButNotified_trans; eassumption.
    + destruct He as [added He]. exists (added ++ checkSizeEvents cfg cart info sm stockInfo productUrl s x).
      now rewrite Hev, He, app_assoc.
    + unfold P. rewrite Hx. unfold checkSizeNotified.
      destruct (inStockOf (JsObj.get stockInfo x)); [reflexivity|discriminate].
    + intros y HPy. unfold P in *.
      destruct (String.eqb_spec y x) as [->|Hne].
      * rewrite Hx. unfold checkSizeNotified.
        destruct (inStockOf (JsObj.get stockInfo x)); [reflexivity|discriminate].
      * now rewrite (Hy y Hne).
  - split; [apply sameButNotified_refl|]. exists []. now rewrite app_nil_r.
  - exists st'. auto.
Qed.

(** When the stored snapshot is the one observed now, no size shows a
    new-stock edge and the loop calls nothing. *)
Lemma watchedLoop_settled (l : list SizeId) (st : St Product) :
  previousStock (local st) = stockInfo ->
  exists st',
    for_of l (checkSize webhook_error cfg cart info sm stockInfo productUrl) st
      = (Returned tt, st') /\
    events st' = events st.
Proof.
  intros Hprev.
  pose (I := fun s : St Product =>
               previousStock (local s) = stockInfo /\ events s = events st).
  destruct (@returns_for_of Product SizeId I (fun _ _ => True) l
              (checkSize webhook_error cfg cart info sm stockInfo productUrl))
    with (st := st) as (st' & E & [_ HI2] & _).
  - intros x s _ [Hs He].
    destruct (@checkSize_returns webhook_error cfg cart info sm stockInfo
                productUrl sink x s) as (s' & E & Hf & Hev & _).
    exists s'. split; [exact E|]. split; [split|auto].
    + rewrite Hf. exact Hs.
    + rewrite Hev, He. unfold checkSizeEvents, newStockDetected.
      rewrite Hs.
      destruct (inStockOf (JsObj.get stockInfo x)); cbn; apply app_nil_r.
  - split; [exact Hprev|reflexivity].
  - exists st'. auto.
Qed.

End WatchedLoop.

(** ** The restock loop *)

Section RestockLoop.
Variable webhook_error : string -> option string.
Variables (cfg : Config) (cart : CartOracle) (info : ProductInfo)
          (productUrl : string).

Lemma restockLoop_added (entries : list (SizeId * SizeInfo)) (st : St Product) :
  restockLoop webhook_error cfg cart info productUrl entries true st
    = (Returned tt, st).
Proof. induction entries as [|[k i] r IH]; simpl; auto. Qed.

(** What the loop does, whatever the sink does: the calls have the
    shape above, the product changes in [notified] only, and a size
    enters [notified] only after its reservation succeeded. *)
Lemma restockLoop_shape (entries : list (SizeId * SizeInfo)) (st : St Product) :
  let r := restockLoop webhook_error cfg cart info productUrl entries false st in
  exists added,
    events (snd r) = events st ++ added /\
    restockShape (productId (local st)) (map fst entries) added /\
    sameButNotified (local st) (local (snd r)) /\
    (notified (local (snd r)) = notified (local st) \/
     exists k, In (Reserve (productId (local st)) k true) added /\
               notified (local (snd r)) = JsSet.add k (notified (local st))).
Proof.
  revert st. induction entries as [|[k i] rest IH]; intros st; cbn.
  - exists []. rewrite app_nil_r.
    split; [reflexivity|]. split; [constructor|].
    split; [apply sameButNotified_refl|now left].
  - unfold bind, get_local, addToCart; cbn.
    destruct (success (cart (events st) (productId (local st)) k)) eqn:Hok; cbn.
    + destruct (sendDiscordNotification_any webhook_error cfg info k (size i) 1
                  productUrl
                  {| local := local st;
                     events := events st ++ [Reserve (productId (local st)) k true] |})
        as (o & added & -> & Hadded).
      cbn in *. destruct o as [[]|message]; cbn.
      * rewrite restockLoop_added. cbn.
        exists (Reserve (productId (local st)) k true :: added).
        split; [now rewrite <- app_assoc|].
        split; [destruct Hadded as [->| ->]; constructor|].
        split; [apply sameButNotified_with|].
        right. exists k. split; [now left|reflexivity].
      * exists (Reserve (productId (local st)) k true :: added).
        split; [now rewrite <- app_assoc|].
        split; [destruct Hadded as [->| ->]; constructor|].
        split; [apply sameButNotified_refl|now left].
    + specialize (IH {| local := local st;
                        events := events st ++ [Reserve (productId (local st)) k false] |}).
      cbn in IH. destruct IH as (added & Hev & Hshape & Hsame & Hnot).
      exists (Reserve (productId (local st)) k false :: added).
      split; [now rewrite Hev, <- app_assoc|].
      split; [now constructor|].
      split; [exact Hsame|].
      destruct Hnot as [Hnot|(k' & Hin & Hnot)]; [now left|].
      right. exists k'. split; [now right|exact Hnot].
Qed.

(** With a sink that does not throw the loop returns. *)
Lemma restockLoop_returns (entries : list (SizeId * SizeInfo)) (added : bool)
    (st : St Product) :
  sinkOk webhook_error cfg = true ->
  exists st',
    restockLoop webhook_error cfg cart info productUrl entries added st
      = (Returned tt, st') /\
    sameButNotified (local st) (local st').
Proof.
  intros sink. revert added st.
  induction entries as [|[k i] rest IH]; intros added st; cbn.
  - exists st. split; [reflexivity|apply sameButNotified_refl].
  - destruct added; cbn; [apply IH|].
    unfold bind, get_local, addToCart; cbn.
    destruct (success (cart (events st) (productId (local st)) k)); cbn.
    + rewrite sendDiscordNotification_ok by assumption. cbn.
      match goal with |- context [restockLoop _ _ _ _ _ rest true ?s] =>
        destruct (IH true s) as (st' & -> & Hs) end.
      exists st'. split; [reflexivity|].
      eapply sameButNotified_trans; [|exact Hs]. apply sameButNotified_with.
    + match goal with |- context [restockLoop _ _ _ _ _ rest false ?s] =>
        destruct (IH false s) as (st' & -> & Hs) end.
      exists st'. split; [reflexivity|exact Hs].
Qed.

End RestockLoop.

(** *** What the shape says about the calls *)

Section ShapeFacts.
Variable pid : ProductId.

Lemma shape_one_success ks tr :
  restockShape pid ks tr -> count is_reserve_ok tr <= 1.
Proof. induction 1; cbn; auto. Qed.

Lemma shape_notify_after_success ks tr :
  restockShape pid ks tr -> count is_notify tr <= count is_reserve_ok tr.
Proof. induction 1; cbn; auto. Qed.

(** The calls go through the sizes in order, without a gap. *)
Lemma shape_prefix ks tr :
  restockShape pid ks tr ->
  map reservedSize (filter is_reserve tr) = firstn (count is_reserve tr) ks.
Proof.
  induction 1; cbn; auto.
  - unfold count in *. cbn. now f_equal.
Qed.

(** Every call before the last one failed. *)
Lemma shape_stops_at_success ks tr :
  restockShape pid ks tr ->
  Forall (fun e => is_reserve_ok e = false) (removelast (filter is_reserve tr)).
Proof.
  induction 1; cbn; auto.
  destruct (filter is_reserve tr) eqn:E; [constructor|].
  constructor; [reflexivity|exact IHrestockShape].
Qed.

Lemma shape_calls_le ks tr :
  restockShape pid ks tr -> count is_reserve tr <= length ks.
Proof. induction 1; unfold count in *; cbn in *; lia. Qed.

End ShapeFacts.

(** *** The calls of the loop, from the answers of the basket endpoint *)

Lemma count_ok_calls tr : count is_reserve_ok (filter is_reserve tr)
                          = count is_reserve_ok tr.
Proof.
  unfold count. induction tr as [|e r IH]; [reflexivity|].
  destruct e as [pid k [|]| |]; cbn; now rewrite ?IH.
Qed.

Lemma restockCalls_sizes cart pid tr ks :
  map reservedSize (restockCalls cart pid tr ks)
    = firstn (length (restockCalls cart pid tr ks)) ks.
Proof.
  revert tr. induction ks as [|k r IH]; intros tr; [reflexivity|].
  cbn. f_equal. destruct (success (cart tr pid k)); [reflexivity|apply IH].
Qed.

(** Without a call that succeeds every size is tried. *)
Lemma restockCalls_exhaustive cart pid tr ks :
  count is_reserve_ok (restockCalls cart pid tr ks) = 0 ->
  length (restockCalls cart pid tr ks) = length ks.
Proof.
  revert tr. induction ks as [|k r IH]; intros tr; [reflexivity|].
  cbn. destruct (success (cart tr pid k)); unfold count in *; cbn;
    [discriminate|].
  intros H. f_equal. now apply IH.
Qed.

Lemma restockCalls_reserve cart pid tr ks :
  filter is_reserve (restockCalls cart pid tr ks) = restockCalls cart pid tr ks.
Proof.
  revert tr. induction ks as [|k r IH]; intros tr; [reflexivity|].
  cbn. f_equal. destruct (success (cart tr pid k)); [reflexivity|apply IH].
Qed.

Section RestockTrace.
Variable webhook_error : string -> option string.
Variables (cfg : Config) (cart : CartOracle) (info : ProductInfo)
          (productUrl : string).

(** The loop calls the basket as [restockCalls] tells, whatever the sink
    does; [notified] is unchanged when no call succeeds and, with a sink
    that does not throw, has the reserved size added; with a webhook that
    parses every call that succeeds is followed by its alert. *)
Lemma restockLoop_trace (entries : list (SizeId * SizeInfo)) (st : St Product) :
  let r := restockLoop webhook_error cfg cart info productUrl entries false st in
  let calls := restockCalls cart (productId (local st)) (events st)
                 (map fst entries) in
  filter is_reserve (events (snd r)) = filter is_reserve (events st) ++ calls /\
  (count is_reserve_ok calls = 0 ->
     notified (local (snd r)) = notified (local st)) /\
  (sinkOk webhook_error cfg = true ->
     forall k, In (Reserve (productId (local st)) k true) calls ->
               notified (local (snd r)) = JsSet.add k (notified (local st))) /\
  (truthy (discordWebhook cfg) = true ->
   webhook_error (discordWebhook cfg) = None ->
     count is_notify (events (snd r))
       = count is_notify (events st) + count is_reserve_ok calls).
Proof.
  cbv zeta. revert st.
  induction entries as [|[k i] rest IH]; intros st.
  - cbn. rewrite app_nil_r, Nat.add_0_r. repeat split; auto.
    intros _ k [].
  - cbn [restockLoop negb map fst restockCalls].
    unfold bind, get_local, addToCart. cbn [fst snd local events].
    destruct (success (cart (events st) (productId (local st)) k)) eqn:Hok.
    + unfold sinkOk, sendDiscordNotification, modify, emit, throw, ret.
      destruct (truthy (discordWebhook cfg)) eqn:Hw;
        [destruct (webhook_error (discordWebhook cfg)) as [message|] eqn:He|];
        cbn [negb orb fst snd local events];
        rewrite ?restockLoop_added;
        cbn [fst snd local events with_notified notified productId];
        rewrite ?filter_app, ?count_app; unfold count;
        cbn [filter is_reserve is_notify is_reserve_ok length app];
        rewrite ?app_nil_r;
        (split; [reflexivity|]);
        (split; [discriminate|]);
        (split; [|intros; try discriminate; lia]);
        intros Hs; try discriminate;
        intros k' [Hk|[]]; now inversion Hk.
    + specialize (IH {| local := local st;
                        events := events st
                                    ++ [Reserve (productId (local st)) k false] |}).
      cbn [local events] in IH. destruct IH as (H1 & H2 & H3 & H4).
      split; [|split; [|split]].
      * rewrite H1, filter_app. cbn. now rewrite <- app_assoc.
      * intros H. apply H2. exact H.
      * intros Hs k' [Hk|Hk]; [discriminate|]. now apply H3.
      * intros Hw He. rewrite (H4 Hw He), count_app. unfold count. cbn. lia.
Qed.

End RestockTrace.

(** ** One product of a sweep *)

Lemma sameButNotified_entry p p' :
  sameButNotified p p' -> sameEntry p p' /\ hadSizes p' = hadSizes p.
Proof. unfold sameButNotified, sameEntry. intros ->. cbn. auto. Qed.

Section MonitorProduct.
Variable webhook_error : string -> option string.
Variables (cfg : Config) (fetch : ProductId -> FetchResult) (cart : CartOracle).

Lemma monitorProduct_rejected (st : St Product) message :
  fetch (productId (local st)) = Rejected message ->
  monitorProduct webhook_error cfg fetch cart st = (Thrown message, st).
Proof.
  intros E. unfold monitorProduct, bind, get_local, fetchProductDetails.
  cbn. now rewrite E.
Qed.

Lemma monitorProduct_resolved (st : St Product) data :
  fetch (productId (local st)) = Resolved data ->
  monitorProduct webhook_error cfg fetch cart st =
    afterFetch webhook_error cfg cart (productId (local st))
      (parseProduct (productId (local st)) data) st.
Proof.
  intros E. unfold monitorProduct, afterFetch, fetchProductDetails.
  unfold bind at 1, get_local at 1. rewrite E.
  unfold bind at 1, ret at 1.
  now destruct (parseProduct (productId (local st)) data) as [[info sm] si].
Qed.

Hypothesis sink : sinkOk webhook_error cfg = true.

Lemma watchAllBranch_returns info sm productUrl hasSizes (st : St Product) :
  exists st',
    watchAllBranch webhook_error cfg cart info sm productUrl hasSizes st
      = (Returned tt, st') /\
    sameEntry (local st) (local st') /\
    hadSizes (local st') =
      (if watchAll (local st) then hasSizes else hadSizes (local st)) /\
    (hadSizes (local st) = hasSizes -> st' = st).
Proof.
  unfold watchAllBranch, restockDetected, bind, get_local, modify, ret; cbn.
  destruct (watchAll (local st)) eqn:Hall; cbn.
  2:{ exists st. unfold sameEntry. intuition. }
  destruct (hadSizes (local st)) eqn:Hhad, hasSizes; cbn.
  - exists st. unfold sameEntry. intuition.
  - eexists. split; [reflexivity|]. cbn. unfold sameEntry. cbn.
    intuition discriminate.
  - destruct (@restockLoop_returns webhook_error cfg cart info productUrl
                (JsObj.entries sm) false st sink) as (st' & -> & Hs).
    apply sameButNotified_entry in Hs. destruct Hs as [Hs Hh].
    cbn. eexists. split; [reflexivity|]. cbn.
    unfold sameEntry in *. cbn. intuition discriminate.
  - exists st. unfold sameEntry. intuition.
Qed.

(** A product whose fetch succeeds is processed to the end of the
    [try] block. *)
Lemma monitorProduct_returns (st : St Product) data :
  fetch (productId (local st)) = Resolved data ->
  let '(info, sm, stockInfo) := parseProduct (productId (local st)) data in
  exists st',
    monitorProduct webhook_error cfg fetch cart st = (Returned tt, st') /\
    productId (local st') = productId (local st) /\
    watchedSizes (local st') = watchedSizes (local st) /\
    watchAll (local st') = watchAll (local st) /\
    previousStock (local st') = stockInfo /\
    productInfo (local st') = info /\
    sizeMapping (local st') = sm /\
    hadSizes (local st') =
      (if watchAll (local st) then hasSizesOf sm else hadSizes (local st)) /\
    (forall x, In x (watchedSizes (local st)) ->
       JsSet.has (notified (local st')) x = true ->
       inStockOf (JsObj.get stockInfo x) = true).
Proof.
  intros E. rewrite (monitorProduct_resolved st E).
  destruct (parseProduct (productId (local st)) data)
    as [[info sm] stockInfo] eqn:Hparse.
  unfold afterFetch, bind at 1.
  destruct (watchAllBranch_returns info sm
              (productUrlOf (productId (local st))) (hasSizesOf sm) st)
    as (st1 & -> & (Hid & Hw & Hall & Hprev) & Hhad & _).
  unfold bind at 1, get_local at 1.
  destruct (@watchedLoop_returns webhook_error cfg cart info sm stockInfo
              (productUrlOf (productId (local st))) sink
              (JsSet.elements (watchedSizes (local st1))) st1)
    as (st2 & E2 & Hs & _ & Hin).
  unfold bind at 1. unfold SizeId in *. rewrite E2.
  apply sameButNotified_entry in Hs.
  destruct Hs as [(Hid2 & Hw2 & Hall2 & Hprev2) Hhad2].
  eexists. split; [reflexivity|]. cbn.
  repeat split; try congruence.
  intros x Hx. apply Hin. unfold JsSet.elements. now rewrite Hw.
Qed.

(** An entry that agrees with [fetch] is processed without a call. *)
Lemma monitorProduct_quiet (st : St Product) :
  settled fetch (local st) ->
  events (snd (monitorProduct webhook_error cfg fetch cart st)) = events st.
Proof.
  unfold settled. destruct (fetch (productId (local st))) as [data|message] eqn:E.
  - rewrite (monitorProduct_resolved st E).
    destruct (parseProduct (productId (local st)) data)
      as [[info sm] stockInfo] eqn:Hparse. cbn [fst snd].
    intros [Hprev Hhad].
    unfold afterFetch, bind at 1.
    assert (Hsame :
      watchAllBranch webhook_error cfg cart info sm
        (productUrlOf (productId (local st))) (hasSizesOf sm) st
      = (Returned tt, st)).
    { destruct (watchAll (local st)) eqn:Hall.
      - destruct (watchAllBranch_returns info sm
                    (productUrlOf (productId (local st))) (hasSizesOf sm) st)
          as (st1 & E1 & _ & _ & Hst). now rewrite E1, Hst by auto.
      - unfold watchAllBranch, bind, get_local, ret. now rewrite Hall. }
    rewrite Hsame. unfold bind at 1, get_local at 1.
    destruct (@watchedLoop_settled webhook_error cfg cart info sm stockInfo
                (productUrlOf (productId (local st))) sink
                (JsSet.elements (watchedSizes (local st))) st Hprev)
      as (st2 & E2 & Hev).
    unfold bind at 1. unfold SizeId in *. rewrite E2. cbn. exact Hev.
  - intros _. now rewrite (monitorProduct_rejected st E).
Qed.

(** After its turn in a sweep an entry agrees with [fetch]. *)
Lemma monitorProduct_settles (st : St Product) :
  settled fetch (local (snd (monitorProduct webhook_error cfg fetch cart st))).
Proof.
  destruct (fetch (productId (local st))) as [data|message] eqn:E.
  - pose proof (monitorProduct_returns st E) as H.
    destruct (parseProduct (productId (local st)) data)
      as [[info sm] stockInfo] eqn:Hparse.
    destruct H as (st' & -> & Hid & _ & Hall & Hprev & _ & _ & Hhad & _).
    cbn [snd]. unfold settled. rewrite Hid, E, Hparse. cbn [fst snd].
    split; [exact Hprev|]. intros Hw. rewrite Hhad.
    rewrite Hall in Hw. now rewrite Hw.
  - rewrite (monitorProduct_rejected st E). cbn [snd]. unfold settled.
    now rewrite E.
Qed.

(** After its turn in a sweep an entry is re-armed. *)
Lemma monitorProduct_rearms (st : St Product) :
  rearmed fetch (local (snd (monitorProduct webhook_error cfg fetch cart st))).
Proof.
  destruct (fetch (productId (local st))) as [data|message] eqn:E.
  - pose proof (monitorProduct_returns st E) as H.
    destruct (parseProduct (productId (local st)) data)
      as [[info sm] stockInfo] eqn:Hparse.
    destruct H as (st' & -> & Hid & Hw & _ & Hprev & _ & _ & _ & Hin).
    cbn [snd]. unfold rearmed. rewrite Hid, E, Hparse. cbn [fst snd].
    split; [exact Hprev|]. intros x Hx. rewrite Hprev. apply Hin.
    now rewrite <- Hw.
  - rewrite (monitorProduct_rejected st E). cbn [snd]. unfold rearmed.
    now rewrite E.
Qed.

End MonitorProduct.

(** ** The sweep *)

Section Sweep.
Variable webhook_error : string -> option string.
Variables (cfg : Config) (fetch : ProductId -> FetchResult).

(** The [catch] block calls neither the basket nor the stock alert. *)
Lemma catchClause_calls message (st : St bool) f :
  (forall m, f (TokenAlert m) = false) ->
  count f (events (snd (catchClause webhook_error cfg message st)))
    = count f (events st).
Proof.
  intros Hf. unfold catchClause, sendTokenExpiredNotification, bind,
    get_local, modify, ret, throw, emit.
  destruct (authSignalSweep message); [|reflexivity].
  cbn. destruct (local st || negb (truthy (discordWebhook cfg))); [reflexivity|].
  cbn. destruct (webhook_error (discordWebhook cfg)); cbn; [reflexivity|].
  unfold count. rewrite filter_app, length_app. cbn. rewrite Hf. cbn. lia.
Qed.

Hypothesis sink : sinkOk webhook_error cfg = true.

(** With a sink that does not throw, neither does the [catch] block. *)
Lemma catchClause_returns message (st : St bool) :
  exists st', catchClause webhook_error cfg message st = (Returned tt, st').
Proof.
  unfold catchClause, sendTokenExpiredNotification, bind, get_local, modify,
    ret, throw, emit.
  destruct (authSignalSweep message); [|eauto].
  cbn. unfold sinkOk in sink.
  destruct (local st); cbn; [eauto|].
  destruct (truthy (discordWebhook cfg)); cbn in *; [|eauto].
  destruct (webhook_error (discordWebhook cfg)); [discriminate|eauto].
Qed.

(** Such a sweep goes through all the entries; what the [try] block
    establishes of an entry, whatever it starts from, holds of each of them
    afterwards. *)
Lemma sweepEntries_all (Q : Product -> Prop) cart
    (entries : list (string * Product)) :
  (forall st, Q (local (snd (monitorProduct webhook_error cfg fetch cart st)))) ->
  forall st : St bool,
  exists entries' st',
    sweepEntries webhook_error cfg fetch cart entries st
      = (Returned tt, entries', st') /\
    Forall (fun kp => Q (snd kp)) entries'.
Proof.
  intros HQ.
  induction entries as [|[key product] rest IH]; intros st; cbn.
  - exists [], st. split; [reflexivity|constructor].
  - pose proof (HQ {| local := product; events := events st |}) as Hset.
    destruct (monitorProduct webhook_error cfg fetch cart
                {| local := product; events := events st |})
      as [tried pst]. cbn in Hset.
    assert (Hcaught : exists st2,
      match tried with
      | Returned _ => (Returned tt, {| local := local st; events := events pst |})
      | Thrown message =>
          catchClause webhook_error cfg message
            {| local := local st; events := events pst |}
      end = (Returned tt, st2)).
    { destruct tried; [eauto|apply catchClause_returns]. }
    destruct Hcaught as [st2 ->].
    destruct (IH st2) as (rest' & st3 & -> & Hrest).
    exists ((key, local pst) :: rest'), st3.
    split; [reflexivity|]. constructor; assumption.
Qed.

Lemma sweepEntries_settles cart (entries : list (string * Product)) :
  forall st : St bool,
  exists entries' st',
    sweepEntries webhook_error cfg fetch cart entries st
      = (Returned tt, entries', st') /\
    Forall (fun kp => settled fetch (snd kp)) entries'.
Proof.
  apply sweepEntries_all.
  apply (@monitorProduct_settles webhook_error cfg fetch cart sink).
Qed.

Lemma sweepEntries_rearms cart (entries : list (string * Product)) :
  forall st : St bool,
  exists entries' st',
    sweepEntries webhook_error cfg fetch cart entries st
      = (Returned tt, entries', st') /\
    Forall (fun kp => rearmed fetch (snd kp)) entries'.
Proof.
  apply sweepEntries_all.
  apply (@monitorProduct_rearms webhook_error cfg fetch cart sink).
Qed.

(** A sweep over entries that agree with [fetch] calls neither the
    basket nor the stock alert. *)
Lemma sweepEntries_quiet cart (entries : list (string * Product)) f :
  (forall m, f (TokenAlert m) = false) ->
  Forall (fun kp => settled fetch (snd kp)) entries ->
  forall st : St bool,
    count f (events (snd (sweepEntries webhook_error cfg fetch cart entries st)))
      = count f (events st).
Proof.
  intros Hf. induction 1 as [|[key product] rest Hp Hrest IH]; intros st; cbn.
  - reflexivity.
  - pose proof (@monitorProduct_quiet webhook_error cfg fetch cart sink
                  {| local := product; events := events st |} Hp) as Hq.
    destruct (monitorProduct webhook_error cfg fetch cart
                {| local := product; events := events st |})
      as [tried pst]. cbn in Hq.
    assert (Hcaught : exists st2,
      match tried with
      | Returned _ => (Returned tt, {| local := local st; events := events pst |})
      | Thrown message =>
          catchClause webhook_error cfg message
            {| local := local st; events := events pst |}
      end = (Returned tt, st2) /\ count f (events st2) = count f (events st)).
    { destruct tried as [[]|message].
      - eexists. split; [reflexivity|]. cbn. now rewrite Hq.
      - destruct (catchClause_returns message
                    {| local := local st; events := events pst |}) as [st2 E].
        exists st2. split; [exact E|].
        pose proof (catchClause_calls message
                      {| local := local st; events := events pst |} f Hf) as Hc.
        rewrite E in Hc. cbn in Hc. now rewrite Hc, Hq. }
    destruct Hcaught as (st2 & -> & Hc).
    specialize (IH st2).
    destruct (sweepEntries webhook_error cfg fetch cart rest st2)
      as [[o rest'] st3]. cbn in *. now rewrite IH.
Qed.

End Sweep.

Section SweepTwice.
Variable webhook_error : string -> option string.
Variables (s : Sys) (fetch : ProductId -> FetchResult).
Hypothesis sink : sinkOk webhook_error (CONFIG s) = true.

Lemma monitorAllProducts_settles cart :
  let r := monitorAllProducts webhook_error s fetch cart in
  CONFIG (state r) = CONFIG s /\
  Forall (fun kp => settled fetch (snd kp)) (monitoredProducts (state r)).
Proof.
  unfold monitorAllProducts.
  destruct (JsMap.size (monitoredProducts s) =? 0)%nat eqn:Hsize; cbn.
  - split; [reflexivity|].
    apply Nat.eqb_eq in Hsize. unfold JsMap.size in Hsize.
    destruct (monitoredProducts s); [constructor|discriminate].
  - destruct (@sweepEntries_settles webhook_error (CONFIG s) fetch sink cart
                (monitoredProducts s)
                {| local := tokenExpiredNotified s; events := [] |})
      as (entries' & st' & -> & Hset).
    cbn. auto.
Qed.

Lemma monitorAllProducts_quiet cart f :
  (forall m, f (TokenAlert m) = false) ->
  Forall (fun kp => settled fetch (snd kp)) (monitoredProducts s) ->
  count f (log (monitorAllProducts webhook_error s fetch cart)) = 0.
Proof.
  intros Hf Hset. unfold monitorAllProducts.
  destruct (JsMap.size (monitoredProducts s) =? 0)%nat; [reflexivity|].
  pose proof (@sweepEntries_quiet webhook_error (CONFIG s) fetch sink cart
                (monitoredProducts s) f Hf Hset
                {| local := tokenExpiredNotified s; events := [] |}) as Hq.
  destruct (sweepEntries webhook_error (CONFIG s) fetch cart
              (monitoredProducts s)
              {| local := tokenExpiredNotified s; events := [] |})
    as [[o es] st2].
  exact Hq.
Qed.

End SweepTwice.

(** With a sink that does not throw, a sweep that follows a sweep with the
    same answers of the product endpoint calls neither the basket nor the
    stock alert, whatever the basket would answer. *)
Lemma sweep_idempotent_when_sink_ok (webhook_error : string -> option string)
    (s : Sys) (fetch : ProductId -> FetchResult) (cart1 cart2 : CartOracle) :
  sinkOk webhook_error (CONFIG s) = true ->
  let first := monitorAllProducts webhook_error s fetch cart1 in
  let second := monitorAllProducts webhook_error (state first) fetch cart2 in
  count is_reserve (log second) = 0 /\ count is_notify (log second) = 0.
Proof.
  intros sink first second.
  destruct (@monitorAllProducts_settles webhook_error s fetch sink cart1)
    as [Hcfg Hset].
  fold first in Hcfg, Hset.
  assert (sink' : sinkOk webhook_error (CONFIG (state first)) = true)
    by now rewrite Hcfg.
  split; apply (@monitorAllProducts_quiet webhook_error (state first) fetch
                  sink' cart2); auto.
Qed.

(** The lemma at a concrete registry: size 38 appears, the first sweep
    reserves it and sends the alert, the second calls nothing. *)
Example sweep_idempotent_example :
  let s0 := fst (step Sample.url (initial (Sample.config Sample.hook))
                   (Add (Sample.watchSizes "1" ["38"]) (Sample.upstream [])
                      (Sample.basket true) "t0" "t0")) in
  let first := monitorAllProducts Sample.url s0
                 (Sample.upstream ["38"]) (Sample.basket true) in
  let second := monitorAllProducts Sample.url (state first)
                  (Sample.upstream ["38"]) (Sample.basket true) in
  count is_reserve (log first) = 1 /\ count is_notify (log first) = 1 /\
  count is_reserve (log second) = 0 /\ count is_notify (log second) = 0.
Proof.
  cbv zeta. split; [vm_compute; reflexivity|].
  split; [vm_compute; reflexivity|].
  apply (@sweep_idempotent_when_sink_ok Sample.url). reflexivity.
Qed.

(** ** A reservation that fails *)

Section FailedReservation.
Variable webhook_error : string -> option string.
Variables (cfg : Config) (cart : CartOracle) (info : ProductInfo)
          (sm : JsObj.t SizeInfo) (stockInfo : JsObj.t StockEntry)
          (productUrl : string) (x : SizeId).
Hypothesis sink : sinkOk webhook_error cfg = true.

Lemma notifyEvents_of_other y name qty :
  y <> x -> count (is_notify_of x) (notifyEvents cfg info y name qty productUrl) = 0.
Proof.
  intros Hne. unfold notifyEvents, count.
  destruct (truthy (discordWebhook cfg)); cbn; [|reflexivity].
  destruct (String.eqb_spec y x); [congruence|reflexivity].
Qed.

(** The size [x] shows the new-stock edge and the basket refuses it every
    time: the loop records the refused call, sends no alert for [x], and
    leaves [x] out of [notified]. *)
Lemma watchedLoop_failed (l : list SizeId) (st : St Product) :
  (forall tr, success (cart tr (productId (local st)) x) = false) ->
  newStockDetected (local st) stockInfo x = true ->
  exists st',
    for_of l (checkSize webhook_error cfg cart info sm stockInfo productUrl) st
      = (Returned tt, st') /\
    sameButNotified (local st) (local st') /\
    JsSet.has (notified (local st')) x = false /\
    count (is_notify_of x) (events st') = count (is_notify_of x) (events st) /\
    (In x l -> In (Reserve (productId (local st)) x false) (events st')).
Proof.
  intros Hfail Hfire.
  pose (I := fun s : St Product =>
               sameButNotified (local st) (local s) /\
               JsSet.has (notified (local s)) x = false /\
               count (is_notify_of x) (events s)
                 = count (is_notify_of x) (events st)).
  pose (P := fun (y : SizeId) (s : St Product) =>
               y = x -> In (Reserve (productId (local st)) x false) (events s)).
  destruct (@returns_for_of Product SizeId I P l
              (checkSize webhook_error cfg cart info sm stockInfo productUrl))
    with (st := st) as (st' & E & (HI1 & HI2 & HI3) & HP & _).
  - intros y s _ (Hs & Hx & Hn).
    destruct (@checkSize_returns webhook_error cfg cart info sm stockInfo
                productUrl sink y s) as (s' & E & Hf & Hev & Hy & Hother).
    pose proof (sameButNotified_entry Hs) as [(Hid & _ & _ & Hprev) _].
    exists s'. split; [exact E|].
    destruct (String.eqb_spec y x) as [->|Hne].
    + (* the iteration of [x] itself *)
      assert (Hfire' : newStockDetected (local s) stockInfo x = true).
      { unfold newStockDetected in *. rewrite Hprev, Hx.
        destruct (inStockOf (JsObj.get stockInfo x)),
                 (inStockOf (JsObj.get (previousStock (local st)) x));
          cbn in *; congruence. }
      unfold checkSizeEvents in Hev. rewrite Hfire', Hid, Hfail in Hev.
      unfold checkSizeNotified in Hy. rewrite Hx, Hfire', Hid, Hfail in Hy.
      split; [split; [eapply sameButNotified_trans; eassumption|split]|split].
      * rewrite Hy. now destruct (inStockOf (JsObj.get stockInfo x)).
      * rewrite Hev, count_app, Hn. unfold count at 2. cbn. lia.
      * intros _. rewrite Hev. apply in_or_app. right. now left.
      * intros z Hz Hzx. rewrite Hev. apply in_or_app. left. now apply Hz.
    + (* another size *)
      split; [split; [eapply sameButNotified_trans; eassumption|split]|split].
      * rewrite Hother by congruence. exact Hx.
      * rewrite Hev, count_app, Hn.
        unfold checkSizeEvents.
        destruct (newStockDetected (local s) stockInfo y); [|cbn; lia].
        destruct (success (cart (events s) (productId (local s)) y)).
        -- change (count (is_notify_of x) (?e :: ?r))
             with (count (is_notify_of x) r).
           rewrite notifyEvents_of_other by assumption. lia.
        -- cbn. lia.
      * intros Hyx. congruence.
      * intros z Hz Hzx. rewrite Hev. apply in_or_app. left. now apply Hz.
  - split; [apply sameButNotified_refl|]. split; [|reflexivity].
    unfold newStockDetected in Hfire.
    destruct (JsSet.has (notified (local st)) x); [|reflexivity].
    now rewrite andb_false_r in Hfire.
  - exists st'. repeat split; auto.
    intros Hin. now apply (HP x Hin).
Qed.

(** The stored snapshot has [x] in stock: whatever is observed now, the
    loop does not call the basket for [x]. *)
Lemma watchedLoop_no_retry (l : list SizeId) (st : St Product) :
  inStockOf (JsObj.get (previousStock (local st)) x) = true ->
  exists st',
    for_of l (checkSize webhook_error cfg cart info sm stockInfo productUrl) st
      = (Returned tt, st') /\
    count (is_reserve_of x) (events st') = count (is_reserve_of x) (events st).
Proof.
  intros Hwas.
  pose (I := fun s : St Product =>
               previousStock (local s) = previousStock (local st) /\
               count (is_reserve_of x) (events s)
                 = count (is_reserve_of x) (events st)).
  destruct (@returns_for_of Product SizeId I (fun _ _ => True) l
              (checkSize webhook_error cfg cart info sm stockInfo productUrl))
    with (st := st) as (st' & E & (_ & HI) & _).
  - intros y s _ (Hprev & Hn).
    destruct (@checkSize_returns webhook_error cfg cart info sm stockInfo
                productUrl sink y s) as (s' & E & Hf & Hev & _).
    exists s'. split; [exact E|]. split; [split|auto].
    + rewrite Hf. exact Hprev.
    + rewrite Hev, count_app, Hn. unfold checkSizeEvents.
      destruct (newStockDetected (local s) stockInfo y) eqn:Hfire; [|cbn; lia].
      destruct (String.eqb_spec y x) as [->|Hne].
      * unfold newStockDetected in Hfire. rewrite Hprev, Hwas in Hfire.
        now rewrite andb_false_r in Hfire.
      * unfold count at 2. cbn.
        destruct (String.eqb_spec y x); [congruence|].
        destruct (success (cart (events s) (productId (local s)) y)); cbn;
          [|lia].
        unfold notifyEvents. destruct (truthy (discordWebhook cfg)); cbn; lia.
  - split; reflexivity.
  - exists st'. auto.
Qed.

End FailedReservation.

(** ** The [try] block of an entry in watched-sizes mode *)

Section WatchSizesEntry.
Variable webhook_error : string -> option string.
Variables (cfg : Config) (fetch : ProductId -> FetchResult) (cart : CartOracle).

Lemma monitorProduct_watchSizes (st st' : St Product) data :
  watchAll (local st) = false ->
  fetch (productId (local st)) = Resolved data ->
  let '(info, sm, stockInfo) := parseProduct (productId (local st)) data in
  for_of (JsSet.elements (watchedSizes (local st)))
    (checkSize webhook_error cfg cart info sm stockInfo
       (productUrlOf (productId (local st)))) st = (Returned tt, st') ->
  monitorProduct webhook_error cfg fetch cart st =
    (Returned tt,
     {| local := with_snapshot stockInfo info sm (local st');
        events := events st' |}).
Proof.
  intros Hall E.
  rewrite (@monitorProduct_resolved webhook_error cfg fetch cart st data E).
  destruct (parseProduct (productId (local st)) data) as [[info sm] stockInfo].
  intros Hloop. unfold afterFetch, watchAllBranch.
  unfold bind, get_local, ret, modify. rewrite Hall.
  unfold SizeId in *. now rewrite Hloop.
Qed.

End WatchSizesEntry.

(** ** Claims about the transition engine *)

(** C1, as the code has it.  An entry in watched-sizes mode shows the
    new-stock edge for a watched size [x] and the basket refuses [x]; the
    sink does not throw.  Then the sweep records the refused call, sends
    no alert for [x] and leaves [x] out of [notified]; it stores the
    observed snapshot, so that afterwards the edge condition is false for
    [x] whatever is observed, and the next sweep does not call the basket
    for [x] again. *)
Theorem failed_reservation_is_not_retried
    (webhook_error : string -> option string) (cfg : Config)
    (fetch fetch2 : ProductId -> FetchResult) (cart cart2 : CartOracle)
    (p : Product) (x : SizeId) (data : Payload) :
  sinkOk webhook_error cfg = true ->
  watchAll p = false ->
  In x (watchedSizes p) ->
  fetch (productId p) = Resolved data ->
  newStockDetected p (snd (parseProduct (productId p) data)) x = true ->
  (forall tr, success (cart tr (productId p) x) = false) ->
  let st1 := snd (monitorProduct webhook_error cfg fetch cart
                    {| local := p; events := [] |}) in
  let st2 := snd (monitorProduct webhook_error cfg fetch2 cart2
                    {| local := local st1; events := [] |}) in
  In (Reserve (productId p) x false) (events st1) /\
  count (is_notify_of x) (events st1) = 0 /\
  JsSet.has (notified (local st1)) x = false /\
  previousStock (local st1) = snd (parseProduct (productId p) data) /\
  (forall stock2, newStockDetected (local st1) stock2 x = false) /\
  count (is_reserve_of x) (events st2) = 0.
Proof.
  intros sink Hall Hin E Hfire Hfail.
  (* the first sweep *)
  pose proof (@monitorProduct_watchSizes webhook_error cfg fetch cart
                {| local := p; events := [] |}) as Hrun.
  specialize (fun st' => Hrun st' data Hall E). cbn [local] in Hrun.
  destruct (parseProduct (productId p) data) as [[info sm] stockInfo] eqn:Hparse.
  cbn [snd] in *.
  destruct (@watchedLoop_failed webhook_error cfg cart info sm stockInfo
              (productUrlOf (productId p)) x sink
              (JsSet.elements (watchedSizes p))
              {| local := p; events := [] |} Hfail Hfire)
    as (st' & E' & Hs & Hnot & Hcount & Hres).
  rewrite (Hrun st' E'). cbn [snd local events].
  apply sameButNotified_entry in Hs.
  destruct Hs as [(Hid & Hw & Hall' & _) _]. cbn [local events] in *.
  assert (Hwas : inStockOf (JsObj.get stockInfo x) = true).
  { unfold newStockDetected in Hfire.
    destruct (inStockOf (JsObj.get stockInfo x)); [reflexivity|discriminate]. }
  split; [now apply Hres|].
  split; [exact Hcount|].
  split; [exact Hnot|].
  split; [reflexivity|].
  split.
  - intros stock2. unfold newStockDetected. cbn [previousStock with_snapshot].
    rewrite Hwas. now rewrite andb_false_r.
  - (* the second sweep *)
    set (p1 := with_snapshot stockInfo info sm (local st')).
    assert (Hall1 : watchAll p1 = false) by (cbn; congruence).
    destruct (fetch2 (productId p1)) as [data2|message] eqn:E2.
    + pose proof (@monitorProduct_watchSizes webhook_error cfg fetch2 cart2
                    {| local := p1; events := [] |}) as Hrun2.
      specialize (fun st2 => Hrun2 st2 data2 Hall1 E2). cbn [local] in Hrun2.
      destruct (parseProduct (productId p1) data2) as [[info2 sm2] stock2].
      destruct (@watchedLoop_no_retry webhook_error cfg cart2 info2 sm2 stock2
                  (productUrlOf (productId p1)) x sink
                  (JsSet.elements (watchedSizes p1))
                  {| local := p1; events := [] |} Hwas)
        as (st2 & E2' & Hc).
      rewrite (Hrun2 st2 E2'). exact Hc.
    + rewrite (@monitorProduct_rejected webhook_error cfg fetch2 cart2
                 {| local := p1; events := [] |} message E2).
      reflexivity.
Qed.

(** The theorem at a concrete entry: size 38 appears, the basket refuses. *)
Lemma failed_reservation_is_not_retried_witness :
  let st1 := snd (monitorProduct Sample.url (Sample.config Sample.hook)
                    (Sample.upstream ["38"]) (Sample.basket false)
                    {| local := Sample.entry38; events := [] |}) in
  In (Reserve "1" "38" false) (events st1) /\
  count (is_reserve_of "38")
    (events (snd (monitorProduct Sample.url (Sample.config Sample.hook)
                    (Sample.upstream ["38"]) (Sample.basket true)
                    {| local := local st1; events := [] |}))) = 0.
Proof.
  pose proof (@failed_reservation_is_not_retried Sample.url
                (Sample.config Sample.hook)
                (Sample.upstream ["38"]) (Sample.upstream ["38"])
                (Sample.basket false) (Sample.basket true)
                Sample.entry38 "38" (Sample.payload ["38"])
                eq_refl eq_refl (or_introl eq_refl) eq_refl eq_refl
                (fun _ => eq_refl)) as H.
  cbv zeta in H. destruct H as (H1 & _ & _ & _ & _ & H6).
  split; [exact H1|exact H6].
Defined.

(** C1, as the specification has it, fails: after a refused reservation
    the edge condition does not hold again on the next sweep, although the
    size is still in stock and not in [notified]; the second sweep calls
    nothing, even with a basket that would accept. *)
Lemma failed_reservation_counterexample :
  let wanted := Sample.watchSizes "1" ["38"] in
  let s0 := fst (step Sample.url (initial (Sample.config Sample.hook))
                   (Add wanted (Sample.upstream []) (Sample.basket true)
                      "t0" "t0")) in
  let first := monitorAllProducts Sample.url s0
                 (Sample.upstream ["38"]) (Sample.basket false) in
  let second := monitorAllProducts Sample.url (state first)
                  (Sample.upstream ["38"]) (Sample.basket true) in
  let stock38 := snd (parseProduct "1" (Sample.payload ["38"])) in
  (exists p, JsMap.get (monitoredProducts s0) "1" = Some p /\
             newStockDetected p stock38 "38" = true) /\
  log first = [Reserve "1" "38" false] /\
  (exists p, JsMap.get (monitoredProducts (state first)) "1" = Some p /\
             JsSet.has (notified p) "38" = false /\
             inStockOf (JsObj.get stock38 "38") = true /\
             newStockDetected p stock38 "38" = false) /\
  log second = [].
Proof.
  cbv zeta. split; [|split; [|split]].
  - eexists. split; [vm_compute; reflexivity|vm_compute; reflexivity].
  - vm_compute. reflexivity.
  - eexists. split; [vm_compute; reflexivity|].
    split; [|split]; vm_compute; reflexivity.
  - vm_compute. reflexivity.
Qed.

(** The [try] block of an entry in [watchAll] mode without watched sizes,
    on the restock edge: it is the restock loop, whatever the sink does. *)
Lemma monitorProduct_restock (webhook_error : string -> option string)
    (cfg : Config) (fetch : ProductId -> FetchResult) (cart : CartOracle)
    (st : St Product) (data : Payload) :
  watchAll (local st) = true ->
  watchedSizes (local st) = [] ->
  fetch (productId (local st)) = Resolved data ->
  let '(info, sm, stockInfo) := parseProduct (productId (local st)) data in
  restockDetected (local st) (hasSizesOf sm) = true ->
  let loop := restockLoop webhook_error cfg cart info
                (productUrlOf (productId (local st))) (JsObj.entries sm)
                false st in
  let r := monitorProduct webhook_error cfg fetch cart st in
  events (snd r) = events (snd loop) /\
  notified (local (snd r)) = notified (local (snd loop)).
Proof.
  intros Hall Hw E.
  rewrite (@monitorProduct_resolved webhook_error cfg fetch cart st data E).
  destruct (parseProduct (productId (local st)) data) as [[info sm] stockInfo].
  intros Hedge. cbv zeta.
  pose proof (@restockLoop_shape webhook_error cfg cart info
                (productUrlOf (productId (local st))) (JsObj.entries sm) st)
    as Hshape.
  cbv zeta in Hshape. destruct Hshape as (_ & _ & _ & Hsame & _).
  assert (Hhad : hadSizes (local st) = false).
  { unfold restockDetected in Hedge.
    destruct (hadSizes (local st)); [discriminate|reflexivity]. }
  assert (Hrun :
    afterFetch webhook_error cfg cart (productId (local st))
      (info, sm, stockInfo) st =
    match restockLoop webhook_error cfg cart info
            (productUrlOf (productId (local st))) (JsObj.entries sm)
            false st with
    | (Returned _, st1) =>
        (Returned tt,
         {| local := with_snapshot stockInfo info sm
                       (with_hadSizes true (local st1));
            events := events st1 |})
    | (Thrown message, st1) => (Thrown message, st1)
    end).
  { unfold afterFetch, watchAllBranch, bind, get_local, modify, ret.
    rewrite Hall, Hedge, Hhad. cbn [andb].
    destruct (restockLoop webhook_error cfg cart info
                (productUrlOf (productId (local st))) (JsObj.entries sm)
                false st) as [[[]|message] st1]; cbn [snd] in *;
      [|reflexivity].
    apply sameButNotified_entry in Hsame.
    destruct Hsame as [(_ & Hw1 & _ & _) _].
    cbn [local events with_hadSizes watchedSizes].
    rewrite Hw1, Hw. reflexivity. }
  rewrite Hrun.
  destruct (restockLoop webhook_error cfg cart info
              (productUrlOf (productId (local st))) (JsObj.entries sm)
              false st) as [[[]|message] st1]; cbn; auto.
Qed.

(** C2, as the code has it.  On the restock edge of an entry in [watchAll]
    mode without watched sizes, the sweep calls the basket for the sizes
    in the order of [Object.keys(sizeMapping)], one call per size and
    without a gap, from the first size up to and including the first call
    that succeeds: there is a call, the calls are exactly [restockCalls],
    every call but the last one failed, and when no call succeeds every
    size has been tried.  At most one call succeeds and at most one alert
    is sent, only after a call that succeeded, and for every such call when
    the webhook is set and parses.  [notified] is unchanged when no call
    succeeded and, with a sink that does not throw, has the reserved size
    added. *)
Theorem restock_edge_reserves_until_first_success
    (webhook_error : string -> option string) (cfg : Config)
    (fetch : ProductId -> FetchResult) (cart : CartOracle)
    (p : Product) (data : Payload) :
  watchAll p = true ->
  watchedSizes p = [] ->
  fetch (productId p) = Resolved data ->
  let sm := snd (fst (parseProduct (productId p) data)) in
  restockDetected p (hasSizesOf sm) = true ->
  let st1 := snd (monitorProduct webhook_error cfg fetch cart
                    {| local := p; events := [] |}) in
  let calls := filter is_reserve (events st1) in
  calls = restockCalls cart (productId p) [] (JsObj.keys sm) /\
  calls <> [] /\
  map reservedSize calls = firstn (length calls) (JsObj.keys sm) /\
  length calls <= length (JsObj.keys sm) /\
  Forall (fun e => is_reserve_ok e = false) (removelast calls) /\
  (count is_reserve_ok (events st1) = 0 ->
     length calls = length (JsObj.keys sm)) /\
  count is_reserve_ok (events st1) <= 1 /\
  count is_notify (events st1) <= count is_reserve_ok (events st1) /\
  (truthy (discordWebhook cfg) = true ->
   webhook_error (discordWebhook cfg) = None ->
     count is_notify (events st1) = count is_reserve_ok (events st1)) /\
  (count is_reserve_ok (events st1) = 0 ->
     notified (local st1) = notified p) /\
  (sinkOk webhook_error cfg = true ->
     forall k, In (Reserve (productId p) k true) (events st1) ->
               notified (local st1) = JsSet.add k (notified p)) /\
  (notified (local st1) = notified p \/
   exists k, In (Reserve (productId p) k true) (events st1) /\
             notified (local st1) = JsSet.add k (notified p)).
Proof.
  intros Hall Hw E sm Hedge st1 calls.
  pose proof (@monitorProduct_restock webhook_error cfg fetch cart
                {| local := p; events := [] |} data Hall Hw E) as H.
  cbn [local] in H. subst sm calls st1.
  destruct (parseProduct (productId p) data) as [[info sm] stockInfo].
  cbn [fst snd] in *. specialize (H Hedge). cbv zeta in H.
  destruct H as [Hev Hnot]. rewrite Hev, Hnot.
  pose proof (@restockLoop_shape webhook_error cfg cart info
                (productUrlOf (productId p)) (JsObj.entries sm)
                {| local := p; events := [] |}) as Hshape.
  pose proof (@restockLoop_trace webhook_error cfg cart info
                (productUrlOf (productId p)) (JsObj.entries sm)
                {| local := p; events := [] |}) as Htrace.
  cbv zeta in Hshape, Htrace. cbn [local events] in Hshape, Htrace.
  change (map fst (JsObj.entries sm)) with (JsObj.keys sm) in Hshape, Htrace.
  destruct Htrace as (Hcalls & Hnone & Hadd & Hnotify).
  cbn [filter app count length] in Hcalls, Hnotify.
  destruct Hshape as (added & Hadded & Hshape & _ & Hn).
  cbn [app] in Hadded.
  assert (Hok : count is_reserve_ok
                  (restockCalls cart (productId p) [] (JsObj.keys sm))
                = count is_reserve_ok
                    (events (snd (restockLoop webhook_error cfg cart info
                                    (productUrlOf (productId p))
                                    (JsObj.entries sm) false
                                    {| local := p; events := [] |})))).
  { now rewrite <- Hcalls, count_ok_calls. }
  rewrite Hok in Hnone, Hnotify.
  split; [exact Hcalls|].
  split.
  { rewrite Hcalls. unfold restockDetected, hasSizesOf in Hedge.
    apply andb_prop in Hedge. destruct Hedge as [_ Hedge].
    destruct (JsObj.keys sm); [discriminate|]. cbn. discriminate. }
  split; [rewrite Hcalls; apply restockCalls_sizes|].
  split; [rewrite Hadded; exact (shape_calls_le Hshape)|].
  split; [rewrite Hadded; exact (shape_stops_at_success Hshape)|].
  split.
  { intros Hz. rewrite Hcalls. apply restockCalls_exhaustive.
    now rewrite Hok. }
  split; [rewrite Hadded; exact (shape_one_success Hshape)|].
  split; [rewrite Hadded; exact (shape_notify_after_success Hshape)|].
  split; [exact Hnotify|].
  split; [exact Hnone|].
  split; [|rewrite Hadded; exact Hn].
  intros Hs k Hin. apply Hadd; [exact Hs|].
  rewrite <- Hcalls. apply filter_In. split; [exact Hin|reflexivity].
Qed.

(** The theorem at a concrete entry: the sizes 42 and 38 come back, the
    basket refuses the first call.  The sweep calls for 38, is refused,
    calls for 42, and records that size. *)
Lemma restock_edge_reserves_until_first_success_witness :
  let st1 := snd (monitorProduct Sample.url (Sample.config Sample.hook)
                    (Sample.upstream ["42"; "38"]) Sample.basketRefusesFirst
                    {| local := Sample.entryAny; events := [] |}) in
  filter is_reserve (events st1)
    = [Reserve "1" "38" false; Reserve "1" "42" true] /\
  count is_notify (events st1) = count is_reserve_ok (events st1) /\
  notified (local st1) = ["42"].
Proof.
  pose proof (@restock_edge_reserves_until_first_success Sample.url
                (Sample.config Sample.hook) (Sample.upstream ["42"; "38"])
                Sample.basketRefusesFirst Sample.entryAny
                (Sample.payload ["42"; "38"])
                eq_refl eq_refl eq_refl eq_refl) as H.
  cbv zeta in H.
  destruct H as (H1 & _ & _ & _ & _ & _ & _ & _ & H9 & _ & H11 & _).
  split; [exact H1|].
  split; [exact (H9 eq_refl eq_refl)|].
  apply (H11 eq_refl "42").
  apply (proj1 (filter_In is_reserve _ _)). rewrite H1. right. left.
  reflexivity.
Defined.

(** C2, as the specification has it, fails: upstream lists 42 before 38
    and the basket refuses the first call; the sweep calls the basket
    twice, for 38 first and then for 42. *)
Lemma restock_edge_counterexample :
  let s0 := fst (step Sample.url (initial (Sample.config Sample.hook))
                   (Add (Sample.watchAny "1") (Sample.upstream [])
                      (Sample.basket true) "t0" "t0")) in
  let sweep := monitorAllProducts Sample.url s0
                 (Sample.upstream ["42"; "38"]) Sample.basketRefusesFirst in
  (exists p, monitoredProducts s0 = [("1", p)] /\ watchAll p = true /\
             restockDetected p true = true) /\
  filter is_reserve (log sweep)
    = [Reserve "1" "38" false; Reserve "1" "42" true] /\
  count is_reserve (log sweep) = 2.
Proof.
  cbv zeta. split; [|split].
  - eexists. split; [vm_compute; reflexivity|].
    split; vm_compute; reflexivity.
  - vm_compute. reflexivity.
  - vm_compute. reflexivity.
Qed.

(** C3 at its failing input.  The webhook is not a URL, the entry watches
    size 38, upstream lists size 38 in both sweeps and the basket accepts.
    The first sweep reserves; the alert throws, the [catch] block skips the
    assignments that end the [try] block, and the second sweep, with the
    same answers of the product endpoint, reserves again.  (With a sink
    that does not throw the second sweep calls nothing:
    [sweep_idempotent_when_sink_ok].) *)
Theorem sweep_reserves_again_when_sink_throws :
  let s0 := fst (step Sample.url (initial (Sample.config "not-a-url"))
                   (Add (Sample.watchSizes "1" ["38"]) (Sample.upstream [])
                      (Sample.basket true) "t0" "t0")) in
  let first := monitorAllProducts Sample.url s0
                 (Sample.upstream ["38"]) (Sample.basket true) in
  let second := monitorAllProducts Sample.url (state first)
                  (Sample.upstream ["38"]) (Sample.basket true) in
  log first = [Reserve "1" "38" true] /\
  result first = Returned tt /\
  log second = [Reserve "1" "38" true] /\
  count is_reserve (log second) = 1.
Proof. cbv zeta. repeat split; vm_compute; reflexivity. Qed.

(** C4, as the code has it.  After a sweep with a sink that does not
    throw, every entry whose fetch succeeded stores the snapshot just
    observed, and each of its watched sizes that is in [notified] is in
    stock in that snapshot. *)
Theorem watched_notified_sizes_are_in_stock
    (webhook_error : string -> option string) (s : Sys)
    (fetch : ProductId -> FetchResult) (cart : CartOracle)
    (key : string) (p : Product) (data : Payload) (x : SizeId) :
  sinkOk webhook_error (CONFIG s) = true ->
  In (key, p) (monitoredProducts
                 (state (monitorAllProducts webhook_error s fetch cart))) ->
  fetch (productId p) = Resolved data ->
  In x (watchedSizes p) ->
  JsSet.has (notified p) x = true ->
  previousStock p = snd (parseProduct (productId p) data) /\
  inStockOf (JsObj.get (previousStock p) x) = true.
Proof.
  intros sink. unfold monitorAllProducts.
  destruct (JsMap.size (monitoredProducts s) =? 0)%nat eqn:Hsize; cbn.
  - apply Nat.eqb_eq in Hsize. unfold JsMap.size in Hsize.
    destruct (monitoredProducts s); [intros []|discriminate].
  - destruct (@sweepEntries_rearms webhook_error (CONFIG s) fetch sink cart
                (monitoredProducts s)
                {| local := tokenExpiredNotified s; events := [] |})
      as (entries' & st' & -> & Hall).
    cbn. intros Hin E Hx Hhas.
    rewrite Forall_forall in Hall. specialize (Hall (key, p) Hin).
    cbn in Hall. unfold rearmed in Hall. rewrite E in Hall.
    destruct Hall as [Hprev Hstock]. split; [exact Hprev|]. now apply Hstock.
Qed.

(** The theorem at a concrete registry: size 38 was reserved when the
    product was added and is still listed. *)
Lemma watched_notified_sizes_are_in_stock_witness :
  let s0 := fst (step Sample.url (initial (Sample.config Sample.hook))
                   (Add (Sample.watchSizes "1" ["38"]) (Sample.upstream ["38"])
                      (Sample.basket true) "t0" "t0")) in
  let sweep := monitorAllProducts Sample.url s0
                 (Sample.upstream ["38"; "40"]) (Sample.basket true) in
  exists p,
    monitoredProducts (state sweep) = [("1", p)] /\
    inStockOf (JsObj.get (previousStock p) "38") = true.
Proof.
  cbv zeta. eexists. split; [vm_compute; reflexivity|].
  refine (proj2 (@watched_notified_sizes_are_in_stock Sample.url
                   (fst (step Sample.url (initial (Sample.config Sample.hook))
                           (Add (Sample.watchSizes "1" ["38"])
                              (Sample.upstream ["38"])
                              (Sample.basket true) "t0" "t0")))
                   (Sample.upstream ["38"; "40"]) (Sample.basket true)
                   "1" _ (Sample.payload ["38"; "40"]) "38" _ _ _ _ _)).
  - vm_compute. reflexivity.
  - vm_compute. left. reflexivity.
  - reflexivity.
  - vm_compute. left. reflexivity.
  - vm_compute. reflexivity.
Defined.

(** C4, as the specification has it, fails in both modes: a size stays in
    [notified] while the snapshot just observed does not have it.  In
    watched-sizes mode, size 38 was notified and then left the watched set;
    in [watchAll] mode, size 38 was notified when the product was added and
    another size is listed now. *)
Lemma notified_subset_counterexample :
  let s0 := initial (Sample.config Sample.hook) in
  let s1 := fst (run Sample.url s0
                   [Add (Sample.watchSizes "1" ["38"]) (Sample.upstream ["38"])
                      (Sample.basket true) "t0" "t0";
                    PutSizes "1" (WsArray ["40"])]) in
  let sweep1 := monitorAllProducts Sample.url s1
                  (Sample.upstream ["40"]) (Sample.basket true) in
  let s2 := fst (step Sample.url s0
                   (Add (Sample.watchAny "1") (Sample.upstream ["38"])
                      (Sample.basket true) "t0" "t0")) in
  let sweep2 := monitorAllProducts Sample.url s2
                  (Sample.upstream ["40"]) (Sample.basket true) in
  let observed := snd (parseProduct "1" (Sample.payload ["40"])) in
  (exists p, monitoredProducts (state sweep1) = [("1", p)] /\
             previousStock p = observed /\
             JsSet.has (notified p) "38" = true /\
             inStockOf (JsObj.get observed "38") = false) /\
  (exists p, monitoredProducts (state sweep2) = [("1", p)] /\
             previousStock p = observed /\
             JsSet.has (notified p) "38" = true /\
             inStockOf (JsObj.get observed "38") = false).
Proof.
  cbv zeta. split.
  - eexists. split; [vm_compute; reflexivity|].
    repeat split; vm_compute; reflexivity.
  - eexists. split; [vm_compute; reflexivity|].
    repeat split; vm_compute; reflexivity.
Qed.

(** ** The registry and the scheduler *)

Section Registry.
Variable webhook_error : string -> option string.

(** A sweep keeps the keys of the registry, also when it ends by an
    exception. *)
Lemma sweepEntries_keys cfg fetch cart (entries : list (string * Product)) :
  forall st : St bool,
    map fst (snd (fst (sweepEntries webhook_error cfg fetch cart entries st)))
      = map fst entries.
Proof.
  induction entries as [|[key product] rest IH]; intros st; cbn; [reflexivity|].
  destruct (monitorProduct webhook_error cfg fetch cart
              {| local := product; events := events st |}) as [tried pst].
  destruct (match tried with
            | Returned _ =>
                (Returned tt, {| local := local st; events := events pst |})
            | Thrown message =>
                catchClause webhook_error cfg message
                  {| local := local st; events := events pst |}
            end) as [[[]|message] st2]; cbn; [|reflexivity].
  specialize (IH st2).
  destruct (sweepEntries webhook_error cfg fetch cart rest st2) as [[o rest'] st3].
  cbn in *. now rewrite IH.
Qed.

(** What a sweep leaves alone. *)
Lemma monitorAllProducts_frame s fetch cart :
  let r := monitorAllProducts webhook_error s fetch cart in
  map fst (monitoredProducts (state r)) = map fst (monitoredProducts s) /\
  productHistory (state r) = productHistory s /\
  monitoringInterval (state r) = monitoringInterval s /\
  CONFIG (state r) = CONFIG s.
Proof.
  unfold monitorAllProducts.
  destruct (JsMap.size (monitoredProducts s) =? 0)%nat; cbn; [auto|].
  pose proof (sweepEntries_keys (CONFIG s) fetch cart (monitoredProducts s)
                {| local := tokenExpiredNotified s; events := [] |}) as Hk.
  destruct (sweepEntries webhook_error (CONFIG s) fetch cart
              (monitoredProducts s)
              {| local := tokenExpiredNotified s; events := [] |})
    as [[o es] st]. cbn in *. auto.
Qed.

(** What the [catch] block of a handler leaves alone. *)
Lemma endpointCatch_frame s message tr :
  let r := endpointCatch webhook_error s message tr in
  monitoredProducts (state r) = monitoredProducts s /\
  productHistory (state r) = productHistory s /\
  monitoringInterval (state r) = monitoringInterval s /\
  CONFIG (state r) = CONFIG s /\
  result r = respond 500 (ErrorBody message).
Proof. unfold endpointCatch. cbn. auto. Qed.

Lemma startMonitoring_running s :
  monitoringInterval (startMonitoring s) <> None /\
  monitoredProducts (startMonitoring s) = monitoredProducts s /\
  productHistory (startMonitoring s) = productHistory s /\
  CONFIG (startMonitoring s) = CONFIG s.
Proof.
  unfold startMonitoring.
  destruct (monitoringInterval s) eqn:E; cbn; rewrite ?E; repeat split;
    discriminate.
Qed.

(** The add handler either fails before it writes anything but the alert
    flag, or writes the entry, the history and the timer. *)
Lemma apiProductsAdd_state s req fetch cart now1 now2 :
  let r := apiProductsAdd webhook_error s req fetch cart now1 now2 in
  (monitoredProducts (state r) = monitoredProducts s /\
   productHistory (state r) = productHistory s /\
   monitoringInterval (state r) = monitoringInterval s /\
   CONFIG (state r) = CONFIG s /\
   400 <= status (result r) /\
   exists error, body (result r) = ErrorBody error)
  \/
  (exists pid p info sm,
     add_productId req = Some pid /\
     monitoredProducts (state r) = JsMap.set (monitoredProducts s) pid p /\
     productHistory (state r)
       = addToHistory pid info sm now1 now2 (productHistory s) /\
     monitoringInterval (state r) <> None /\
     CONFIG (state r) = CONFIG s).
Proof.
  unfold apiProductsAdd.
  destruct (add_productId req) as [pid|];
    [|left; cbn; repeat split; eauto; lia].
  destruct (negb (truthy pid)); [left; cbn; repeat split; eauto; lia|].
  match goal with |- context [if ?c then _ else _] => destruct c end;
    [left; cbn; repeat split; eauto; lia|].
  destruct (addPrepare webhook_error (CONFIG s) pid (add_watchedSizes req)
              (add_watchAll req) fetch cart
              {| local := JsSet.empty; events := [] |})
    as [[[[[info sm] stockInfo] watched]|message] st].
  - right.
    match goal with |- context [startMonitoring ?x] =>
      destruct (startMonitoring_running x) as (Hrun & Hm & Hh & Hc);
      set (s3 := startMonitoring x) in * end.
    destruct (addAnswer (add_watchedSizes req) (add_watchAll req) sm (local st))
      as [answer|message].
    + cbn [state]. eexists pid, _, info, sm.
      rewrite Hm, Hh, Hc. cbn. auto.
    + destruct (endpointCatch_frame s3 message (events st))
        as (Em & Eh & Ei & Ec & _).
      eexists pid, _, info, sm.
      rewrite Em, Eh, Ei, Ec, Hm, Hh, Hc. cbn. auto.
  - left. destruct (endpointCatch_frame s message (events st))
      as (Em & Eh & Ei & Ec & Er).
    rewrite Em, Eh, Ei, Ec, Er. cbn. repeat split; eauto. lia.
Qed.

Lemma size_keys (V : Type) (m1 m2 : JsMap.t V) :
  map fst m1 = map fst m2 -> JsMap.size m1 = JsMap.size m2.
Proof.
  unfold JsMap.size. intros H.
  now rewrite <- (length_map fst m1), <- (length_map fst m2), H.
Qed.

Lemma invariant_keys s s' :
  map fst (monitoredProducts s') = map fst (monitoredProducts s) ->
  monitoringInterval s' = monitoringInterval s ->
  schedulerInvariant s -> schedulerInvariant s'.
Proof.
  unfold schedulerInvariant, JsMap.wf. intros Hk Hi [Hwf Hiff].
  rewrite Hk, Hi, (size_keys _ _ Hk). auto.
Qed.

Lemma apiProductsDelete_state s key :
  schedulerInvariant s ->
  JsMap.has (monitoredProducts s) key = true ->
  let r := apiProductsDelete s key in
  monitoredProducts (state r) = JsMap.delete (monitoredProducts s) key /\
  S (JsMap.size (monitoredProducts (state r))) = JsMap.size (monitoredProducts s) /\
  (JsMap.size (monitoredProducts s) = 1 -> monitoringInterval (state r) = None) /\
  (1 < JsMap.size (monitoredProducts s) ->
   monitoringInterval (state r) = monitoringInterval s /\
   monitoringInterval (state r) <> None).
Proof.
  intros [Hwf Hiff] Hhas. unfold apiProductsDelete. rewrite Hhas.
  pose proof (@map_size_delete Product (monitoredProducts s) key Hwf Hhas)
    as Hsize. cbn [state].
  cbn [monitoredProducts with_products with_registry].
  destruct (JsMap.size (JsMap.delete (monitoredProducts s) key) =? 0)%nat eqn:E.
  - apply Nat.eqb_eq in E.
    assert (Hm : monitoredProducts
                   (stopMonitoring
                      (with_products (JsMap.delete (monitoredProducts s) key) s))
                 = JsMap.delete (monitoredProducts s) key).
    { unfold stopMonitoring. cbn. destruct (monitoringInterval s); reflexivity. }
    rewrite Hm. split; [reflexivity|]. split; [exact Hsize|]. split.
    + intros _. unfold stopMonitoring. cbn.
      destruct (monitoringInterval s) eqn:Ei; cbn; [reflexivity|exact Ei].
    + intros Hlt. lia.
  - apply Nat.eqb_neq in E. cbn.
    split; [reflexivity|]. split; [exact Hsize|]. split; [lia|].
    intros Hlt. split; [reflexivity|]. intros Hnone.
    apply Hiff in Hnone. lia.
Qed.

(** Every step keeps the invariant. *)
Lemma step_invariant s i :
  schedulerInvariant s -> schedulerInvariant (fst (step webhook_error s i)).
Proof.
  intros Hinv. destruct i; cbn [step forget fst].
  - (* add *)
    destruct (apiProductsAdd_state s req fetch cart now1 now2)
      as [(Hm & _ & Hi & _)|(pid & p & info & sm & _ & Hm & _ & Hi & _)].
    + apply (invariant_keys (s:=s)); [now rewrite Hm|exact Hi|exact Hinv].
    + destruct Hinv as [Hwf _]. split.
      * rewrite Hm. now apply map_wf_set.
      * rewrite Hm. split; [|intros H; contradiction].
        intros H. now apply map_set_nonempty in H.
  - (* remove *)
    destruct (JsMap.has (monitoredProducts s) key) eqn:Hhas.
    + destruct (apiProductsDelete_state key Hinv Hhas)
        as (Hm & Hsize & Hlast & Hmore).
      destruct Hinv as [Hwf Hiff]. split.
      * rewrite Hm. now apply map_wf_delete.
      * destruct (Nat.eq_dec (JsMap.size (monitoredProducts s)) 1) as [H1|H1].
        -- specialize (Hlast H1). split; [auto|]. intros _. lia.
        -- assert (Hlt : 1 < JsMap.size (monitoredProducts s)) by lia.
           destruct (Hmore Hlt) as [_ Hrun]. split; [lia|contradiction].
    + unfold apiProductsDelete. now rewrite Hhas.
  - (* replace the watched sizes *)
    unfold apiProductsSizes.
    destruct (JsMap.get (monitoredProducts s) key) eqn:Hget; [|exact Hinv].
    destruct (newSet watchedSizes0); [|exact Hinv].
    apply (invariant_keys (s:=s)); [|reflexivity|exact Hinv].
    cbn. apply map_keys_set. congruence.
  - (* reset *)
    unfold apiProductsReset.
    destruct (JsMap.get (monitoredProducts s) key) eqn:Hget; [|exact Hinv].
    apply (invariant_keys (s:=s)); [|reflexivity|exact Hinv].
    cbn. apply map_keys_set. congruence.
  - exact Hinv.
  - unfold apiHistoryDelete.
    destruct (JsMap.has (productHistory s) key); exact Hinv.
  - exact Hinv.
  - unfold apiConfigDiscord. destruct (negb (truthy webhook)); exact Hinv.
  - (* preview *)
    unfold apiProductsFetch.
    destruct resolved as [[pid|]|message]; try exact Hinv.
    destruct (negb (truthy pid)); [exact Hinv|].
    destruct (fetch pid); exact Hinv.
  - (* tick *)
    destruct (monitoringInterval s) eqn:Hi; [|exact Hinv].
    destruct (monitorAllProducts_frame s fetch cart) as (Hk & _ & Hi' & _).
    cbn. apply (invariant_keys (s:=s)); [exact Hk|exact Hi'|exact Hinv].
Qed.

Lemma reachable_invariant s :
  reachable webhook_error s -> schedulerInvariant s.
Proof.
  induction 1 as [c|s i _ IH].
  - split; [constructor|]. cbn. tauto.
  - now apply step_invariant.
Qed.

End Registry.

(** ** An add that gets through *)

Lemma addRestockLoop_returns (webhook_error : string -> option string)
    (cfg : Config) (cart : CartOracle) (pid : ProductId) (info : ProductInfo)
    (url : string) (entries : list (SizeId * SizeInfo)) :
  sinkOk webhook_error cfg = true ->
  forall st : St JsSet.t,
  exists st',
    addRestockLoop webhook_error cfg cart pid info url entries st
      = (Returned tt, st').
Proof.
  intros Hsink.
  induction entries as [|[sizeId sizeInfo] rest IH]; intros st;
    cbn [addRestockLoop]; [eexists; reflexivity|].
  unfold bind at 1. unfold addToCart at 1. cbn [fst snd local events].
  destruct (success (cart (events st) pid sizeId)); [|apply IH].
  unfold bind.
  rewrite (@sendDiscordNotification_ok webhook_error _ cfg _ _ _ _ _ _ Hsink).
  unfold modify. eexists. reflexivity.
Qed.

Section AddWatchedLoop.
Variable webhook_error : string -> option string.
Variables (cfg : Config) (cart : CartOracle) (pid : ProductId)
          (info : ProductInfo) (sm : JsObj.t SizeInfo)
          (stockInfo : JsObj.t StockEntry) (productUrl : string).
Hypothesis sink : sinkOk webhook_error cfg = true.

Lemma notifyEvents_no_call x name q :
  filter is_reserve (notifyEvents cfg info x name q productUrl) = [].
Proof. unfold notifyEvents. now destruct (truthy (discordWebhook cfg)). Qed.

(** The loop of the add handler over the requested sizes calls the basket
    for each of them that is in stock, in the order of the request. *)
Lemma addWatchedLoop_calls (l : list SizeId) :
  forall st : St JsSet.t,
  exists st',
    for_of l (addCheckSize webhook_error cfg cart pid info sm stockInfo
                productUrl) st = (Returned tt, st') /\
    map reservedSize (filter is_reserve (events st')) =
      map reservedSize (filter is_reserve (events st))
        ++ filter (fun x => inStockOf (JsObj.get stockInfo x)) l.
Proof.
  induction l as [|x r IH]; intros st.
  - exists st. cbn. now rewrite app_nil_r.
  - cbn [for_of filter]. unfold bind at 1. unfold addCheckSize at 1.
    destruct (inStockOf (JsObj.get stockInfo x)).
    + unfold bind at 1. unfold addToCart at 1. cbn [fst snd local events].
      destruct (success (cart (events st) pid x)).
      * unfold bind at 1. rewrite (@sendDiscordNotification_ok webhook_error _ cfg _ _ _ _ _ _ sink).
        unfold modify at 1. cbn [fst snd local events].
        match goal with |- context [for_of r _ ?s] =>
          destruct (IH s) as (st' & E & Hc) end.
        exists st'. split; [exact E|]. rewrite Hc. cbn [events].
        rewrite !filter_app, notifyEvents_no_call, app_nil_r, map_app.
        cbn. now rewrite <- app_assoc.
      * unfold ret at 1.
        match goal with |- context [for_of r _ ?s] =>
          destruct (IH s) as (st' & E & Hc) end.
        exists st'. split; [exact E|]. rewrite Hc. cbn [events].
        rewrite !filter_app, map_app. cbn. now rewrite <- app_assoc.
    + unfold ret at 1. apply IH.
Qed.

End AddWatchedLoop.

Section AddReturns.
Variable webhook_error : string -> option string.
Variables (cfg : Config) (cart : CartOracle) (pid : ProductId)
          (fetch : ProductId -> FetchResult).
Hypothesis sink : sinkOk webhook_error cfg = true.

(** With a sink that does not throw, a product endpoint that answers and a
    [watchedSizes] that is not a truthy value without an iterator, the
    handler gets to the point where it writes the registry. *)
Lemma addPrepare_returns (field : WatchedSizesField) (all : bool)
    (data : Payload) :
  fetch pid = Resolved data ->
  (forall message, field <> WsOther true message) ->
  exists watched st,
    addPrepare webhook_error cfg pid field all fetch cart
      {| local := JsSet.empty; events := [] |}
    = (Returned (parseProduct pid data, watched), st).
Proof.
  intros Hf Hfield.
  destruct (parseProduct pid data) as [[info sm] stockInfo] eqn:Ep.
  assert (exists st1,
            (if all && hasSizesOf sm
             then addRestockLoop webhook_error cfg cart pid info
                    (productUrlOf pid) (JsObj.entries sm)
             else ret tt) {| local := JsSet.empty; events := [] |}
            = (Returned tt, st1)) as [st1 E1].
  { destruct (all && hasSizesOf sm); [|eexists; reflexivity].
    now apply addRestockLoop_returns. }
  assert (exists st2,
            (if wsTruthy field && lengthPositive field then
               match wsIterate field with
               | Returned l =>
                   for_of l (addCheckSize webhook_error cfg cart pid info sm
                               stockInfo (productUrlOf pid))
               | Thrown message => throw message
               end
             else ret tt) st1 = (Returned tt, st2)) as [st2 E2].
  { destruct (wsTruthy field && lengthPositive field) eqn:E;
      [|eexists; reflexivity].
    destruct field as [|l|chars|b message]; cbn in E; try discriminate;
      cbn [wsIterate].
    - destruct (@addWatchedLoop_calls webhook_error cfg cart pid info sm
                  stockInfo (productUrlOf pid) sink l st1) as (st2 & E2 & _).
      eauto.
    - destruct (@addWatchedLoop_calls webhook_error cfg cart pid info sm
                  stockInfo (productUrlOf pid) sink chars st1)
        as (st2 & E2 & _).
      eauto.
    - rewrite andb_false_r in E. discriminate. }
  assert (exists watched,
            (if wsTruthy field then newSet field else Returned JsSet.empty)
            = Returned watched) as [watched E3].
  { destruct field as [|l|chars|[|] message]; cbn; eauto.
    - destruct (negb (Nat.eqb (length chars) 0)); eauto.
    - exfalso. now apply (Hfield message). }
  exists watched, st2. unfold addPrepare, fetchProductDetails.
  rewrite Hf, Ep. unfold bind. unfold ret at 1. cbv beta iota.
  rewrite E1. cbv beta iota. rewrite E2. cbv beta iota. rewrite E3.
  reflexivity.
Qed.

End AddReturns.

(** A request with a product id and, as [watchedSizes], an array that is
    not empty, or with [watchAll] and any array or no [watchedSizes], is
    answered 200 and registered when the fetch succeeds and the sink does
    not throw. *)
Lemma apiProductsAdd_registers (webhook_error : string -> option string)
    (s : Sys) (req : AddBody) (fetch : ProductId -> FetchResult)
    (cart : CartOracle) (now1 now2 : Timestamp) (pid : ProductId)
    (data : Payload) :
  add_productId req = Some pid ->
  truthy pid = true ->
  (add_watchAll req = true /\ add_watchedSizes req = WsNullish \/
   exists l, add_watchedSizes req = WsArray l /\
             (add_watchAll req = true \/ l <> [])) ->
  fetch pid = Resolved data ->
  sinkOk webhook_error (CONFIG s) = true ->
  let r := apiProductsAdd webhook_error s req fetch cart now1 now2 in
  status (result r) = 200 /\
  monitoringInterval (state r) <> None /\
  JsMap.has (monitoredProducts (state r)) pid = true.
Proof.
  intros Hpid Htruthy Hshape Hf Hsink. cbv zeta.
  assert (negb (add_watchAll req) &&
            (negb (wsTruthy (add_watchedSizes req))
             || negb (wsIsArray (add_watchedSizes req))
             || negb (lengthPositive (add_watchedSizes req))) = false /\
          wsTruthy (add_watchedSizes req)
            && negb (wsIsArray (add_watchedSizes req)) = false /\
          forall message, add_watchedSizes req <> WsOther true message)
    as (Hvalid & Hanswer & Hfield).
  { destruct Hshape as [[-> ->]|(l & -> & Hl)].
    - repeat split. discriminate.
    - repeat split; [|discriminate].
      destruct Hl as [-> |Hl]; [reflexivity|].
      destruct l; [congruence|]. cbn. apply andb_false_r. }
  destruct (@addPrepare_returns webhook_error (CONFIG s) cart pid fetch Hsink
              (add_watchedSizes req) (add_watchAll req) data Hf Hfield)
    as (watched & st & Hp).
  unfold apiProductsAdd. rewrite Hpid, Htruthy. cbn [negb].
  rewrite Hvalid, Hp.
  destruct (parseProduct pid data) as [[info sm] stockInfo].
  unfold addAnswer. rewrite Hanswer. cbn [result state status respond].
  match goal with |- context [startMonitoring ?x] =>
    destruct (startMonitoring_running x) as (Hrun & Hreg & _ & _);
    rewrite Hreg end.
  split; [reflexivity|]. split; [exact Hrun|].
  cbn. unfold JsMap.has. now rewrite map_get_set_same.
Qed.

(** C5.  In every reachable state the registry is empty exactly when the
    timer is not set.  An add of a well-formed request (a product id, and
    as [watchedSizes] an array that is not empty, or [watchAll] with an
    array or nothing) whose fetch succeeds, with a sink that does not
    throw, is answered 200, registers the product and leaves the timer
    set, also when the registry was empty and the timer was not set; and
    whatever the request, an add that is answered 200 leaves the timer
    set.  Removing the last entry clears the timer, and removing another
    entry leaves the timer as it was, set. *)
Theorem registry_empty_iff_scheduler_stopped
    (webhook_error : string -> option string) (s : Sys) :
  reachable webhook_error s ->
  (JsMap.size (monitoredProducts s) = 0 <-> monitoringInterval s = None) /\
  (forall req fetch cart now1 now2 pid data,
     add_productId req = Some pid ->
     truthy pid = true ->
     (add_watchAll req = true /\ add_watchedSizes req = WsNullish \/
      exists l, add_watchedSizes req = WsArray l /\
                (add_watchAll req = true \/ l <> [])) ->
     fetch pid = Resolved data ->
     sinkOk webhook_error (CONFIG s) = true ->
     let r := apiProductsAdd webhook_error s req fetch cart now1 now2 in
     status (result r) = 200 /\
     monitoringInterval (state r) <> None /\
     JsMap.has (monitoredProducts (state r)) pid = true /\
     JsMap.size (monitoredProducts (state r)) <> 0) /\
  (forall req fetch cart now1 now2,
     let r := apiProductsAdd webhook_error s req fetch cart now1 now2 in
     status (result r) = 200 ->
     monitoringInterval (state r) <> None /\
     JsMap.size (monitoredProducts (state r)) <> 0) /\
  (forall key,
     JsMap.has (monitoredProducts s) key = true ->
     let r := apiProductsDelete s key in
     (JsMap.size (monitoredProducts s) = 1 ->
      monitoringInterval (state r) = None /\
      JsMap.size (monitoredProducts (state r)) = 0) /\
     (1 < JsMap.size (monitoredProducts s) ->
      monitoringInterval (state r) = monitoringInterval s /\
      monitoringInterval (state r) <> None)).
Proof.
  intros Hreach.
  pose proof (reachable_invariant Hreach) as Hinv.
  split; [exact (proj2 Hinv)|]. split; [|split].
  - intros req fetch cart now1 now2 pid data Hpid Htruthy Hshape Hf Hsink r.
    destruct (@apiProductsAdd_registers webhook_error s req fetch cart
                now1 now2 pid data Hpid Htruthy Hshape Hf Hsink)
      as (Hst & Hi & Hhas).
    fold r in Hst, Hi, Hhas.
    split; [exact Hst|]. split; [exact Hi|]. split; [exact Hhas|].
    destruct (apiProductsAdd_state webhook_error s req fetch cart now1 now2)
      as [(_ & _ & _ & _ & H400 & _)|(pid' & p & info & sm & _ & Hm & _)].
    + fold r in H400. lia.
    + fold r in Hm. rewrite Hm. apply map_set_nonempty.
  - intros req fetch cart now1 now2 r Hok.
    destruct (apiProductsAdd_state webhook_error s req fetch cart now1 now2)
      as [(_ & _ & _ & _ & Hst & _)|(pid & p & info & sm & _ & Hm & _ & Hi & _)].
    + fold r in Hst. lia.
    + fold r in Hm, Hi. split; [exact Hi|].
      rewrite Hm. apply map_set_nonempty.
  - intros key Hhas r.
    destruct (apiProductsDelete_state key Hinv Hhas)
      as (_ & Hsize & Hlast & Hmore).
    fold r in Hsize, Hlast, Hmore. split.
    + intros H1. split; [now apply Hlast|lia].
    + exact Hmore.
Qed.

(** The theorem at the initial state and at the state after one add: the
    timer is not set at first, the add of product 1 is answered 200 and
    sets it, and removing the product clears it again. *)
Lemma registry_empty_iff_scheduler_stopped_witness :
  let s0 := initial (Sample.config Sample.hook) in
  let r := apiProductsAdd Sample.url s0 (Sample.watchSizes "1" ["38"])
             (Sample.upstream []) (Sample.basket true) "t0" "t0" in
  monitoringInterval s0 = None /\
  status (result r) = 200 /\
  monitoringInterval (state r) <> None /\
  JsMap.has (monitoredProducts (state r)) "1" = true /\
  JsMap.size (monitoredProducts (state r)) <> 0 /\
  monitoringInterval (state (apiProductsDelete (state r) "1")) = None /\
  JsMap.size (monitoredProducts (state (apiProductsDelete (state r) "1"))) = 0.
Proof.
  cbv zeta.
  pose proof (@registry_empty_iff_scheduler_stopped Sample.url _
                (reachable_initial Sample.url (Sample.config Sample.hook)))
    as (Hiff & Hadd & _).
  pose proof (@registry_empty_iff_scheduler_stopped Sample.url _
                (reachable_step
                   (Add (Sample.watchSizes "1" ["38"]) (Sample.upstream [])
                      (Sample.basket true) "t0" "t0")
                   (reachable_initial Sample.url (Sample.config Sample.hook))))
    as (_ & _ & _ & Hdel).
  split; [apply (proj1 Hiff); reflexivity|].
  assert (add_watchAll (Sample.watchSizes "1" ["38"]) = true /\
          add_watchedSizes (Sample.watchSizes "1" ["38"]) = WsNullish \/
          exists l, add_watchedSizes (Sample.watchSizes "1" ["38"]) = WsArray l /\
                    (add_watchAll (Sample.watchSizes "1" ["38"]) = true \/
                     l <> [])) as Hshape.
  { right. exists ["38"]. split; [reflexivity|]. right. discriminate. }
  destruct (Hadd (Sample.watchSizes "1" ["38"]) (Sample.upstream [])
              (Sample.basket true) "t0" "t0" "1" (Sample.payload [])
              eq_refl eq_refl Hshape eq_refl eq_refl)
    as (Hst & Hrun & Hhas & Hsize).
  destruct (proj1 (Hdel "1" eq_refl) eq_refl) as [Hstop Hempty].
  exact (conj Hst (conj Hrun (conj Hhas (conj Hsize (conj Hstop Hempty))))).
Defined.

(** What the [catch] block of a handler does to the outside world: at
    most the credentials alert. *)
Lemma endpointCatch_log (webhook_error : string -> option string)
    (s : Sys) (message : string) (tr : list Event) f :
  (forall m, f (TokenAlert m) = false) ->
  count f (log (endpointCatch webhook_error s message tr)) = count f tr.
Proof.
  intros Hf. unfold endpointCatch. cbn [log].
  destruct (authSignalEndpoint message); [|reflexivity].
  unfold sendTokenExpiredNotification, bind, get_local, modify, ret, throw, emit.
  cbn. destruct (tokenExpiredNotified s || negb (truthy (discordWebhook (CONFIG s))));
    [reflexivity|].
  cbn. destruct (webhook_error (discordWebhook (CONFIG s))); cbn; [reflexivity|].
  unfold count. rewrite filter_app, length_app. cbn. rewrite Hf. cbn. lia.
Qed.

(** C6.  An add request that passes validation and whose fetch fails is
    answered with status 500 and the error of the fetch; the registry, the
    history, the timer and the configuration are as before, and neither the
    basket nor the stock alert was called. *)
Theorem add_fetch_failure_leaves_registry
    (webhook_error : string -> option string) (s : Sys) (req : AddBody)
    (fetch : ProductId -> FetchResult) (cart : CartOracle)
    (now1 now2 : Timestamp) (pid : ProductId) (message : string) :
  add_productId req = Some pid ->
  truthy pid = true ->
  (add_watchAll req = true \/
   exists l, add_watchedSizes req = WsArray l /\ l <> []) ->
  fetch pid = Rejected message ->
  let r := apiProductsAdd webhook_error s req fetch cart now1 now2 in
  result r = respond 500 (ErrorBody message) /\
  monitoredProducts (state r) = monitoredProducts s /\
  productHistory (state r) = productHistory s /\
  monitoringInterval (state r) = monitoringInterval s /\
  CONFIG (state r) = CONFIG s /\
  count is_reserve (log r) = 0 /\
  count is_notify (log r) = 0.
Proof.
  intros Hpid Htruthy Hvalid Hfetch r. subst r.
  unfold apiProductsAdd. rewrite Hpid, Htruthy. cbn [negb].
  assert (Hcheck :
    negb (add_watchAll req) &&
    (negb (wsTruthy (add_watchedSizes req))
     || negb (wsIsArray (add_watchedSizes req))
     || negb (lengthPositive (add_watchedSizes req))) = false).
  { destruct Hvalid as [->|(l & -> & Hl)]; [reflexivity|].
    destruct l; [congruence|]. cbn. apply andb_false_r. }
  rewrite Hcheck.
  assert (Hprep :
    addPrepare webhook_error (CONFIG s) pid (add_watchedSizes req)
      (add_watchAll req) fetch cart {| local := JsSet.empty; events := [] |}
    = (Thrown message, {| local := JsSet.empty; events := [] |})).
  { unfold addPrepare, bind, fetchProductDetails. now rewrite Hfetch. }
  rewrite Hprep. cbn [events].
  destruct (endpointCatch_frame webhook_error s message [])
    as (Hm & Hh & Hi & Hc & Hr).
  rewrite Hm, Hh, Hi, Hc, Hr.
  repeat (split; [reflexivity|]).
  split; apply (endpointCatch_log webhook_error s message []); reflexivity.
Qed.

(** The theorem at a request for a product the endpoint refuses. *)
Lemma add_fetch_failure_leaves_registry_witness :
  let s := initial (Sample.config Sample.hook) in
  let r := apiProductsAdd Sample.url s (Sample.watchSizes "1" ["38"])
             Sample.unauthorized (Sample.basket true) "t0" "t0" in
  result r = respond 500 (ErrorBody "HTTP 401: Unauthorized") /\
  monitoredProducts (state r) = monitoredProducts s /\
  monitoringInterval (state r) = None.
Proof.
  cbv zeta.
  assert (Hvalid :
    add_watchAll (Sample.watchSizes "1" ["38"]) = true \/
    exists l, add_watchedSizes (Sample.watchSizes "1" ["38"]) = WsArray l /\
              l <> []).
  { right. exists ["38"]. split; [reflexivity|discriminate]. }
  pose proof (@add_fetch_failure_leaves_registry Sample.url
                (initial (Sample.config Sample.hook))
                (Sample.watchSizes "1" ["38"]) Sample.unauthorized
                (Sample.basket true) "t0" "t0" "1" "HTTP 401: Unauthorized"
                eq_refl eq_refl Hvalid eq_refl) as H.
  cbv zeta in H. destruct H as (H1 & H2 & _ & H4 & _).
  split; [exact H1|]. split; [exact H2|exact H4].
Defined.

(** ** The history *)



(** ** Replacing the watched sizes *)

(** C9.  Replacing the watched sizes of [key] leaves the configuration,
    the history, the timer, the alert flag and the keys of the registry as
    they are; an entry under another key is unchanged, and the entry under
    [key] keeps every field but [watchedSizes]. *)
Theorem replace_watched_sizes_changes_watched_only
    (s : Sys) (key : string) (field : WatchedSizesField) :
  let r := apiProductsSizes s key field in
  CONFIG (state r) = CONFIG s /\
  productHistory (state r) = productHistory s /\
  monitoringInterval (state r) = monitoringInterval s /\
  tokenExpiredNotified (state r) = tokenExpiredNotified s /\
  map fst (monitoredProducts (state r)) = map fst (monitoredProducts s) /\
  forall k,
    match JsMap.get (monitoredProducts (state r)) k with
    | Some p' =>
        exists p,
          JsMap.get (monitoredProducts s) k = Some p /\
          (k <> key -> p' = p) /\
          notified p' = notified p /\
          previousStock p' = previousStock p /\
          hadSizes p' = hadSizes p /\
          productInfo p' = productInfo p /\
          sizeMapping p' = sizeMapping p /\
          productId p' = productId p /\
          watchAll p' = watchAll p
    | None => JsMap.get (monitoredProducts s) k = None
    end.
Proof.
  unfold apiProductsSizes.
  destruct (JsMap.get (monitoredProducts s) key) as [product|] eqn:Hget.
  - destruct (newSet field) as [watched|message]; cbn.
    + repeat (split; [reflexivity|]).
      split; [apply map_keys_set; congruence|].
      intros k. destruct (String.eqb_spec k key) as [->|Hne].
      * rewrite map_get_set_same. exists product.
        split; [exact Hget|]. split; [congruence|]. cbn. repeat split.
      * rewrite map_get_set_other by assumption.
        destruct (JsMap.get (monitoredProducts s) k) as [p|]; [|reflexivity].
        exists p. repeat split.
    + repeat (split; [reflexivity|]).
      intros k. destruct (JsMap.get (monitoredProducts s) k) as [p|];
        [|reflexivity].
      exists p. repeat split.
  - cbn. repeat (split; [reflexivity|]).
    intros k. destruct (JsMap.get (monitoredProducts s) k) as [p|];
      [|reflexivity].
    exists p. repeat split.
Qed.

(** C10.  For a monitored product, a request without the field
    [watchedSizes], or with null for it, is answered with status 200 and
    the empty list, and the entry has the empty watched set afterwards; an
    entry that is not in [watchAll] mode then goes through a sweep without
    a call of the basket or of the sink. *)
Theorem replace_watched_sizes_nullish_empties
    (s : Sys) (key : string) (p : Product) :
  JsMap.get (monitoredProducts s) key = Some p ->
  let r := apiProductsSizes s key WsNullish in
  result r = respond 200 (SizesBody []) /\
  JsMap.get (monitoredProducts (state r)) key
    = Some (with_watchedSizes JsSet.empty p) /\
  (watchAll p = false ->
   forall webhook_error cfg fetch cart tr,
     events (snd (monitorProduct webhook_error cfg fetch cart
                    {| local := with_watchedSizes JsSet.empty p;
                       events := tr |})) = tr).
Proof.
  intros Hget. unfold apiProductsSizes. rewrite Hget. cbn.
  split; [reflexivity|]. split; [apply map_get_set_same|].
  intros Hall webhook_error cfg fetch cart tr.
  set (st := {| local := with_watchedSizes JsSet.empty p; events := tr |}).
  destruct (fetch (productId (local st))) as [data|message] eqn:E.
  - pose proof (@monitorProduct_watchSizes webhook_error cfg fetch cart st st
                  data Hall E) as Hrun.
    destruct (parseProduct (productId (local st)) data) as [[info sm] si].
    now rewrite (Hrun eq_refl).
  - now rewrite (@monitorProduct_rejected webhook_error cfg fetch cart st
                   message E).
Qed.

(** The theorem at the registry reached by adding one product. *)
Lemma replace_watched_sizes_nullish_empties_witness :
  let s1 := fst (step Sample.url (initial (Sample.config Sample.hook))
                   (Add (Sample.watchSizes "1" ["38"]) (Sample.upstream [])
                      (Sample.basket true) "t0" "t0")) in
  exists p,
    JsMap.get (monitoredProducts s1) "1" = Some p /\
    watchedSizes p = ["38"] /\
    result (apiProductsSizes s1 "1" WsNullish) = respond 200 (SizesBody []).
Proof.
  cbv zeta. eexists. split; [vm_compute; reflexivity|].
  split; [reflexivity|].
  refine (proj1 (@replace_watched_sizes_nullish_empties _ "1" _ _)).
  vm_compute. reflexivity.
Defined.

(** ** The credentials alert *)

(** Only the [catch] blocks send the credentials alert: the steps of the
    [try] blocks append calls of the basket and stock alerts only. *)
Section NoAlert.
Variable webhook_error : string -> option string.
Variable f : Event -> bool.
Hypothesis f_reserve : forall pid x ok, f (Reserve pid x ok) = false.
Hypothesis f_notify : forall i x name q url, f (Notify i x name q url) = false.
Variable n : nat.

Lemma counts_snoc {L} (st : St L) (l : L) (e : Event) :
  f e = false -> counts f n st ->
  counts f n {| local := l; events := events st ++ [e] |}.
Proof.
  unfold counts, count. intros He H. cbn.
  rewrite filter_app, length_app. cbn. rewrite He. cbn. lia.
Qed.

Lemma preserves_addToCart {L} cart pid x :
  preserves (counts f n) (@addToCart L cart pid x).
Proof. intros st H. unfold addToCart. cbn. now apply counts_snoc. Qed.

Lemma preserves_modify {L} (g : L -> L) : preserves (counts f n) (modify g).
Proof. intros st H. exact H. Qed.

Lemma preserves_sink {L} cfg info x name q url :
  preserves (counts f n)
    (@sendDiscordNotification webhook_error L cfg info x name q url).
Proof.
  intros st H.
  destruct (@sendDiscordNotification_any webhook_error L cfg info x name q url st)
    as (o & added & -> & [->| ->]); cbn.
  - unfold counts in *. cbn. now rewrite app_nil_r.
  - now apply counts_snoc.
Qed.

Lemma preserves_if {L A} (c : bool) (m1 m2 : Proc L A) (I : St L -> Prop) :
  preserves I m1 -> preserves I m2 -> preserves I (if c then m1 else m2).
Proof. destruct c; auto. Qed.

Lemma preserves_checkSize cfg cart info sm stockInfo url x :
  preserves (counts f n)
    (checkSize webhook_error cfg cart info sm stockInfo url x).
Proof.
  unfold checkSize.
  apply preserves_bind; [apply preserves_get|]. intros p.
  apply preserves_bind.
  - apply preserves_if; [|apply preserves_ret].
    apply preserves_bind; [apply preserves_addToCart|]. intros r.
    apply preserves_if; [|apply preserves_ret].
    apply preserves_bind; [apply preserves_sink|]. intros _.
    apply preserves_modify.
  - intros _. apply preserves_bind; [apply preserves_get|]. intros p'.
    apply preserves_if; [apply preserves_modify|apply preserves_ret].
Qed.

Lemma preserves_restockLoop cfg cart info url entries added :
  preserves (counts f n)
    (restockLoop webhook_error cfg cart info url entries added).
Proof.
  revert added. induction entries as [|[k i] rest IH]; intros added; cbn.
  - apply preserves_ret.
  - apply preserves_if; [|apply IH].
    apply preserves_bind; [apply preserves_get|]. intros p.
    apply preserves_bind; [apply preserves_addToCart|]. intros r.
    apply preserves_if; [|apply IH].
    apply preserves_bind; [apply preserves_sink|]. intros _.
    apply preserves_bind; [apply preserves_modify|]. intros _. apply IH.
Qed.

Lemma preserves_monitorProduct cfg fetch cart :
  preserves (counts f n) (monitorProduct webhook_error cfg fetch cart).
Proof.
  unfold monitorProduct.
  apply preserves_bind; [apply preserves_get|]. intros p.
  apply preserves_bind.
  { unfold fetchProductDetails.
    destruct (fetch (productId p)); [apply preserves_ret|apply preserves_throw]. }
  intros [[info sm] stockInfo].
  apply preserves_bind.
  { unfold watchAllBranch.
    apply preserves_bind; [apply preserves_get|]. intros p'.
    apply preserves_if; [|apply preserves_ret].
    apply preserves_bind.
    - apply preserves_if; [|apply preserves_ret].
      apply preserves_bind; [apply preserves_restockLoop|]. intros _.
      apply preserves_modify.
    - intros _. apply preserves_if; [|apply preserves_ret].
      apply preserves_bind; apply preserves_modify || (intros _; apply preserves_modify). }
  intros _. apply preserves_bind; [apply preserves_get|]. intros p'.
  apply preserves_bind; [|intros _; apply preserves_modify].
  apply preserves_for_of. intros x _. apply preserves_checkSize.
Qed.



End NoAlert.

Section Alert.
Variable webhook_error : string -> option string.

Lemma alert_of_reserve pid x ok : is_token_alert (Reserve pid x ok) = false.
Proof. reflexivity. Qed.

Lemma alert_of_notify i x name q url :
  is_token_alert (Notify i x name q url) = false.
Proof. reflexivity. Qed.





End Alert.

Section AlertRuns.
Variable webhook_error : string -> option string.








(** A credential update clears the flag. *)
Lemma credential_update_clears_flag s req :
  tokenExpiredNotified (fst (step webhook_error s (ConfigAuth req))) = false.
Proof. reflexivity. Qed.

End AlertRuns.

(** With a webhook that is set and does not throw, a sweep that starts with
    the flag clear sends exactly one credentials alert when some product is
    refused with an authorization failure, and none otherwise. *)
Lemma sweepEntries_alerts (webhook_error : string -> option string)
    (cfg : Config) (fetch : ProductId -> FetchResult) (cart : CartOracle)
    (entries : list (string * Product)) :
  truthy (discordWebhook cfg) = true ->
  webhook_error (discordWebhook cfg) = None ->
  forall st : St bool,
    let r := sweepEntries webhook_error cfg fetch cart entries st in
    local (snd r) = local st || existsb (authFails fetch) entries /\
    count is_token_alert (events (snd r)) =
      count is_token_alert (events st) +
      (if local st then 0
       else if existsb (authFails fetch) entries then 1 else 0).
Proof.
  intros Hset Hurl.
  assert (sink : sinkOk webhook_error cfg = true).
  { unfold sinkOk. now rewrite Hurl, orb_true_r. }
  induction entries as [|[key product] rest IH]; intros st; cbn [sweepEntries].
  - cbn. rewrite orb_false_r. split; [reflexivity|]. destruct (local st); lia.
  - pose proof (@preserves_monitorProduct webhook_error is_token_alert
                  alert_of_reserve alert_of_notify
                  (count is_token_alert (events st)) cfg fetch cart
                  {| local := product; events := events st |} eq_refl) as Hp.
    unfold counts in Hp.
    assert (Hcaught : exists pst st2,
      monitorProduct webhook_error cfg fetch cart
        {| local := product; events := events st |} = (fst pst, snd pst) /\
      match fst pst with
      | Returned _ =>
          (Returned tt, {| local := local st; events := events (snd pst) |})
      | Thrown message =>
          catchClause webhook_error cfg message
            {| local := local st; events := events (snd pst) |}
      end = (Returned tt, st2) /\
      local st2 = local st || authFails fetch (key, product) /\
      count is_token_alert (events st2) =
        count is_token_alert (events st) +
        (if local st then 0
         else if authFails fetch (key, product) then 1 else 0)).
    { unfold authFails. cbn [snd].
      destruct (fetch (productId product)) as [data|message] eqn:E.
      - pose proof (@monitorProduct_returns webhook_error cfg fetch cart sink
                      {| local := product; events := events st |} data E) as Hr.
        cbn [local] in Hr.
        destruct (parseProduct (productId product) data) as [[info sm] si].
        destruct Hr as (st' & Hrun & _). rewrite Hrun in Hp. cbn [snd] in Hp.
        exists (Returned tt, st'). eexists. split; [exact Hrun|].
        cbn [fst snd]. split; [reflexivity|]. cbn [local events].
        rewrite orb_false_r. split; [reflexivity|].
        rewrite Hp. destruct (local st); lia.
      - rewrite (@monitorProduct_rejected webhook_error cfg fetch cart
                   {| local := product; events := events st |} message E).
        exists (Thrown message, {| local := product; events := events st |}).
        cbn [fst snd events].
        unfold catchClause, sendTokenExpiredNotification, bind, get_local,
          modify, ret, throw, emit.
        destruct (authSignalSweep message); cbn [local events].
        + rewrite Hset, Hurl. cbn [negb orb].
          destruct (local st) eqn:Hflag; cbn.
          * eexists. split; [reflexivity|]. split; [reflexivity|].
            cbn [local events]. split; [reflexivity|lia].
          * eexists. split; [reflexivity|]. split; [reflexivity|].
            cbn [local events]. split; [reflexivity|].
            unfold count. rewrite filter_app, length_app. cbn. lia.
        + eexists. split; [reflexivity|]. split; [reflexivity|].
          cbn [local events]. rewrite orb_false_r. split; [reflexivity|].
          destruct (local st); lia. }
    destruct Hcaught as ([tried pst] & st2 & -> & Hc & Hflag & Hcount).
    cbn [fst snd] in *. rewrite Hc.
    specialize (IH st2).
    destruct (sweepEntries webhook_error cfg fetch cart rest st2)
      as [[o rest'] st3]. cbv zeta in IH. cbn [snd existsb] in *.
    destruct IH as [IH1 IH2]. rewrite IH1, IH2, Hflag, Hcount.
    split; [now rewrite orb_assoc|].
    destruct (local st), (authFails fetch (key, product)),
      (existsb (authFails fetch) rest); cbn; lia.
Qed.

(** After a credential update, with a webhook that is set and does not
    throw, the next sweep in which a product is refused with an
    authorization failure sends the credentials alert exactly once. *)
Lemma alert_fires_once_after_reset (webhook_error : string -> option string)
    (s : Sys) (req : AuthBody) (fetch : ProductId -> FetchResult)
    (cart : CartOracle) :
  truthy (discordWebhook (CONFIG s)) = true ->
  webhook_error (discordWebhook (CONFIG s)) = None ->
  existsb (authFails fetch) (monitoredProducts s) = true ->
  let s1 := fst (step webhook_error s (ConfigAuth req)) in
  let sweep := monitorAllProducts webhook_error s1 fetch cart in
  count is_token_alert (log sweep) = 1 /\
  tokenExpiredNotified (state sweep) = true.
Proof.
  intros Hset Hurl Hfail. cbn [step forget fst apiConfigAuth state].
  unfold monitorAllProducts.
  cbn [monitoredProducts resetTokenExpiredFlag with_registry with_config
       CONFIG tokenExpiredNotified discordWebhook].
  destruct (monitoredProducts s) as [|kp rest] eqn:Hm; [discriminate|].
  cbn [JsMap.size length Nat.eqb].
  pose proof (@sweepEntries_alerts webhook_error
                {| discordWebhook := discordWebhook (CONFIG s);
                   checkIntervalMs := checkIntervalMs (CONFIG s);
                   basicAuth :=
                     pick (auth_basicAuth req)
                       (pick (auth_headers_basicAuth req) (basicAuth (CONFIG s)));
                   cookies :=
                     pick (auth_cookies req)
                       (pick (auth_headers_cookies req) (cookies (CONFIG s))) |}
                fetch cart (kp :: rest) Hset Hurl
                {| local := false; events := [] |}) as H.
  cbv zeta in H.
  match goal with |- context [sweepEntries ?w ?c ?f ?k ?e ?st] =>
    destruct (sweepEntries w c f k e st) as [[o es] st'] end.
  cbn [snd local events] in H. rewrite Hfail in H. cbn in H.
  destruct H as [Hflag Hcount]. cbn. auto.
Qed.

(** The lemma at a concrete run: the alert of the first sweep, the
    credential update, and the alert of the next sweep. *)
Example alert_fires_once_example :
  let s1 := fst (run Sample.url (initial (Sample.config Sample.hook))
                   [Add (Sample.watchSizes "1" ["38"]) (Sample.upstream [])
                      (Sample.basket true) "t0" "t0";
                    Tick Sample.unauthorized (Sample.basket true)]) in
  let s2 := fst (step Sample.url s1 (ConfigAuth Sample.credentials)) in
  tokenExpiredNotified s1 = true /\
  count is_token_alert
    (log (monitorAllProducts Sample.url s2 Sample.unauthorized
            (Sample.basket true))) = 1.
Proof.
  cbv zeta. split; [vm_compute; reflexivity|].
  apply (@alert_fires_once_after_reset Sample.url); vm_compute; reflexivity.
Qed.

(** *** What a sweep keeps of an entry *)

Section SweepFrame.
Variable webhook_error : string -> option string.
Variables (cfg : Config) (fetch : ProductId -> FetchResult) (cart : CartOracle).
Variable p0 : Product.

Lemma kept_modify (g : Product -> Product) :
  (forall p, sameIdentity p (g p)) -> preserves (keptAs p0) (modify g).
Proof.
  intros Hg st (H1 & H2 & H3). destruct (Hg (local st)) as (G1 & G2 & G3).
  unfold keptAs, sameIdentity. cbn. repeat split; congruence.
Qed.

Lemma kept_addToCart pid x : preserves (keptAs p0) (addToCart cart pid x).
Proof. intros st H. exact H. Qed.

Lemma kept_sink info x name q url :
  preserves (keptAs p0)
    (sendDiscordNotification webhook_error cfg info x name q url).
Proof.
  intros st H. unfold sendDiscordNotification, emit, throw, ret.
  destruct (negb (truthy (discordWebhook cfg))); [exact H|].
  destruct (webhook_error (discordWebhook cfg)); exact H.
Qed.

Lemma kept_notified f : preserves (keptAs p0) (modify (with_notified f)).
Proof. apply kept_modify. intros p. repeat split. Qed.

Lemma kept_checkSize info sm stockInfo url x :
  preserves (keptAs p0) (checkSize webhook_error cfg cart info sm stockInfo url x).
Proof.
  unfold checkSize.
  apply preserves_bind; [apply preserves_get|]. intros product.
  apply preserves_bind.
  - apply preserves_if; [|apply preserves_ret].
    apply preserves_bind; [apply kept_addToCart|]. intros r.
    apply preserves_if; [|apply preserves_ret].
    apply preserves_bind; [apply kept_sink|]. intros _. apply kept_notified.
  - intros _. apply preserves_bind; [apply preserves_get|]. intros product'.
    apply preserves_if; [apply kept_notified|apply preserves_ret].
Qed.

Lemma kept_restockLoop info url entries added :
  preserves (keptAs p0) (restockLoop webhook_error cfg cart info url entries added).
Proof.
  revert added. induction entries as [|[sizeId sizeInfo] rest IH];
    intros added; cbn [restockLoop]; [apply preserves_ret|].
  apply preserves_if; [|apply IH].
  apply preserves_bind; [apply preserves_get|]. intros product.
  apply preserves_bind; [apply kept_addToCart|]. intros r.
  apply preserves_if; [|apply IH].
  apply preserves_bind; [apply kept_sink|]. intros _.
  apply preserves_bind; [apply kept_notified|]. intros _. apply IH.
Qed.

Lemma kept_monitorProduct :
  preserves (keptAs p0) (monitorProduct webhook_error cfg fetch cart).
Proof.
  unfold monitorProduct.
  apply preserves_bind; [apply preserves_get|]. intros product.
  apply preserves_bind.
  { unfold fetchProductDetails.
    destruct (fetch (productId product));
      [apply preserves_ret|apply preserves_throw]. }
  intros [[info sm] stockInfo].
  apply preserves_bind.
  { unfold watchAllBranch.
    apply preserves_bind; [apply preserves_get|]. intros product'.
    apply preserves_if; [|apply preserves_ret].
    apply preserves_bind.
    - apply preserves_if; [|apply preserves_ret].
      apply preserves_bind; [apply kept_restockLoop|]. intros _.
      apply kept_modify. intros p. repeat split.
    - intros _. apply preserves_if; [|apply preserves_ret].
      apply preserves_bind; [|intros _; apply kept_notified].
      apply kept_modify. intros p. repeat split. }
  intros _. apply preserves_bind; [apply preserves_get|]. intros product'.
  apply preserves_bind.
  - apply preserves_for_of. intros x _. apply kept_checkSize.
  - intros _. apply kept_modify. intros p. repeat split.
Qed.

End SweepFrame.

Lemma sweepEntries_identity (webhook_error : string -> option string)
    (cfg : Config) (fetch : ProductId -> FetchResult) (cart : CartOracle)
    (entries : list (string * Product)) :
  forall st : St bool,
    Forall2
      (fun kp kp' =>
         fst kp' = fst kp /\ sameIdentity (snd kp) (snd kp') /\
         (forall message, fetch (productId (snd kp)) = Rejected message ->
                          snd kp' = snd kp))
      entries
      (snd (fst (sweepEntries webhook_error cfg fetch cart entries st))).
Proof.
  assert (forall l : list (string * Product),
            Forall2
              (fun kp kp' =>
                 fst kp' = fst kp /\ sameIdentity (snd kp) (snd kp') /\
                 (forall message,
                    fetch (productId (snd kp)) = Rejected message ->
                    snd kp' = snd kp)) l l) as Hrefl.
  { induction l; constructor; [|assumption]. repeat split. }
  induction entries as [|[key product] rest IH]; intros st;
    cbn [sweepEntries]; [constructor|].
  pose proof (@kept_monitorProduct webhook_error cfg fetch cart product
                {| local := product; events := events st |}) as Hk.
  pose proof (@monitorProduct_rejected webhook_error cfg fetch cart
                {| local := product; events := events st |}) as Hrej.
  cbn [local] in Hrej.
  destruct (monitorProduct webhook_error cfg fetch cart
              {| local := product; events := events st |}) as [tried pst].
  cbn [snd] in Hk.
  assert (fst (key, local pst) = fst (key, product) /\
          sameIdentity (snd (key, product)) (snd (key, local pst)) /\
          (forall message,
             fetch (productId (snd (key, product))) = Rejected message ->
             snd (key, local pst) = snd (key, product))) as Hhead.
  { split; [reflexivity|]. split; [apply Hk; repeat split|].
    cbn [snd]. intros message Hf. specialize (Hrej message Hf).
    injection Hrej as _ Hpst. now rewrite Hpst. }
  destruct (match tried with
            | Returned _ => _
            | Thrown message => _
            end) as [[u|message] st2]; cbn [fst snd].
  - specialize (IH st2).
    destruct (sweepEntries webhook_error cfg fetch cart rest st2)
      as [[o rest'] st3]. cbn [fst snd] in *. now constructor.
  - constructor; [exact Hhead|apply Hrefl].
Qed.

Lemma monitorAllProducts_identity (webhook_error : string -> option string)
    (s : Sys) (fetch : ProductId -> FetchResult) (cart : CartOracle) :
  Forall2
    (fun kp kp' =>
       fst kp' = fst kp /\ sameIdentity (snd kp) (snd kp') /\
       (forall message, fetch (productId (snd kp)) = Rejected message ->
                        snd kp' = snd kp))
    (monitoredProducts s)
    (monitoredProducts (state (monitorAllProducts webhook_error s fetch cart))).
Proof.
  unfold monitorAllProducts.
  destruct (JsMap.size (monitoredProducts s) =? 0)%nat eqn:E.
  - cbn [state]. destruct (monitoredProducts s); [constructor|discriminate].
  - pose proof (sweepEntries_identity webhook_error (CONFIG s) fetch cart
                  (monitoredProducts s)
                  {| local := tokenExpiredNotified s; events := [] |}) as H.
    destruct (sweepEntries webhook_error (CONFIG s) fetch cart
                (monitoredProducts s)
                {| local := tokenExpiredNotified s; events := [] |})
      as [[o entries] st]. exact H.
Qed.

(** *** The alert along a run *)

Section AlertOnce.
Variable webhook_error : string -> option string.








End AlertOnce.




(** * Further properties of the program *)

(** ** Dictionaries and sets *)

Section ObjFacts.
Variable V : Type.
Implicit Types (o : JsObj.t V) (l : list (string * V)) (k : string) (v : V).

Lemma lookup_update_same l k v : JsObj.lookup (JsObj.update l k v) k = Some v.
Proof.
  induction l as [|[k' v'] r IH]; cbn.
  - now rewrite String.eqb_refl.
  - destruct (k' =? k) eqn:E; cbn; rewrite E; [reflexivity|exact IH].
Qed.

Lemma lookup_update_other l k k2 v :
  k2 <> k -> JsObj.lookup (JsObj.update l k v) k2 = JsObj.lookup l k2.
Proof.
  intros Hne. induction l as [|[k' v'] r IH]; cbn.
  - destruct (k =? k2) eqn:E; [|reflexivity].
    apply String.eqb_eq in E. congruence.
  - destruct (k' =? k) eqn:E; cbn; [|now rewrite IH].
    apply String.eqb_eq in E. subst k'.
    destruct (k =? k2) eqn:E2; [|reflexivity].
    apply String.eqb_eq in E2. congruence.
Qed.

(** Assigning a property adds its name as [Set.prototype.add] would. *)
Lemma update_names l k v :
  map fst (JsObj.update l k v) = JsSet.add k (map fst l).
Proof.
  unfold JsSet.add. induction l as [|[k' v'] r IH]; cbn; [reflexivity|].
  destruct (k' =? k) eqn:E; cbn; [reflexivity|].
  rewrite IH. now destruct (JsSet.has (map fst r) k).
Qed.

Lemma obj_get_set_same o k v : JsObj.get (JsObj.set o k v) k = Some v.
Proof.
  unfold JsObj.get, JsObj.set. destruct (k =? "__proto__"); cbn;
    [reflexivity|apply lookup_update_same].
Qed.

Lemma obj_get_set_other o k k2 v :
  k2 <> k -> JsObj.get (JsObj.set o k v) k2 = JsObj.get o k2.
Proof.
  intros Hne. unfold JsObj.get, JsObj.set.
  destruct (k =? "__proto__") eqn:E, (k2 =? "__proto__") eqn:E2; cbn;
    try reflexivity.
  - apply String.eqb_eq in E, E2. congruence.
  - now apply lookup_update_other.
Qed.

(** An assignment to [__proto__] adds no own property. *)
Lemma obj_names_set o k v :
  map fst (JsObj.own (JsObj.set o k v)) =
    if k =? "__proto__" then map fst (JsObj.own o)
    else JsSet.add k (map fst (JsObj.own o)).
Proof.
  unfold JsObj.set. destruct (k =? "__proto__"); cbn;
    [reflexivity|apply update_names].
Qed.

Lemma insert_by_index_perm (e : string * V) l :
  Permutation (JsObj.insert_by_index e l) (e :: l).
Proof.
  induction l as [|e' r IH]; cbn; [reflexivity|].
  destruct (JsObj.index_of e <=? JsObj.index_of e')%N; [reflexivity|].
  rewrite IH. apply perm_swap.
Qed.

Lemma sort_by_index_perm l : Permutation (JsObj.sort_by_index l) l.
Proof.
  induction l as [|e r IH]; cbn; [reflexivity|].
  rewrite insert_by_index_perm. now constructor.
Qed.

Lemma filter_split_perm (A : Type) (f : A -> bool) (l : list A) :
  Permutation (filter f l ++ filter (fun a => negb (f a)) l) l.
Proof.
  induction l as [|a r IH]; cbn; [reflexivity|].
  destruct (f a); cbn.
  - now constructor.
  - rewrite <- Permutation_middle. now constructor.
Qed.

Lemma entries_perm o : Permutation (JsObj.entries o) (JsObj.own o).
Proof.
  unfold JsObj.entries. rewrite sort_by_index_perm. apply filter_split_perm.
Qed.

Lemma keys_perm o : Permutation (JsObj.keys o) (map fst (JsObj.own o)).
Proof. unfold JsObj.keys. apply Permutation_map, entries_perm. Qed.

Lemma insert_by_index_sorted (e : string * V) l :
  StronglySorted (fun a b => (JsObj.index_of a <= JsObj.index_of b)%N) l ->
  StronglySorted (fun a b => (JsObj.index_of a <= JsObj.index_of b)%N)
    (JsObj.insert_by_index e l).
Proof.
  induction l as [|e' r IH]; cbn; intros Hs.
  - constructor; constructor.
  - inversion Hs as [|? ? Hr Hall]; subst.
    destruct (JsObj.index_of e <=? JsObj.index_of e')%N eqn:E.
    + apply N.leb_le in E. constructor; [exact Hs|].
      constructor; [exact E|].
      eapply Forall_impl; [|exact Hall]. cbn. intros a Ha. lia.
    + apply N.leb_gt in E. constructor; [now apply IH|].
      eapply Permutation_Forall; [symmetry; apply insert_by_index_perm|].
      constructor; [lia|exact Hall].
Qed.

Lemma sort_by_index_sorted l :
  StronglySorted (fun a b => (JsObj.index_of a <= JsObj.index_of b)%N)
    (JsObj.sort_by_index l).
Proof.
  induction l as [|e r IH]; cbn; [constructor|].
  now apply insert_by_index_sorted.
Qed.

End ObjFacts.

Lemma sorted_map (A B : Type) (f : A -> B) (R : B -> B -> Prop) (l : list A) :
  StronglySorted (fun a b => R (f a) (f b)) l -> StronglySorted R (map f l).
Proof.
  induction 1 as [|a r Hs IH Hall]; cbn; constructor; [exact IH|].
  now apply Forall_map.
Qed.

Lemma filter_map_fst (V : Type) (f : string -> bool) (l : list (string * V)) :
  map fst (filter (fun e => f (fst e)) l) = filter f (map fst l).
Proof.
  induction l as [|[k v] r IH]; cbn; [reflexivity|].
  destruct (f k); cbn; now rewrite IH.
Qed.

Lemma has_In (s : JsSet.t) (x : string) : JsSet.has s x = true <-> In x s.
Proof.
  induction s as [|y r IH]; cbn; [split; [discriminate|tauto]|].
  rewrite orb_true_iff, IH, String.eqb_eq. tauto.
Qed.

Lemma add_In (x y : string) (s : JsSet.t) :
  In y (JsSet.add x s) <-> y = x \/ In y s.
Proof.
  unfold JsSet.add. destruct (JsSet.has s x) eqn:E.
  - apply has_In in E. split; [tauto|]. intros [->|H]; assumption.
  - rewrite in_app_iff. cbn. intuition.
Qed.

Lemma add_NoDup (x : string) (s : JsSet.t) : NoDup s -> NoDup (JsSet.add x s).
Proof.
  intros Hs. unfold JsSet.add. destruct (JsSet.has s x) eqn:E; [exact Hs|].
  assert (~ In x s) as Hx by (rewrite <- has_In; congruence).
  apply NoDup_app; [exact Hs|repeat constructor; auto|].
  intros a Ha [<-|[]]. auto.
Qed.

Lemma fold_add_In (l : list string) (s : JsSet.t) (y : string) :
  In y (fold_left (fun s x => JsSet.add x s) l s) <-> In y l \/ In y s.
Proof.
  revert s. induction l as [|x r IH]; cbn; intros s; [tauto|].
  rewrite IH, add_In. intuition.
Qed.

Lemma fold_add_NoDup (l : list string) (s : JsSet.t) :
  NoDup s -> NoDup (fold_left (fun s x => JsSet.add x s) l s).
Proof.
  revert s. induction l as [|x r IH]; cbn; intros s Hs; [exact Hs|].
  apply IH, add_NoDup, Hs.
Qed.

Lemma of_list_NoDup (l : list string) : NoDup (JsSet.of_list l).
Proof. apply fold_add_NoDup. constructor. Qed.

(** ** The snapshot [fetchProductDetails] builds *)

(** The own property names of the two dictionaries, in creation order: the
    listed ids but [__proto__]. *)
Lemma parseSizes_names (values : list SizeValue) sm si :
  map fst (JsObj.own (fst (parseSizes values sm si)))
    = fold_left (fun s x => JsSet.add x s)
        (filter notProto (map sv_id values)) (map fst (JsObj.own sm)) /\
  map fst (JsObj.own (snd (parseSizes values sm si)))
    = fold_left (fun s x => JsSet.add x s)
        (filter notProto (map sv_id values)) (map fst (JsObj.own si)).
Proof.
  revert sm si. induction values as [|v r IH]; cbn [parseSizes map filter];
    intros sm si; [cbn; tauto|].
  destruct (IH (JsObj.set sm (sv_id v)
                  {| size := sv_value v; size_productId := sv_product_id v |})
               (JsObj.set si (sv_id v) {| inStock := true; quantity := 1 |}))
    as [H1 H2].
  rewrite H1, H2, !obj_names_set. unfold notProto.
  destruct (sv_id v =? "__proto__"); cbn; tauto.
Qed.

Lemma parseSizes_stock (values : list SizeValue) sm si (x : SizeId) :
  JsObj.get (snd (parseSizes values sm si)) x =
    if existsb (fun v => sv_id v =? x) values
    then Some {| inStock := true; quantity := 1 |}
    else JsObj.get si x.
Proof.
  revert sm si. induction values as [|v r IH]; cbn [parseSizes existsb];
    intros sm si; [reflexivity|].
  rewrite IH. destruct (existsb (fun v0 => sv_id v0 =? x) r).
  - now rewrite orb_true_r.
  - rewrite orb_false_r. destruct (sv_id v =? x) eqn:E.
    + apply String.eqb_eq in E. subst x. apply obj_get_set_same.
    + apply String.eqb_neq in E. apply obj_get_set_other. congruence.
Qed.

Lemma parseSizes_mapping (values : list SizeValue) sm si (x : SizeId) :
  JsObj.get (fst (parseSizes values sm si)) x = None <->
  existsb (fun v => sv_id v =? x) values = false /\ JsObj.get sm x = None.
Proof.
  revert sm si. induction values as [|v r IH]; cbn [parseSizes existsb];
    intros sm si; [tauto|].
  rewrite IH, orb_false_iff. destruct (sv_id v =? x) eqn:E.
  - apply String.eqb_eq in E. subst x. rewrite obj_get_set_same.
    split; intros [H1 H2]; [discriminate|destruct H1; discriminate].
  - apply String.eqb_neq in E. rewrite obj_get_set_other by congruence.
    tauto.
Qed.

Lemma parseOptions_listed (data : Payload) :
  parseOptions data = parseSizes (listedSizes data) JsObj.empty JsObj.empty.
Proof.
  unfold parseOptions, listedSizes.
  destruct (data_options data) as [opts|]; [|reflexivity].
  destruct (find (fun opt => opt_code opt =? "size") opts) as [o|]; [|reflexivity].
  now destruct (opt_values o).
Qed.

Lemma existsb_listed (values : list SizeValue) (x : SizeId) :
  existsb (fun v => sv_id v =? x) values = true <-> In x (map sv_id values).
Proof.
  rewrite existsb_exists, in_map_iff. split.
  - intros [v [Hin E]]. apply String.eqb_eq in E. eauto.
  - intros [v [E Hin]]. exists v. now rewrite E, String.eqb_refl.
Qed.

Lemma get_empty (V : Type) (x : string) : JsObj.get (@JsObj.empty V) x = None.
Proof. unfold JsObj.get. now destruct (x =? "__proto__"). Qed.

Lemma notProto_In (l : list string) (x : string) :
  In x (filter notProto l) <-> In x l /\ x <> "__proto__".
Proof.
  rewrite filter_In. unfold notProto.
  rewrite negb_true_iff, String.eqb_neq. tauto.
Qed.

(** X1.  The snapshot has exactly the sizes of the size option.  Looked up
    by its id, a size is in stock if and only if the option lists the id,
    always with the quantity 1, and it has an entry in the size mapping
    exactly when it has one in the stock.  The sizes the snapshot
    enumerates are the listed ids, each once, but for the id [__proto__]:
    an assignment under that name installs a prototype, which a lookup
    finds and an enumeration does not.  So the snapshot has sizes if and
    only if the option lists an id other than [__proto__]. *)
Theorem snapshot_lists_the_size_option
    (pid : ProductId) (data : Payload) (x : SizeId) :
  let sm := snd (fst (parseProduct pid data)) in
  let stockInfo := snd (parseProduct pid data) in
  (inStockOf (JsObj.get stockInfo x) = true
     <-> In x (map sv_id (listedSizes data))) /\
  (forall e, JsObj.get stockInfo x = Some e ->
             e = {| inStock := true; quantity := 1 |}) /\
  (JsObj.get sm x = None <-> JsObj.get stockInfo x = None) /\
  (In x (JsObj.keys sm)
     <-> In x (map sv_id (listedSizes data)) /\ x <> "__proto__") /\
  NoDup (JsObj.keys sm) /\
  (hasSizesOf sm = true
     <-> exists y, In y (map sv_id (listedSizes data)) /\ y <> "__proto__").
Proof.
  cbv zeta. unfold parseProduct. cbn [fst snd].
  rewrite parseOptions_listed.
  pose proof (parseSizes_names (listedSizes data) JsObj.empty JsObj.empty)
    as [Hsm _].
  pose proof (parseSizes_stock (listedSizes data) JsObj.empty JsObj.empty x)
    as Hget.
  pose proof (parseSizes_mapping (listedSizes data) JsObj.empty JsObj.empty x)
    as Hmap.
  rewrite get_empty in Hget, Hmap.
  cbn [JsObj.own JsObj.empty map] in Hsm.
  assert (forall y, In y (map fst (JsObj.own (fst (parseSizes
                                 (listedSizes data) JsObj.empty JsObj.empty))))
                    <-> In y (map sv_id (listedSizes data)) /\ y <> "__proto__")
    as Hin.
  { intros y. rewrite Hsm, fold_add_In, notProto_In. cbn. tauto. }
  split; [|split; [|split; [|split; [|split]]]].
  - rewrite Hget, <- existsb_listed.
    destruct (existsb _ _); cbn; split; congruence.
  - intros e. rewrite Hget. destruct (existsb _ _); congruence.
  - rewrite Hmap, Hget. destruct (existsb _ _); split; try tauto;
      try discriminate. intros [H _]. discriminate.
  - rewrite <- Hin. split; apply Permutation_in;
      [apply keys_perm|symmetry; apply keys_perm].
  - eapply Permutation_NoDup; [symmetry; apply keys_perm|].
    rewrite Hsm. apply fold_add_NoDup. constructor.
  - unfold hasSizesOf.
    rewrite (Permutation_length (keys_perm _)), Nat.ltb_lt. split.
    + intros Hlen.
      destruct (map fst (JsObj.own (fst (parseSizes (listedSizes data)
                                           JsObj.empty JsObj.empty))))
        as [|y r] eqn:E; [cbn in Hlen; lia|].
      exists y. apply Hin. now left.
    + intros [y Hy]. apply Hin in Hy.
      destruct (map fst _); [destruct Hy|cbn; lia].
Qed.

(** X2.  The order in which the sizes of a snapshot are enumerated, which is
    the order in which the restock loops try them: first the ids that are
    array indices, by ascending value, then the other ids, but for
    [__proto__], in the order of their first appearance in the size
    option. *)
Theorem size_keys_enumeration_order (pid : ProductId) (data : Payload) :
  let sm := snd (fst (parseProduct pid data)) in
  let ids := JsSet.of_list (filter notProto (map sv_id (listedSizes data))) in
  exists numeric,
    JsObj.keys sm = numeric ++ filter (fun k => negb (isIndexKey k)) ids /\
    Permutation numeric (filter isIndexKey ids) /\
    StronglySorted (fun a b => (indexKey a <= indexKey b)%N) numeric.
Proof.
  cbv zeta. unfold parseProduct. cbn [fst snd].
  rewrite parseOptions_listed.
  pose proof (parseSizes_names (listedSizes data) JsObj.empty JsObj.empty)
    as [Hsm _].
  cbn [JsObj.own JsObj.empty map] in Hsm.
  set (o := JsObj.own (fst (parseSizes (listedSizes data)
                              JsObj.empty JsObj.empty))) in *.
  exists (map fst (JsObj.sort_by_index (filter (@JsObj.is_index SizeInfo) o))).
  unfold JsSet.of_list, JsSet.empty. rewrite <- Hsm.
  split; [|split].
  - unfold JsObj.keys, JsObj.entries. fold o. rewrite map_app. f_equal.
    apply (filter_map_fst (fun k => negb (isIndexKey k)) o).
  - rewrite sort_by_index_perm.
    now rewrite <- (filter_map_fst isIndexKey o).
  - apply sorted_map, sort_by_index_sorted.
Qed.

(** ** Every stock alert follows a reservation *)

Lemma follow_app prev tr1 tr2 :
  alertsFollowReservations prev (tr1 ++ tr2) =
    alertsFollowReservations prev tr1 &&
    alertsFollowReservations (fold_left (fun _ e => Some e) tr1 prev) tr2.
Proof.
  revert prev. induction tr1 as [|e r IH]; intros prev; [reflexivity|].
  cbn [app alertsFollowReservations fold_left].
  now rewrite IH, andb_assoc.
Qed.

Lemma follow_reserve prev tr pid x ok :
  alertsFollowReservations prev (tr ++ [Reserve pid x ok])
    = alertsFollowReservations prev tr.
Proof. rewrite follow_app. cbn. now rewrite andb_true_r. Qed.

Lemma follow_token prev tr message :
  alertsFollowReservations prev (tr ++ [TokenAlert message])
    = alertsFollowReservations prev tr.
Proof. rewrite follow_app. cbn. now rewrite andb_true_r. Qed.

Lemma follow_alert prev tr pid x info name q :
  alertsFollowReservations prev
    ((tr ++ [Reserve pid x true])
       ++ [Notify info x name q (productUrlOf pid)])
    = alertsFollowReservations prev tr.
Proof.
  rewrite follow_app, follow_reserve, fold_left_app. cbn.
  now rewrite !String.eqb_refl, andb_true_r.
Qed.

Section Follows.
Variable webhook_error : string -> option string.
Variables (cfg : Config) (cart : CartOracle).

Lemma checkSize_follows info sm stockInfo pid x :
  preserves (pairedAt pid)
    (checkSize webhook_error cfg cart info sm stockInfo (productUrlOf pid) x).
Proof.
  intros st [Hpid Hok].
  unfold pairedAt, checkSize, bind, get_local, addToCart,
    sendDiscordNotification, modify, emit, throw, ret.
  cbn [fst snd local events].
  destruct (newStockDetected (local st) stockInfo x).
  - destruct (success (cart (events st) (productId (local st)) x)) eqn:Es.
    + destruct (negb (truthy (discordWebhook cfg)));
        [|destruct (webhook_error (discordWebhook cfg))];
        cbn [fst snd local events with_notified productId notified];
        repeat match goal with
               | |- context [if ?c then _ else _] => destruct c
               end;
        cbn [fst snd local events with_notified productId notified];
        rewrite ?Hpid, ?follow_alert, ?follow_reserve; auto.
    + repeat match goal with
             | |- context [if ?c then _ else _] => destruct c
             end;
        cbn [fst snd local events with_notified productId notified];
        rewrite ?follow_reserve; auto.
  - repeat match goal with
           | |- context [if ?c then _ else _] => destruct c
           end;
      cbn [fst snd local events with_notified productId notified]; auto.
Qed.

Lemma restockLoop_follows info pid entries added :
  preserves (pairedAt pid)
    (restockLoop webhook_error cfg cart info (productUrlOf pid) entries added).
Proof.
  destruct added.
  { intros st H. now rewrite restockLoop_added. }
  induction entries as [|[sizeId sizeInfo] rest IH]; intros st [Hpid Hok];
    [split; assumption|].
  cbn [restockLoop negb].
  unfold bind, get_local, addToCart, sendDiscordNotification, modify, emit,
    throw, ret.
  cbn [fst snd local events].
  destruct (success (cart (events st) (productId (local st)) sizeId)) eqn:Es.
  - destruct (negb (truthy (discordWebhook cfg)));
      [|destruct (webhook_error (discordWebhook cfg))];
      rewrite ?restockLoop_added;
      cbn [fst snd local events with_notified productId notified];
      unfold pairedAt;
      cbn [fst snd local events with_notified productId notified];
      rewrite ?Hpid, ?follow_alert, ?follow_reserve; auto.
  - apply IH. split; cbn [local events]; [assumption|].
    now rewrite follow_reserve.
Qed.

Lemma preserves_modify_entry pid (g : Product -> Product) :
  (forall p, productId (g p) = productId p) ->
  preserves (pairedAt pid) (modify g).
Proof. intros Hg st [Hpid Hok]. split; cbn; [now rewrite Hg|assumption]. Qed.

Lemma watchAllBranch_follows info sm pid hasSizes :
  preserves (pairedAt pid)
    (watchAllBranch webhook_error cfg cart info sm (productUrlOf pid) hasSizes).
Proof.
  unfold watchAllBranch.
  apply preserves_bind; [apply preserves_get|]. intros product.
  destruct (watchAll product); [|apply preserves_ret].
  apply preserves_bind.
  - destruct (restockDetected product hasSizes); [|apply preserves_ret].
    apply preserves_bind; [apply restockLoop_follows|]. intros _.
    now apply preserves_modify_entry.
  - intros _. destruct (hadSizes product && negb hasSizes);
      [|apply preserves_ret].
    apply preserves_bind; [now apply preserves_modify_entry|]. intros _.
    now apply preserves_modify_entry.
Qed.

Lemma monitorProduct_follows fetch (st : St Product) :
  paired st -> paired (snd (monitorProduct webhook_error cfg fetch cart st)).
Proof.
  intros Hok.
  destruct (fetch (productId (local st))) as [data|message] eqn:Ef.
  - rewrite (monitorProduct_resolved webhook_error cfg fetch cart st Ef).
    unfold afterFetch.
    destruct (parseProduct (productId (local st)) data) as [[info sm] stockInfo].
    assert (preserves (pairedAt (productId (local st)))
              (watchAllBranch webhook_error cfg cart info sm
                 (productUrlOf (productId (local st))) (hasSizesOf sm) ;;;
               product <- get_local ;;
               for_of (JsSet.elements (watchedSizes product))
                 (checkSize webhook_error cfg cart info sm stockInfo
                    (productUrlOf (productId (local st)))) ;;;
               modify (with_snapshot stockInfo info sm))) as H.
    { apply preserves_bind; [apply watchAllBranch_follows|]. intros _.
      apply preserves_bind; [apply preserves_get|]. intros product.
      apply preserves_bind.
      - apply preserves_for_of. intros x _. apply checkSize_follows.
      - intros _. now apply preserves_modify_entry. }
    apply H. now split.
  - now rewrite (monitorProduct_rejected webhook_error cfg fetch cart st Ef).
Qed.

Lemma credentialsAlert_follows message (st : St bool) :
  paired st ->
  paired (snd (sendTokenExpiredNotification webhook_error cfg message st)).
Proof.
  unfold paired, sendTokenExpiredNotification, bind, get_local, modify, emit,
    throw, ret.
  cbn [fst snd local events]. intros Hok.
  destruct (local st || negb (truthy (discordWebhook cfg))); [assumption|].
  cbn [fst snd local events].
  destruct (webhook_error (discordWebhook cfg)); cbn [snd events];
    [assumption|]. now rewrite follow_token.
Qed.

Lemma sweepEntries_follows fetch (entries : list (string * Product)) :
  forall st : St bool,
    paired st ->
    paired (snd (sweepEntries webhook_error cfg fetch cart entries st)).
Proof.
  induction entries as [|[key product] rest IH]; intros st Hok;
    [assumption|].
  cbn [sweepEntries].
  pose proof (@monitorProduct_follows fetch
                {| local := product; events := events st |} Hok) as Hm.
  destruct (monitorProduct webhook_error cfg fetch cart
              {| local := product; events := events st |}) as [tried pst].
  cbn [snd] in Hm.
  assert (paired (snd (match tried with
                       | Returned _ =>
                           (Returned tt,
                            {| local := local st; events := events pst |})
                       | Thrown message =>
                           catchClause webhook_error cfg message
                             {| local := local st; events := events pst |}
                       end))) as Hc.
  { destruct tried; [exact Hm|]. unfold catchClause.
    destruct (authSignalSweep message); [|exact Hm].
    now apply credentialsAlert_follows. }
  destruct (match tried with
            | Returned _ => _
            | Thrown message => _
            end) as [[u|message] st2]; cbn [snd] in Hc.
  - specialize (IH st2 Hc).
    destruct (sweepEntries webhook_error cfg fetch cart rest st2)
      as [[o rest'] st3]. exact IH.
  - exact Hc.
Qed.

Lemma reserveAtAdd_follows pid info x name q (g : JsSet.t -> JsSet.t)
    (rest : Proc JsSet.t unit) :
  preserves paired rest ->
  preserves paired
    (cartResult <- addToCart cart pid x ;;
     if success cartResult then
       sendDiscordNotification webhook_error cfg info x name q
         (productUrlOf pid) ;;;
       modify g
     else rest).
Proof.
  intros Hrest st Hok. unfold paired in *.
  unfold bind, addToCart, sendDiscordNotification, modify, emit, throw, ret.
  cbn [fst snd local events].
  destruct (success (cart (events st) pid x)) eqn:Es.
  - destruct (negb (truthy (discordWebhook cfg)));
      [|destruct (webhook_error (discordWebhook cfg))];
      cbn [fst snd local events];
      rewrite ?follow_alert, ?follow_reserve; auto.
  - apply Hrest. cbn [events]. now rewrite follow_reserve.
Qed.

Lemma addRestockLoop_follows pid info entries :
  preserves paired
    (addRestockLoop webhook_error cfg cart pid info (productUrlOf pid) entries).
Proof.
  induction entries as [|[sizeId sizeInfo] rest IH]; [apply preserves_ret|].
  cbn [addRestockLoop]. now apply reserveAtAdd_follows.
Qed.

Lemma addPrepare_follows pid field all fetch :
  preserves paired (addPrepare webhook_error cfg pid field all fetch cart).
Proof.
  unfold addPrepare.
  apply preserves_bind.
  { unfold fetchProductDetails.
    destruct (fetch pid); [apply preserves_ret|apply preserves_throw]. }
  intros [[info sm] stockInfo].
  apply preserves_bind.
  { destruct (all && hasSizesOf sm);
      [apply addRestockLoop_follows|apply preserves_ret]. }
  intros _. apply preserves_bind.
  { destruct (wsTruthy field && lengthPositive field); [|apply preserves_ret].
    destruct (wsIterate field); [|apply preserves_throw].
    apply preserves_for_of. intros x _. unfold addCheckSize.
    destruct (inStockOf (JsObj.get stockInfo x)); [|apply preserves_ret].
    apply reserveAtAdd_follows, preserves_ret. }
  intros _.
  destruct (if wsTruthy field then newSet field else Returned JsSet.empty);
    [apply preserves_ret|apply preserves_throw].
Qed.

End Follows.

Lemma endpointCatch_follows (webhook_error : string -> option string)
    (s : Sys) (message : string) (tr : list Event) :
  alertsFollowReservations None tr = true ->
  alertsFollowReservations None (log (endpointCatch webhook_error s message tr))
    = true.
Proof.
  intros Hok. unfold endpointCatch. cbn [log].
  destruct (authSignalEndpoint message); [|exact Hok].
  now apply (@credentialsAlert_follows webhook_error (CONFIG s) message
               {| local := tokenExpiredNotified s; events := tr |}).
Qed.

Lemma step_follows (webhook_error : string -> option string)
    (s : Sys) (i : Input) :
  alertsFollowReservations None (snd (step webhook_error s i)) = true.
Proof.
  destruct i; cbn [step forget fst snd].
  - unfold apiProductsAdd.
    destruct (add_productId req) as [pid|]; [|reflexivity].
    destruct (negb (truthy pid)); [reflexivity|].
    match goal with |- context [if ?c then _ else _] => destruct c end;
      [reflexivity|].
    pose proof (@addPrepare_follows webhook_error (CONFIG s) cart pid
                  (add_watchedSizes req) (add_watchAll req) fetch
                  {| local := JsSet.empty; events := [] |} eq_refl) as Hp.
    destruct (addPrepare webhook_error (CONFIG s) pid (add_watchedSizes req)
                (add_watchAll req) fetch cart
                {| local := JsSet.empty; events := [] |})
      as [[[[[info sm] stockInfo] watched]|message] st]; cbn [snd] in Hp.
    + destruct (addAnswer (add_watchedSizes req) (add_watchAll req) sm (local st))
        as [answer|message]; [exact Hp|].
      now apply endpointCatch_follows.
    + now apply endpointCatch_follows.
  - unfold apiProductsDelete.
    now destruct (JsMap.has (monitoredProducts s) key).
  - unfold apiProductsSizes.
    destruct (JsMap.get (monitoredProducts s) key); [|reflexivity].
    now destruct (newSet watchedSizes0).
  - unfold apiProductsReset.
    now destruct (JsMap.get (monitoredProducts s) key).
  - reflexivity.
  - unfold apiHistoryDelete.
    now destruct (JsMap.has (productHistory s) key).
  - reflexivity.
  - unfold apiConfigDiscord. now destruct (negb (truthy webhook)).
  - unfold apiProductsFetch.
    destruct resolved as [[pid|]|message]; [|reflexivity|].
    + destruct (negb (truthy pid)); [reflexivity|].
      destruct (fetch pid); [reflexivity|].
      now apply endpointCatch_follows.
    + now apply endpointCatch_follows.
  - destruct (monitoringInterval s); [|reflexivity].
    unfold monitorAllProducts.
    destruct (JsMap.size (monitoredProducts s) =? 0)%nat; [reflexivity|].
    pose proof (@sweepEntries_follows webhook_error (CONFIG s) cart fetch
                  (monitoredProducts s)
                  {| local := tokenExpiredNotified s; events := [] |} eq_refl)
      as Hs.
    destruct (sweepEntries webhook_error (CONFIG s) fetch cart
                (monitoredProducts s)
                {| local := tokenExpiredNotified s; events := [] |})
      as [[o entries] st]. exact Hs.
Qed.

(** X3.  In every run of the process, whatever the product endpoint, the
    basket endpoint and the webhook do, a stock alert is sent only right
    after a basket call that succeeded, for the size of the alert and for
    the product its link points to: in the trace of every step, each alert
    has such a call as the event before it. *)
Theorem alerts_follow_successful_reservations
    (webhook_error : string -> option string) (s : Sys)
    (inputs : list Input) :
  Forall (fun tr => alertsFollowReservations None tr = true)
    (snd (run webhook_error s inputs)).
Proof.
  revert s. induction inputs as [|i rest IH]; intros s; cbn [run].
  - constructor.
  - pose proof (step_follows webhook_error s i) as Hs.
    destruct (step webhook_error s i) as [s1 tr]. cbn [snd] in Hs.
    specialize (IH s1).
    destruct (run webhook_error s1 rest) as [s2 trs]. cbn [snd] in *.
    now constructor.
Qed.

(** ** How often a sweep calls the basket for a watched size *)

Section WatchedCounts.
Variable webhook_error : string -> option string.
Variables (cfg : Config) (cart : CartOracle) (info : ProductInfo)
          (sm : JsObj.t SizeInfo) (stockInfo : JsObj.t StockEntry)
          (productUrl : string) (x : SizeId).
Hypothesis sink : sinkOk webhook_error cfg = true.

Lemma checkSizeEvents_counts (st : St Product) (y : SizeId) :
  count (is_reserve_of x)
    (checkSizeEvents cfg cart info sm stockInfo productUrl st y)
    = (if (y =? x) && newStockDetected (local st) stockInfo y then 1 else 0) /\
  count (is_notify_of x)
    (checkSizeEvents cfg cart info sm stockInfo productUrl st y)
    <= count (is_reserve_of x)
         (checkSizeEvents cfg cart info sm stockInfo productUrl st y).
Proof.
  unfold checkSizeEvents. cbv zeta.
  destruct (newStockDetected (local st) stockInfo y);
    [|rewrite andb_false_r; cbn; lia].
  rewrite andb_true_r. unfold count, notifyEvents.
  destruct (success (cart (events st) (productId (local st)) y));
    destruct (truthy (discordWebhook cfg));
    cbn [filter is_reserve_of is_notify_of];
    destruct (y =? x); cbn; lia.
Qed.

Lemma newStockDetected_same (p p' : Product) :
  sameButNotified p p' ->
  JsSet.has (notified p') x = JsSet.has (notified p) x ->
  newStockDetected p' stockInfo x = newStockDetected p stockInfo x.
Proof.
  intros Hs Hn. apply sameButNotified_entry in Hs as [(_ & _ & _ & Hp) _].
  unfold newStockDetected. cbv zeta. now rewrite Hp, Hn.
Qed.

(** The loop over the watched sizes calls the basket for [x] once if [x] is
    watched and shows the new-stock edge when the loop starts, and not at
    all otherwise; it sends no more alerts for [x] than it makes calls. *)
Lemma watchedLoop_counts (l : list SizeId) :
  NoDup l ->
  forall st : St Product,
  exists st',
    for_of l (checkSize webhook_error cfg cart info sm stockInfo productUrl) st
      = (Returned tt, st') /\
    sameButNotified (local st) (local st') /\
    count (is_reserve_of x) (events st') =
      count (is_reserve_of x) (events st) +
      (if JsSet.has l x && newStockDetected (local st) stockInfo x
       then 1 else 0) /\
    count (is_notify_of x) (events st') + count (is_reserve_of x) (events st)
      <= count (is_notify_of x) (events st) + count (is_reserve_of x) (events st').
Proof.
  induction 1 as [|y r Hy Hr IH]; intros st.
  - exists st. cbn. repeat split; try lia. apply sameButNotified_refl.
  - destruct (@checkSize_returns webhook_error cfg cart info sm stockInfo
                productUrl sink y st) as (st1 & E1 & Hs1 & Hev1 & _ & Ho1).
    destruct (IH st1) as (st' & E2 & Hs2 & Hc2 & Hle2).
    exists st'. split; [|split; [|split]].
    + cbn [for_of]. unfold bind. now rewrite E1.
    + eapply sameButNotified_trans; eassumption.
    + destruct (checkSizeEvents_counts st y) as [Hc1 _].
      rewrite Hc2, Hev1, count_app, Hc1. cbn [JsSet.has].
      destruct (y =? x) eqn:E.
      * apply String.eqb_eq in E. subst y.
        assert (JsSet.has r x = false) as ->
          by (destruct (JsSet.has r x) eqn:Eh; [|reflexivity];
              apply has_In in Eh; contradiction).
        cbn. lia.
      * apply String.eqb_neq in E. cbn [andb orb].
        rewrite (newStockDetected_same Hs1); [lia|].
        apply Ho1. congruence.
    + destruct (checkSizeEvents_counts st y) as [_ Hle1].
      rewrite Hev1, !count_app in Hle2. rewrite Hev1, !count_app in Hc2. lia.
Qed.

End WatchedCounts.

(** X4.  In a sweep without sink failure, for an entry in watched-sizes
    mode whose fetch succeeds, the basket is called for a size exactly once
    if the size is watched and shows the new-stock edge against the state
    the entry has when the sweep reaches it (in stock now, not in stock in
    the stored snapshot, not in [notified]), and not at all otherwise; and
    no more alerts are sent for the size than calls are made. *)
Theorem watched_size_reserved_once_per_edge
    (webhook_error : string -> option string) (cfg : Config)
    (fetch : ProductId -> FetchResult) (cart : CartOracle)
    (p : Product) (data : Payload) (x : SizeId) :
  sinkOk webhook_error cfg = true ->
  watchAll p = false ->
  NoDup (watchedSizes p) ->
  fetch (productId p) = Resolved data ->
  let stockInfo := snd (parseProduct (productId p) data) in
  let st1 := snd (monitorProduct webhook_error cfg fetch cart
                    {| local := p; events := [] |}) in
  count (is_reserve_of x) (events st1) =
    (if JsSet.has (watchedSizes p) x && newStockDetected p stockInfo x
     then 1 else 0) /\
  count (is_notify_of x) (events st1) <= count (is_reserve_of x) (events st1).
Proof.
  intros Hsink Hmode Hnd Hf. cbv zeta.
  pose proof (@monitorProduct_watchSizes webhook_error cfg fetch cart
                {| local := p; events := [] |}) as Hm.
  cbn [local] in Hm.
  destruct (parseProduct (productId p) data) as [[info sm] stockInfo] eqn:Ep.
  cbn [snd].
  destruct (@watchedLoop_counts webhook_error cfg cart info sm stockInfo
              (productUrlOf (productId p)) x Hsink (watchedSizes p) Hnd
              {| local := p; events := [] |})
    as (st' & E & _ & Hc & Hle).
  specialize (Hm st' data Hmode Hf). rewrite Ep in Hm.
  rewrite (Hm E). cbn [snd events local] in *.
  unfold count in *. cbn [filter length] in *. split; lia.
Qed.

Lemma watched_size_reserved_once_per_edge_witness :
  let st1 := snd (monitorProduct Sample.url (Sample.config Sample.hook)
                    (Sample.upstream ["38"; "40"]) (Sample.basket true)
                    {| local := Sample.entry38; events := [] |}) in
  (count (is_reserve_of "38") (events st1) = 1 /\
   count (is_notify_of "38") (events st1) <= count (is_reserve_of "38") (events st1))
  /\
  (count (is_reserve_of "40") (events st1) = 0 /\
   count (is_notify_of "40") (events st1) <= count (is_reserve_of "40") (events st1)).
Proof.
  split.
  - apply (@watched_size_reserved_once_per_edge Sample.url
             (Sample.config Sample.hook) (Sample.upstream ["38"; "40"])
             (Sample.basket true) Sample.entry38 (Sample.payload ["38"; "40"])
             "38"); try reflexivity.
    repeat constructor. intros [].
  - apply (@watched_size_reserved_once_per_edge Sample.url
             (Sample.config Sample.hook) (Sample.upstream ["38"; "40"])
             (Sample.basket true) Sample.entry38 (Sample.payload ["38"; "40"])
             "40"); try reflexivity.
    repeat constructor. intros [].
Defined.

(** X5.  A watched size is re-armed by its absence: when a sweep (without
    sink failure) finds a watched size out of stock, it makes no basket call
    for it and leaves it out of [notified]; and the next sweep of the entry
    that finds the size in stock calls the basket for it exactly once,
    whatever the first sweep did for the other sizes. *)
Theorem watched_size_rearmed_by_absence
    (webhook_error : string -> option string) (cfg : Config)
    (fetch1 fetch2 : ProductId -> FetchResult) (cart1 cart2 : CartOracle)
    (p : Product) (data1 data2 : Payload) (x : SizeId) :
  sinkOk webhook_error cfg = true ->
  watchAll p = false ->
  NoDup (watchedSizes p) ->
  In x (watchedSizes p) ->
  fetch1 (productId p) = Resolved data1 ->
  inStockOf (JsObj.get (snd (parseProduct (productId p) data1)) x) = false ->
  fetch2 (productId p) = Resolved data2 ->
  inStockOf (JsObj.get (snd (parseProduct (productId p) data2)) x) = true ->
  let st1 := snd (monitorProduct webhook_error cfg fetch1 cart1
                    {| local := p; events := [] |}) in
  let st2 := snd (monitorProduct webhook_error cfg fetch2 cart2
                    {| local := local st1; events := [] |}) in
  count (is_reserve_of x) (events st1) = 0 /\
  JsSet.has (notified (local st1)) x = false /\
  count (is_reserve_of x) (events st2) = 1.
Proof.
  intros Hsink Hmode Hnd Hin Hf1 Hout Hf2 Hback. cbv zeta.
  pose proof (@monitorProduct_returns webhook_error cfg fetch1 cart1 Hsink
                {| local := p; events := [] |} data1 Hf1) as Hr.
  pose proof (@monitorProduct_watchSizes webhook_error cfg fetch1 cart1
                {| local := p; events := [] |}) as Hm1.
  cbn [local] in Hr, Hm1.
  destruct (parseProduct (productId p) data1) as [[info1 sm1] stock1] eqn:Ep1.
  cbn [snd] in Hout.
  destruct Hr as (st1 & E1 & Hpid & Hw & Hall & Hprev & _ & _ & _ & Hnot).
  destruct (@watchedLoop_counts webhook_error cfg cart1 info1 sm1 stock1
              (productUrlOf (productId p)) x Hsink (watchedSizes p) Hnd
              {| local := p; events := [] |})
    as (st' & E & _ & Hc & _).
  specialize (Hm1 st' data1 Hmode Hf1). rewrite Ep1 in Hm1.
  specialize (Hm1 E). rewrite E1 in Hm1. injection Hm1 as Hst1.
  rewrite E1. cbn [snd].
  assert (JsSet.has (notified (local st1)) x = false) as Hn1.
  { destruct (JsSet.has (notified (local st1)) x) eqn:En; [|reflexivity].
    specialize (Hnot x Hin En). congruence. }
  assert (count (is_reserve_of x) (events st1) = 0) as Hc1.
  { rewrite Hst1. cbn [events]. rewrite Hc.
    unfold newStockDetected. cbv zeta. cbn [local]. rewrite Hout.
    cbn [andb]. rewrite andb_false_r. reflexivity. }
  split; [exact Hc1|split; [exact Hn1|]].
  pose proof (@monitorProduct_watchSizes webhook_error cfg fetch2 cart2
                {| local := local st1; events := [] |}) as Hm2.
  cbn [local] in Hm2.
  destruct (parseProduct (productId p) data2) as [[info2 sm2] stock2] eqn:Ep2.
  cbn [snd] in Hback.
  assert (NoDup (watchedSizes (local st1))) as Hnd1 by now rewrite Hw.
  destruct (@watchedLoop_counts webhook_error cfg cart2 info2 sm2 stock2
              (productUrlOf (productId p)) x Hsink (watchedSizes (local st1))
              Hnd1 {| local := local st1; events := [] |})
    as (st2' & E2 & _ & Hc2 & _).
  assert (fetch2 (productId (local st1)) = Resolved data2) as Hf2'
    by now rewrite Hpid.
  assert (watchAll (local st1) = false) as Hmode1 by congruence.
  specialize (Hm2 st2' data2 Hmode1 Hf2').
  rewrite Hpid, Ep2 in Hm2.
  rewrite (Hm2 E2). cbn [snd events]. rewrite Hc2. cbn [events local].
  assert (JsSet.has (watchedSizes (local st1)) x = true) as ->
    by (apply has_In; now rewrite Hw).
  unfold newStockDetected. cbv zeta. rewrite Hprev, Hout, Hback, Hn1.
  reflexivity.
Qed.

Lemma watched_size_rearmed_by_absence_witness :
  let st1 := snd (monitorProduct Sample.url (Sample.config Sample.hook)
                    (Sample.upstream ["40"]) (Sample.basket true)
                    {| local := Sample.entry38; events := [] |}) in
  let st2 := snd (monitorProduct Sample.url (Sample.config Sample.hook)
                    (Sample.upstream ["38"]) (Sample.basket false)
                    {| local := local st1; events := [] |}) in
  count (is_reserve_of "38") (events st1) = 0 /\
  JsSet.has (notified (local st1)) "38" = false /\
  count (is_reserve_of "38") (events st2) = 1.
Proof.
  apply (@watched_size_rearmed_by_absence Sample.url
           (Sample.config Sample.hook) (Sample.upstream ["40"])
           (Sample.upstream ["38"]) (Sample.basket true) (Sample.basket false)
           Sample.entry38 (Sample.payload ["40"]) (Sample.payload ["38"]) "38");
    try reflexivity.
  - repeat constructor. intros [].
  - now left.
Defined.

(** ** The restock edge after the sizes have gone *)

Lemma restockLoop_first_call (webhook_error : string -> option string)
    (cfg : Config) (cart : CartOracle) (info : ProductInfo)
    (productUrl : string) (k : SizeId) (i : SizeInfo)
    (rest : list (SizeId * SizeInfo)) (p : Product) :
  exists added,
    events (snd (restockLoop webhook_error cfg cart info productUrl
                   ((k, i) :: rest) false {| local := p; events := [] |}))
      = Reserve (productId p) k (success (cart [] (productId p) k)) :: added.
Proof.
  cbn [restockLoop negb]. unfold bind, get_local, addToCart.
  cbn [fst snd local events app].
  destruct (success (cart [] (productId p) k)) eqn:Es.
  - destruct (sendDiscordNotification_any webhook_error cfg info k (size i) 1
                productUrl
                {| local := p; events := [Reserve (productId p) k true] |})
      as (o & added & -> & _).
    cbn [events app]. destruct o as [[]|message]; cbn [snd events].
    + unfold modify. cbn [fst snd local events].
      rewrite restockLoop_added. cbn [snd events]. eauto.
    + eauto.
  - destruct (@restockLoop_shape webhook_error cfg cart info productUrl rest
                {| local := p; events := [Reserve (productId p) k false] |})
      as (added & Hev & _).
    cbn [events app] in Hev. rewrite Hev. eauto.
Qed.

(** X6.  The restock edge of an entry in [watchAll] mode is re-armed by a
    sweep that finds the product without sizes: that sweep calls nothing,
    clears [hadSizes], and empties [notified] if the product had sizes
    before; the next sweep of the entry that finds sizes starts with a
    basket call for the first size in enumeration order. *)
Theorem restock_edge_rearmed_by_absence
    (webhook_error : string -> option string) (cfg : Config)
    (fetch1 fetch2 : ProductId -> FetchResult) (cart1 cart2 : CartOracle)
    (p : Product) (data1 data2 : Payload) (k : SizeId) (others : list SizeId) :
  watchAll p = true ->
  watchedSizes p = [] ->
  fetch1 (productId p) = Resolved data1 ->
  hasSizesOf (snd (fst (parseProduct (productId p) data1))) = false ->
  fetch2 (productId p) = Resolved data2 ->
  JsObj.keys (snd (fst (parseProduct (productId p) data2))) = k :: others ->
  let st1 := snd (monitorProduct webhook_error cfg fetch1 cart1
                    {| local := p; events := [] |}) in
  let st2 := snd (monitorProduct webhook_error cfg fetch2 cart2
                    {| local := local st1; events := [] |}) in
  events st1 = [] /\
  hadSizes (local st1) = false /\
  (hadSizes p = true -> notified (local st1) = JsSet.empty) /\
  (hadSizes p = false -> notified (local st1) = notified p) /\
  exists added,
    events st2
      = Reserve (productId p) k (success (cart2 [] (productId p) k)) :: added.
Proof.
  intros Hall Hw Hf1 Hno Hf2 Hkeys. cbv zeta.
  assert (exists p1,
            snd (monitorProduct webhook_error cfg fetch1 cart1
                   {| local := p; events := [] |})
              = {| local := p1; events := [] |} /\
            productId p1 = productId p /\ watchAll p1 = true /\
            watchedSizes p1 = [] /\ hadSizes p1 = false /\
            (hadSizes p = true -> notified p1 = JsSet.empty) /\
            (hadSizes p = false -> notified p1 = notified p))
    as (p1 & -> & Hpid & Hall1 & Hw1 & Hhad1 & Hn1 & Hn2).
  { rewrite (@monitorProduct_resolved webhook_error cfg fetch1 cart1
               {| local := p; events := [] |} data1 Hf1).
    cbn [local]. unfold afterFetch.
    destruct (parseProduct (productId p) data1) as [[info1 sm1] stock1].
    cbn [fst snd] in Hno.
    unfold watchAllBranch, bind, get_local, modify, ret, restockDetected.
    cbn [fst snd local events]. rewrite Hall, Hno, andb_false_r.
    destruct (hadSizes p) eqn:Eh;
      cbn [andb negb fst snd local events with_hadSizes with_notified
             watchedSizes JsSet.elements];
      unfold JsSet.elements; rewrite Hw; cbn [for_of]; unfold ret;
      cbn [fst snd local events];
      eexists; (split; [reflexivity|]); cbn; auto 10; repeat split; auto;
      intros; congruence. }
  cbn [local events].
  split; [reflexivity|]. split; [exact Hhad1|].
  split; [exact Hn1|]. split; [exact Hn2|].
  assert (fetch2 (productId p1) = Resolved data2) as Hf2' by now rewrite Hpid.
  pose proof (@monitorProduct_restock webhook_error cfg fetch2 cart2
                {| local := p1; events := [] |} data2 Hall1 Hw1 Hf2') as Hr.
  cbn [local] in Hr. rewrite Hpid in Hr.
  destruct (parseProduct (productId p) data2) as [[info2 sm2] stock2].
  cbn [fst snd] in Hkeys.
  assert (restockDetected p1 (hasSizesOf sm2) = true) as Hedge.
  { unfold restockDetected, hasSizesOf. now rewrite Hhad1, Hkeys. }
  destruct (Hr Hedge) as [Hev _]. rewrite Hev.
  unfold JsObj.keys in Hkeys.
  destruct (JsObj.entries sm2) as [|[k' i] rest]; [discriminate|].
  cbn [map fst] in Hkeys. injection Hkeys as -> _.
  rewrite <- Hpid. apply restockLoop_first_call.
Qed.

Lemma restock_edge_rearmed_by_absence_witness :
  let st1 := snd (monitorProduct Sample.url (Sample.config Sample.hook)
                    (Sample.upstream []) (Sample.basket true)
                    {| local := with_hadSizes true Sample.entryAny;
                       events := [] |}) in
  let st2 := snd (monitorProduct Sample.url (Sample.config Sample.hook)
                    (Sample.upstream ["42"; "38"]) (Sample.basket true)
                    {| local := local st1; events := [] |}) in
  events st1 = [] /\
  hadSizes (local st1) = false /\
  (true = true -> notified (local st1) = JsSet.empty) /\
  (true = false -> notified (local st1) = []) /\
  exists added, events st2 = Reserve "1" "38" true :: added.
Proof.
  apply (@restock_edge_rearmed_by_absence Sample.url
           (Sample.config Sample.hook) (Sample.upstream [])
           (Sample.upstream ["42"; "38"]) (Sample.basket true)
           (Sample.basket true) (with_hadSizes true Sample.entryAny)
           (Sample.payload []) (Sample.payload ["42"; "38"]) "38" ["42"]);
    reflexivity.
Defined.

(** ** The add handler *)

Lemma add_validation (req : AddBody) :
  negb (add_watchAll req) &&
    (negb (wsTruthy (add_watchedSizes req))
     || negb (wsIsArray (add_watchedSizes req))
     || negb (lengthPositive (add_watchedSizes req)))
  = negb (add_watchAll req) &&
      negb (wsIsArray (add_watchedSizes req)
            && lengthPositive (add_watchedSizes req)).
Proof.
  destruct (add_watchAll req); [reflexivity|].
  destruct (add_watchedSizes req) as [|l|chars|b m]; cbn; try reflexivity.
  - now destruct chars.
  - now destruct b.
Qed.

Lemma add_invalid (webhook_error : string -> option string) (s : Sys)
    (req : AddBody) (now1 now2 : Timestamp) :
  negb (optTruthy (add_productId req))
    || negb (add_watchAll req) &&
       negb (wsIsArray (add_watchedSizes req)
             && lengthPositive (add_watchedSizes req)) = true ->
  exists error,
    forall fetch cart,
      apiProductsAdd webhook_error s req fetch cart now1 now2
        = {| result := respond 400 (ErrorBody error); state := s; log := [] |}.
Proof.
  rewrite <- add_validation. unfold apiProductsAdd, optTruthy.
  destruct (add_productId req) as [pid|]; [|eauto].
  destruct (truthy pid); cbn [negb orb]; [|eauto].
  intros ->. eauto.
Qed.

Lemma add_valid (webhook_error : string -> option string) (s : Sys)
    (req : AddBody) (fetch : ProductId -> FetchResult) (cart : CartOracle)
    (now1 now2 : Timestamp) :
  negb (optTruthy (add_productId req))
    || negb (add_watchAll req) &&
       negb (wsIsArray (add_watchedSizes req)
             && lengthPositive (add_watchedSizes req)) = false ->
  status (result (apiProductsAdd webhook_error s req fetch cart now1 now2))
    <> 400.
Proof.
  rewrite <- add_validation. unfold apiProductsAdd, optTruthy.
  destruct (add_productId req) as [pid|]; [|discriminate].
  destruct (truthy pid); cbn [negb orb]; [|discriminate].
  intros ->.
  destruct (addPrepare webhook_error (CONFIG s) pid (add_watchedSizes req)
              (add_watchAll req) fetch cart
              {| local := JsSet.empty; events := [] |})
    as [[[[[info sm] stockInfo] watched]|message] st]; [|cbn; discriminate].
  unfold addAnswer.
  destruct (wsTruthy (add_watchedSizes req)
            && negb (wsIsArray (add_watchedSizes req))); cbn; discriminate.
Qed.

(** X7.  The add handler answers 400 exactly for a request without a
    product id, or without [watchAll] and with anything but a non-empty
    array as [watchedSizes]; such a request changes nothing, sends nothing,
    and is answered without regard to the product endpoint and the basket. *)
Theorem add_rejects_invalid_requests_unchanged
    (webhook_error : string -> option string) (s : Sys) (req : AddBody)
    (fetch : ProductId -> FetchResult) (cart : CartOracle)
    (now1 now2 : Timestamp) :
  let r := apiProductsAdd webhook_error s req fetch cart now1 now2 in
  let field := add_watchedSizes req in
  let invalid :=
    negb (optTruthy (add_productId req))
    || negb (add_watchAll req)
       && negb (wsIsArray field && lengthPositive field) in
  (status (result r) = 400 <-> invalid = true) /\
  (status (result r) = 400 ->
   state r = s /\ log r = [] /\
   forall fetch' cart',
     apiProductsAdd webhook_error s req fetch' cart' now1 now2 = r).
Proof.
  cbv zeta.
  destruct (negb (optTruthy (add_productId req))
            || negb (add_watchAll req)
               && negb (wsIsArray (add_watchedSizes req)
                        && lengthPositive (add_watchedSizes req))) eqn:Ev.
  - destruct (add_invalid webhook_error s req now1 now2 Ev) as [error H].
    rewrite (H fetch cart). cbn. repeat split. intros f c. apply H.
  - pose proof (add_valid webhook_error s req fetch cart now1 now2 Ev) as H.
    split; [split; [contradiction|discriminate]|contradiction].
Qed.

Section AddNotified.
Variable webhook_error : string -> option string.
Variables (cfg : Config) (cart : CartOracle) (pid : ProductId).

Lemma reserveAtAdd_notified info x name q url (rest : Proc JsSet.t unit) :
  preserves (notifiedReserved pid) rest ->
  preserves (notifiedReserved pid)
    (cartResult <- addToCart cart pid x ;;
     if success cartResult then
       sendDiscordNotification webhook_error cfg info x name q url ;;;
       modify (JsSet.add x)
     else rest).
Proof.
  intros Hrest st Hinv.
  assert (forall l tr,
            (tr = events st ++ [Reserve pid x true] \/
             tr = (events st ++ [Reserve pid x true])
                    ++ [Notify info x name q url]) ->
            (l = local st \/ l = JsSet.add x (local st)) ->
            notifiedReserved pid {| local := l; events := tr |}) as Hadd.
  { intros l tr Htr Hl y Hy. cbn [local events] in *.
    assert (In (Reserve pid x true) tr) as Hx
      by (destruct Htr as [-> | ->]; rewrite ?in_app_iff; cbn; tauto).
    assert (JsSet.has (local st) y = true -> In (Reserve pid y true) tr) as Hold
      by (intros H; apply Hinv in H;
          destruct Htr as [-> | ->]; rewrite ?in_app_iff; tauto).
    destruct Hl as [-> | ->]; [auto|].
    rewrite has_add in Hy. apply orb_true_iff in Hy as [Hy|Hy]; [|auto].
    apply String.eqb_eq in Hy. now subst y. }
  unfold bind, addToCart, sendDiscordNotification, modify, emit, throw, ret.
  cbn [fst snd local events].
  destruct (success (cart (events st) pid x)) eqn:Es.
  - destruct (negb (truthy (discordWebhook cfg)));
      [|destruct (webhook_error (discordWebhook cfg))];
      cbn [fst snd local events]; apply Hadd; auto.
  - apply Hrest. intros y Hy. cbn [local events] in *.
    rewrite in_app_iff. left. now apply Hinv.
Qed.

Lemma addRestockLoop_notified info url entries :
  preserves (notifiedReserved pid)
    (addRestockLoop webhook_error cfg cart pid info url entries).
Proof.
  induction entries as [|[sizeId sizeInfo] rest IH]; [apply preserves_ret|].
  cbn [addRestockLoop]. now apply reserveAtAdd_notified.
Qed.

Lemma addPrepare_notified field all fetch :
  preserves (notifiedReserved pid)
    (addPrepare webhook_error cfg pid field all fetch cart).
Proof.
  unfold addPrepare.
  apply preserves_bind.
  { unfold fetchProductDetails.
    destruct (fetch pid); [apply preserves_ret|apply preserves_throw]. }
  intros [[info sm] stockInfo].
  apply preserves_bind.
  { destruct (all && hasSizesOf sm);
      [apply addRestockLoop_notified|apply preserves_ret]. }
  intros _. apply preserves_bind.
  { destruct (wsTruthy field && lengthPositive field); [|apply preserves_ret].
    destruct (wsIterate field); [|apply preserves_throw].
    apply preserves_for_of. intros x _. unfold addCheckSize.
    destruct (inStockOf (JsObj.get stockInfo x)); [|apply preserves_ret].
    apply reserveAtAdd_notified, preserves_ret. }
  intros _.
  destruct (if wsTruthy field then newSet field else Returned JsSet.empty);
    [apply preserves_ret|apply preserves_throw].
Qed.

(** What the handler has in hand when [addPrepare] returns. *)
Lemma addPrepare_returned field all fetch (st0 st : St JsSet.t)
    (snapshot : Snapshot) (watched : JsSet.t) :
  addPrepare webhook_error cfg pid field all fetch cart st0
    = (Returned (snapshot, watched), st) ->
  exists data,
    fetch pid = Resolved data /\
    snapshot = parseProduct pid data /\
    (if wsTruthy field then newSet field else Returned JsSet.empty)
      = Returned watched.
Proof.
  unfold addPrepare, fetchProductDetails.
  destruct (fetch pid) as [data|message]; [|discriminate].
  unfold bind at 1. unfold ret at 1.
  destruct (parseProduct pid data) as [[info sm] stockInfo] eqn:Ep.
  unfold bind at 1.
  match goal with |- context [match ?m st0 with _ => _ end] =>
    destruct (m st0) as [[u|message] st1] end; [|discriminate].
  unfold bind at 1.
  match goal with |- context [match ?m st1 with _ => _ end] =>
    destruct (m st1) as [[u2|message] st2] end; [|discriminate].
  destruct (if wsTruthy field then newSet field else Returned JsSet.empty)
    as [w|message]; [|discriminate].
  unfold ret. intros H. injection H as <- <- _.
  exists data. now rewrite Ep.
Qed.

End AddNotified.

(** X8.  After an add that is answered 200, the registry holds under the
    product id an entry with that id, the requested mode, the snapshot the
    product endpoint answered, [hadSizes] telling whether that snapshot has
    sizes, and as watched sizes the set of the requested array; a size is
    in its [notified] only if a basket call for it succeeded during the
    add; the timer is set; and a sweep of the entry that gets the same
    answer from the product endpoint calls nothing (sink failure apart). *)
Theorem added_entry_stores_the_observed_snapshot
    (webhook_error : string -> option string) (s : Sys) (req : AddBody)
    (fetch : ProductId -> FetchResult) (cart : CartOracle)
    (now1 now2 : Timestamp) :
  let r := apiProductsAdd webhook_error s req fetch cart now1 now2 in
  status (result r) = 200 ->
  exists pid data p,
    add_productId req = Some pid /\
    fetch pid = Resolved data /\
    JsMap.get (monitoredProducts (state r)) pid = Some p /\
    productId p = pid /\
    watchAll p = add_watchAll req /\
    (productInfo p, sizeMapping p, previousStock p) = parseProduct pid data /\
    hadSizes p = hasSizesOf (sizeMapping p) /\
    (forall l, add_watchedSizes req = WsArray l ->
               watchedSizes p = JsSet.of_list l) /\
    (forall x, JsSet.has (notified p) x = true ->
               In (Reserve pid x true) (log r)) /\
    monitoringInterval (state r) <> None /\
    (forall cfg cart' tr,
       sinkOk webhook_error cfg = true ->
       events (snd (monitorProduct webhook_error cfg fetch cart'
                      {| local := p; events := tr |})) = tr).
Proof.
  cbv zeta. unfold apiProductsAdd.
  destruct (add_productId req) as [pid|]; [|cbn; discriminate].
  destruct (negb (truthy pid)); [cbn; discriminate|].
  match goal with |- context [if ?c then _ else _] => destruct c end;
    [cbn; discriminate|].
  pose proof (@addPrepare_notified webhook_error (CONFIG s) cart pid
                (add_watchedSizes req) (add_watchAll req) fetch
                {| local := JsSet.empty; events := [] |}) as Hn.
  pose proof (@addPrepare_returned webhook_error (CONFIG s) cart pid
                (add_watchedSizes req) (add_watchAll req) fetch
                {| local := JsSet.empty; events := [] |}) as Hr.
  destruct (addPrepare webhook_error (CONFIG s) pid (add_watchedSizes req)
              (add_watchAll req) fetch cart
              {| local := JsSet.empty; events := [] |})
    as [[[[[info sm] stockInfo] watched]|message] st];
    [|cbn; discriminate].
  destruct (Hr st (info, sm, stockInfo) watched eq_refl)
    as (data & Hf & Hsnap & Hw).
  cbn [snd] in Hn.
  assert (notifiedReserved pid st) as Hnot
    by (apply Hn; intros x Hx; discriminate).
  match goal with |- context [startMonitoring ?x] =>
    destruct (startMonitoring_running x) as (Hrun & Hreg & _ & _);
    set (s3 := startMonitoring x) in * end.
  destruct (addAnswer (add_watchedSizes req) (add_watchAll req) sm (local st))
    as [answer|message]; [|cbn; discriminate].
  cbn [result state log]. intros _.
  exists pid, data.
  eexists. split; [reflexivity|]. split; [exact Hf|].
  split; [rewrite Hreg; cbn; apply map_get_set_same|].
  cbn [productId watchAll productInfo sizeMapping previousStock hadSizes
         watchedSizes notified].
  split; [reflexivity|]. split; [reflexivity|]. split; [exact Hsnap|].
  split; [reflexivity|]. split.
  { intros l El. rewrite El in Hw. cbn in Hw. congruence. }
  split; [exact Hnot|]. split; [exact Hrun|].
  intros cfg cart' tr Hsink.
  apply (@monitorProduct_quiet webhook_error cfg fetch cart' Hsink
           {| local := _; events := tr |}).
  unfold settled. cbn [local productId previousStock watchAll hadSizes].
  rewrite Hf, <- Hsnap. cbn [fst snd]. auto.
Qed.

Lemma added_entry_stores_the_observed_snapshot_witness :
  let r := apiProductsAdd Sample.url (initial (Sample.config Sample.hook))
             (Sample.watchSizes "1" ["38"; "40"; "38"])
             (Sample.upstream ["38"]) (Sample.basket true) "t0" "t0" in
  status (result r) = 200 /\
  exists pid data p,
    add_productId (Sample.watchSizes "1" ["38"; "40"; "38"]) = Some pid /\
    Sample.upstream ["38"] pid = Resolved data /\
    JsMap.get (monitoredProducts (state r)) pid = Some p /\
    productId p = pid /\
    watchAll p = false /\
    (productInfo p, sizeMapping p, previousStock p) = parseProduct pid data /\
    hadSizes p = hasSizesOf (sizeMapping p) /\
    (forall l, WsArray ["38"; "40"; "38"] = WsArray l ->
               watchedSizes p = JsSet.of_list l) /\
    (forall x, JsSet.has (notified p) x = true ->
               In (Reserve pid x true) (log r)) /\
    monitoringInterval (state r) <> None /\
    (forall cfg cart' tr,
       sinkOk Sample.url cfg = true ->
       events (snd (monitorProduct Sample.url cfg (Sample.upstream ["38"]) cart'
                      {| local := p; events := tr |})) = tr).
Proof.
  split; [reflexivity|].
  apply (@added_entry_stores_the_observed_snapshot Sample.url
           (initial (Sample.config Sample.hook))
           (Sample.watchSizes "1" ["38"; "40"; "38"])
           (Sample.upstream ["38"]) (Sample.basket true) "t0" "t0").
  reflexivity.
Defined.

(** X9.  An add in watched-sizes mode (valid request, fetch succeeded, no
    sink failure) is answered 200 and calls the basket once for every
    element of the requested array that the snapshot has in stock, in the
    order of the array and as often as the element is repeated in it,
    whether the calls before succeeded or not. *)
Theorem add_reserves_each_requested_size_in_stock
    (webhook_error : string -> option string) (s : Sys)
    (pid : ProductId) (l : list SizeId)
    (fetch : ProductId -> FetchResult) (cart : CartOracle)
    (now1 now2 : Timestamp) (data : Payload) :
  sinkOk webhook_error (CONFIG s) = true ->
  truthy pid = true ->
  l <> [] ->
  fetch pid = Resolved data ->
  let req := {| add_productId := Some pid; add_watchedSizes := WsArray l;
                add_watchAll := false |} in
  let r := apiProductsAdd webhook_error s req fetch cart now1 now2 in
  let stockInfo := snd (parseProduct pid data) in
  status (result r) = 200 /\
  map reservedSize (filter is_reserve (log r))
    = filter (fun x => inStockOf (JsObj.get stockInfo x)) l.
Proof.
  intros Hsink Hpid Hl Hf. cbv zeta.
  assert (lengthPositive (WsArray l) = true) as Hlen
    by (destruct l; [congruence|reflexivity]).
  destruct (parseProduct pid data) as [[info sm] stockInfo] eqn:Ep.
  destruct (@addWatchedLoop_calls webhook_error (CONFIG s) cart pid info sm
              stockInfo (productUrlOf pid) Hsink l
              {| local := JsSet.empty; events := [] |}) as (st' & E & Hc).
  assert (addPrepare webhook_error (CONFIG s) pid (WsArray l) false fetch cart
            {| local := JsSet.empty; events := [] |}
          = (Returned (info, sm, stockInfo, JsSet.of_list l), st')) as Hp.
  { unfold addPrepare, fetchProductDetails. rewrite Hf, Ep.
    cbn [andb wsTruthy wsIterate newSet]. rewrite Hlen.
    unfold bind, ret. cbv beta iota. now rewrite E. }
  unfold apiProductsAdd.
  cbn [add_productId add_watchedSizes add_watchAll].
  rewrite Hpid. cbn [negb andb orb wsTruthy wsIsArray].
  rewrite Hlen. cbn [negb andb orb]. rewrite Hp.
  unfold addAnswer. cbn [wsTruthy wsIsArray negb andb].
  cbn [result log status respond snd]. split; [reflexivity|exact Hc].
Qed.

Lemma add_reserves_each_requested_size_in_stock_witness :
  let r := apiProductsAdd Sample.url (initial (Sample.config Sample.hook))
             {| add_productId := Some "1";
                add_watchedSizes := WsArray ["38"; "40"; "38"];
                add_watchAll := false |}
             (Sample.upstream ["38"; "42"]) (Sample.basket false) "t0" "t0" in
  status (result r) = 200 /\
  map reservedSize (filter is_reserve (log r)) = ["38"; "38"].
Proof.
  apply (@add_reserves_each_requested_size_in_stock Sample.url
           (initial (Sample.config Sample.hook)) "1" ["38"; "40"; "38"]
           (Sample.upstream ["38"; "42"]) (Sample.basket false) "t0" "t0"
           (Sample.payload ["38"; "42"]));
    try reflexivity.
  discriminate.
Defined.

(** ** What a sweep leaves of an entry *)

(** X10.  A sweep, however it ends, keeps the entries of the registry in
    their places, each under its key and with its product id, its watched
    sizes and its mode; it leaves an entry whose fetch is rejected exactly
    as it was; and it touches neither the history, the timer nor the
    configuration. *)
Theorem sweep_keeps_identity_and_mode
    (webhook_error : string -> option string) (s : Sys)
    (fetch : ProductId -> FetchResult) (cart : CartOracle) :
  let r := monitorAllProducts webhook_error s fetch cart in
  Forall2
    (fun kp kp' =>
       fst kp' = fst kp /\ sameIdentity (snd kp) (snd kp') /\
       (forall message, fetch (productId (snd kp)) = Rejected message ->
                        snd kp' = snd kp))
    (monitoredProducts s) (monitoredProducts (state r)) /\
  productHistory (state r) = productHistory s /\
  monitoringInterval (state r) = monitoringInterval s /\
  CONFIG (state r) = CONFIG s.
Proof.
  cbv zeta.
  destruct (monitorAllProducts_frame webhook_error s fetch cart)
    as (_ & Hh & Hi & Hc).
  split; [apply monitorAllProducts_identity|auto].
Qed.

(** ** The invariant of the stored state *)

Section StoreFacts.
Variable V : Type.
Variable Q : string * V -> Prop.

Lemma map_Forall_set (m : JsMap.t V) k v :
  Forall Q m -> Q (k, v) -> Forall Q (JsMap.set m k v).
Proof.
  intros Hm Hq. induction m as [|[k' v'] r IH]; cbn.
  - now constructor.
  - inversion Hm; subst. destruct (k' =? k) eqn:E.
    + apply String.eqb_eq in E. subst k'. now constructor.
    + constructor; auto.
Qed.

Lemma map_Forall_delete (m : JsMap.t V) k :
  Forall Q m -> Forall Q (JsMap.delete m k).
Proof.
  intros Hm. induction m as [|[k' v'] r IH]; cbn; [constructor|].
  inversion Hm; subst. destruct (k' =? k); [auto|constructor; auto].
Qed.

Lemma map_get_In (m : JsMap.t V) k v : JsMap.get m k = Some v -> In (k, v) m.
Proof.
  induction m as [|[k' v'] r IH]; cbn; [discriminate|].
  destruct (k' =? k) eqn:E.
  - apply String.eqb_eq in E. intros H. injection H as ->. subst. now left.
  - intros H. right. auto.
Qed.

End StoreFacts.

Lemma storeOk_same (s s' : Sys) :
  monitoredProducts s' = monitoredProducts s ->
  productHistory s' = productHistory s ->
  monitoringInterval s' = monitoringInterval s ->
  CONFIG s' = CONFIG s ->
  storeOk s -> storeOk s'.
Proof.
  intros Hm Hh Hi Hc (H1 & H2 & H3). unfold storeOk.
  rewrite Hm, Hh, Hi, Hc. auto.
Qed.

Lemma storeOk_startMonitoring (s : Sys) : storeOk s -> storeOk (startMonitoring s).
Proof.
  intros Hok. unfold startMonitoring.
  destruct (monitoringInterval s) eqn:E; [exact Hok|].
  destruct Hok as (H1 & H2 & H3).
  repeat split; cbn; auto. intros i Hi. now injection Hi as <-.
Qed.

Lemma storeOk_stopMonitoring (s : Sys) : storeOk s -> storeOk (stopMonitoring s).
Proof.
  intros Hok. unfold stopMonitoring.
  destruct (monitoringInterval s) eqn:E; [|exact Hok].
  destruct Hok as (H1 & H2 & H3).
  repeat split; cbn; auto. discriminate.
Qed.

Lemma newSet_NoDup (field : WatchedSizesField) (watched : JsSet.t) :
  newSet field = Returned watched -> NoDup watched.
Proof.
  destruct field; cbn; intros H; try discriminate; injection H as <-;
    try apply of_list_NoDup. constructor.
Qed.

Lemma entryOk_identity (entries entries' : list (string * Product)) :
  Forall2 (fun kp kp' => fst kp' = fst kp /\ sameIdentity (snd kp) (snd kp'))
    entries entries' ->
  Forall entryOk entries -> Forall entryOk entries'.
Proof.
  induction 1 as [|kp kp' r r' (Hk & Hp & Hw & _) Hr IH]; intros Ho;
    [constructor|].
  inversion Ho as [|? ? [Hid Hnd] Hrest]; subst. constructor; [|auto].
  unfold entryOk. rewrite Hk, Hp, Hw. auto.
Qed.

Lemma step_storeOk (webhook_error : string -> option string)
    (s : Sys) (i : Input) :
  storeOk s -> storeOk (fst (step webhook_error s i)).
Proof.
  intros Hok. destruct i; cbn [step forget fst].
  - (* add *)
    unfold apiProductsAdd.
    destruct (add_productId req) as [pid|]; [|exact Hok].
    destruct (negb (truthy pid)); [exact Hok|].
    match goal with |- context [if ?c then _ else _] => destruct c end;
      [exact Hok|].
    pose proof (@addPrepare_returned webhook_error (CONFIG s) cart pid
                  (add_watchedSizes req) (add_watchAll req) fetch
                  {| local := JsSet.empty; events := [] |}) as Hr.
    destruct (addPrepare webhook_error (CONFIG s) pid (add_watchedSizes req)
                (add_watchAll req) fetch cart
                {| local := JsSet.empty; events := [] |})
      as [[[[[info sm] stockInfo] watched]|message] st].
    + destruct (Hr st (info, sm, stockInfo) watched eq_refl)
        as (data & _ & _ & Hw).
      assert (NoDup watched) as Hnd.
      { destruct (wsTruthy (add_watchedSizes req));
          [now apply newSet_NoDup in Hw|].
        injection Hw as <-. constructor. }
      match goal with |- context [startMonitoring ?x] =>
        assert (storeOk (startMonitoring x)) as Hs3 end.
      { apply storeOk_startMonitoring. destruct Hok as (H1 & H2 & H3).
        split; [|split].
        - cbn. apply map_Forall_set; [exact H1|]. now split.
        - cbn. unfold addToHistory. apply map_Forall_set; [exact H2|].
          reflexivity.
        - exact H3. }
      destruct (addAnswer (add_watchedSizes req) (add_watchAll req) sm
                  (local st)) as [answer|message]; [exact Hs3|].
      match goal with |- context [endpointCatch _ ?x ?m ?t] =>
        destruct (endpointCatch_frame webhook_error x m t)
          as (F1 & F2 & F3 & F4 & _) end.
      eapply storeOk_same; eauto.
    + destruct (endpointCatch_frame webhook_error s message (events st))
        as (F1 & F2 & F3 & F4 & _).
      eapply storeOk_same; eauto.
  - (* remove *)
    unfold apiProductsDelete.
    destruct (JsMap.has (monitoredProducts s) key); [|exact Hok].
    cbn [state].
    assert (storeOk (with_products (JsMap.delete (monitoredProducts s) key) s))
      as Hd.
    { destruct Hok as (H1 & H2 & H3). split; [|split]; cbn; auto.
      now apply map_Forall_delete. }
    destruct (JsMap.size _ =? 0)%nat; [now apply storeOk_stopMonitoring|exact Hd].
  - (* replace the watched sizes *)
    unfold apiProductsSizes.
    destruct (JsMap.get (monitoredProducts s) key) as [product|] eqn:Hget;
      [|exact Hok].
    destruct (newSet watchedSizes0) as [watched|message] eqn:Hw; [|exact Hok].
    cbn [state]. destruct Hok as (H1 & H2 & H3). split; [|split]; cbn; auto.
    apply map_Forall_set; [exact H1|].
    apply map_get_In in Hget. rewrite Forall_forall in H1.
    destruct (H1 _ Hget) as [Hid _]. split; [exact Hid|].
    cbn. now apply newSet_NoDup in Hw.
  - (* reset *)
    unfold apiProductsReset.
    destruct (JsMap.get (monitoredProducts s) key) as [product|] eqn:Hget;
      [|exact Hok].
    cbn [state]. destruct Hok as (H1 & H2 & H3). split; [|split]; cbn; auto.
    apply map_Forall_set; [exact H1|].
    apply map_get_In in Hget. rewrite Forall_forall in H1.
    exact (H1 _ Hget).
  - destruct Hok as (H1 & H2 & H3). split; [|split]; cbn; auto.
  - unfold apiHistoryDelete.
    destruct (JsMap.has (productHistory s) key); [|exact Hok].
    destruct Hok as (H1 & H2 & H3). split; [|split]; cbn; auto.
    now apply map_Forall_delete.
  - destruct Hok as (H1 & H2 & H3). split; [|split]; cbn; auto.
  - unfold apiConfigDiscord. destruct (negb (truthy webhook)); [exact Hok|].
    destruct Hok as (H1 & H2 & H3). split; [|split]; cbn; auto.
  - (* preview *)
    unfold apiProductsFetch.
    destruct resolved as [[pid|]|message]; try exact Hok.
    destruct (negb (truthy pid)); [exact Hok|].
    destruct (fetch pid); exact Hok.
  - (* tick *)
    destruct (monitoringInterval s) eqn:Hi; [|exact Hok].
    destruct (monitorAllProducts_frame webhook_error s fetch cart)
      as (_ & Hh & Hi' & Hc).
    pose proof (monitorAllProducts_identity webhook_error s fetch cart) as Hid.
    destruct Hok as (H1 & H2 & H3). unfold storeOk. cbn [forget fst].
    rewrite Hh, Hi', Hc. split; [|auto].
    eapply entryOk_identity; [|exact H1].
    eapply Forall2_impl; [|exact Hid]. cbn. intuition.
Qed.

(** X11.  In every state the process can reach, each entry of the registry
    is stored under its own product id and watches a set of sizes, so no
    product is monitored twice; each entry of the history is stored under
    its product id; and a timer that is set has the period of the
    configuration. *)
Theorem stored_entries_are_keyed_by_product_id
    (webhook_error : string -> option string) (s : Sys) :
  reachable webhook_error s ->
  Forall (fun kp => productId (snd kp) = fst kp /\
                    NoDup (watchedSizes (snd kp))) (monitoredProducts s) /\
  NoDup (map (fun kp => productId (snd kp)) (monitoredProducts s)) /\
  Forall (fun ke => hist_productId (snd ke) = fst ke) (productHistory s) /\
  (forall i, monitoringInterval s = Some i ->
             everyMs i = checkIntervalMs (CONFIG s)).
Proof.
  intros Hr.
  assert (storeOk s) as (H1 & H2 & H3).
  { induction Hr as [c|s i Hr IH]; [|now apply step_storeOk].
    repeat split; cbn; try constructor. discriminate. }
  split; [exact H1|]. split; [|auto].
  destruct (reachable_invariant Hr) as [Hwf _]. unfold JsMap.wf in Hwf.
  replace (map (fun kp => productId (snd kp)) (monitoredProducts s))
    with (map fst (monitoredProducts s)); [exact Hwf|].
  apply map_ext_in. intros kp Hin. rewrite Forall_forall in H1.
  symmetry. apply (H1 kp Hin).
Qed.

Lemma stored_entries_are_keyed_by_product_id_witness :
  let s := fst (step Sample.url (initial (Sample.config Sample.hook))
                  (Add (Sample.watchSizes "1" ["38"; "38"])
                     (Sample.upstream ["38"]) (Sample.basket true)
                     "t0" "t0")) in
  Forall (fun kp => productId (snd kp) = fst kp /\
                    NoDup (watchedSizes (snd kp))) (monitoredProducts s) /\
  NoDup (map (fun kp => productId (snd kp)) (monitoredProducts s)) /\
  Forall (fun ke => hist_productId (snd ke) = fst ke) (productHistory s) /\
  (forall i, monitoringInterval s = Some i ->
             everyMs i = checkIntervalMs (CONFIG s)).
Proof.
  apply (@stored_entries_are_keyed_by_product_id Sample.url).
  apply reachable_step, reachable_initial.
Defined.

(** ** The configuration along a run *)

Lemma step_config_same (webhook_error : string -> option string)
    (s : Sys) (i : Input) :
  (forall w, i <> ConfigDiscord w) ->
  (forall req, i <> ConfigAuth req) ->
  CONFIG (fst (step webhook_error s i)) = CONFIG s.
Proof.
  intros Hd Ha. destruct i; cbn [step forget fst].
  - destruct (apiProductsAdd_state webhook_error s req fetch cart now1 now2)
      as [(_ & _ & _ & H & _)|(pid & p & info & sm & _ & _ & _ & _ & H)];
      exact H.
  - unfold apiProductsDelete.
    destruct (JsMap.has (monitoredProducts s) key); [|reflexivity].
    cbn [state]. destruct (JsMap.size _ =? 0)%nat; [|reflexivity].
    unfold stopMonitoring. cbn. now destruct (monitoringInterval s).
  - unfold apiProductsSizes.
    destruct (JsMap.get (monitoredProducts s) key); [|reflexivity].
    now destruct (newSet watchedSizes0).
  - unfold apiProductsReset.
    now destruct (JsMap.get (monitoredProducts s) key).
  - reflexivity.
  - unfold apiHistoryDelete. now destruct (JsMap.has (productHistory s) key).
  - now destruct (Ha req).
  - now destruct (Hd webhook).
  - unfold apiProductsFetch.
    destruct resolved as [[pid|]|message]; try reflexivity.
    destruct (negb (truthy pid)); [reflexivity|].
    now destruct (fetch pid).
  - destruct (monitoringInterval s); [|reflexivity].
    now destruct (monitorAllProducts_frame webhook_error s fetch cart)
      as (_ & _ & _ & H).
Qed.

Lemma pick_truthy (new old : string) :
  truthy old = true -> truthy (pick new old) = true.
Proof. unfold pick. now destruct (truthy new) eqn:E. Qed.

Lemma step_config (webhook_error : string -> option string)
    (s : Sys) (i : Input) :
  let c := CONFIG s in
  let c' := CONFIG (fst (step webhook_error s i)) in
  checkIntervalMs c' = checkIntervalMs c /\
  ((forall w, i <> ConfigDiscord w) -> discordWebhook c' = discordWebhook c) /\
  ((forall req, i <> ConfigAuth req) ->
   basicAuth c' = basicAuth c /\ cookies c' = cookies c) /\
  (truthy (discordWebhook c) = true -> truthy (discordWebhook c') = true) /\
  (truthy (basicAuth c) = true -> truthy (basicAuth c') = true) /\
  (truthy (cookies c) = true -> truthy (cookies c') = true).
Proof.
  cbv zeta.
  assert (CONFIG (fst (step webhook_error s i)) = CONFIG s ->
          checkIntervalMs (CONFIG (fst (step webhook_error s i)))
            = checkIntervalMs (CONFIG s) /\
          ((forall w, i <> ConfigDiscord w) ->
           discordWebhook (CONFIG (fst (step webhook_error s i)))
             = discordWebhook (CONFIG s)) /\
          ((forall req, i <> ConfigAuth req) ->
           basicAuth (CONFIG (fst (step webhook_error s i)))
             = basicAuth (CONFIG s) /\
           cookies (CONFIG (fst (step webhook_error s i)))
             = cookies (CONFIG s)) /\
          (truthy (discordWebhook (CONFIG s)) = true ->
           truthy (discordWebhook (CONFIG (fst (step webhook_error s i))))
             = true) /\
          (truthy (basicAuth (CONFIG s)) = true ->
           truthy (basicAuth (CONFIG (fst (step webhook_error s i)))) = true) /\
          (truthy (cookies (CONFIG s)) = true ->
           truthy (cookies (CONFIG (fst (step webhook_error s i)))) = true))
    as Hsame by (intros ->; tauto).
  destruct i;
    try (apply Hsame, step_config_same; intros ? ?; discriminate).
  - (* the credentials *)
    cbn. repeat split; auto using pick_truthy;
      match goal with
      | H : forall r, ConfigAuth _ <> ConfigAuth r |- _ => now destruct (H req)
      end.
  - (* the webhook *)
    cbn [step forget fst]. unfold apiConfigDiscord.
    destruct (truthy webhook) eqn:E; cbn; repeat split; intros; auto;
      try match goal with
      | H : forall w, ConfigDiscord _ <> ConfigDiscord w |- _ =>
          now destruct (H webhook)
      end.
Qed.

Lemma run_config (webhook_error : string -> option string) (s : Sys)
    (inputs : list Input) :
  let c := CONFIG s in
  let c' := CONFIG (fst (run webhook_error s inputs)) in
  checkIntervalMs c' = checkIntervalMs c /\
  (Forall (fun i => forall w, i <> ConfigDiscord w) inputs ->
   discordWebhook c' = discordWebhook c) /\
  (Forall (fun i => forall req, i <> ConfigAuth req) inputs ->
   basicAuth c' = basicAuth c /\ cookies c' = cookies c) /\
  (truthy (discordWebhook c) = true -> truthy (discordWebhook c') = true) /\
  (truthy (basicAuth c) = true -> truthy (basicAuth c') = true) /\
  (truthy (cookies c) = true -> truthy (cookies c') = true).
Proof.
  cbv zeta. revert s. induction inputs as [|i rest IH]; intros s; cbn [run].
  - cbn. tauto.
  - pose proof (step_config webhook_error s i) as Hs. cbv zeta in Hs.
    destruct (step webhook_error s i) as [s1 tr]. cbn [fst] in Hs.
    specialize (IH s1).
    destruct (run webhook_error s1 rest) as [s2 trs]. cbn [fst] in *.
    destruct Hs as (S1 & S2 & S3 & S4 & S5 & S6).
    destruct IH as (I1 & I2 & I3 & I4 & I5 & I6).
    split; [congruence|]. split.
    { intros Hall. inversion Hall; subst. rewrite I2, S2; auto. }
    split.
    { intros Hall. inversion Hall as [|? ? Hi Hrest]; subst.
      destruct (I3 Hrest) as [-> ->]. now apply S3. }
    auto.
Qed.

Lemma run_storeOk (webhook_error : string -> option string) (s : Sys)
    (inputs : list Input) :
  storeOk s -> storeOk (fst (run webhook_error s inputs)).
Proof.
  revert s. induction inputs as [|i rest IH]; intros s Hok; cbn [run];
    [exact Hok|].
  pose proof (@step_storeOk webhook_error s i Hok) as Hs.
  destruct (step webhook_error s i) as [s1 tr]. cbn [fst] in Hs.
  specialize (IH s1 Hs).
  now destruct (run webhook_error s1 rest) as [s2 trs].
Qed.

(** X12.  Along every run, the configuration changes only through its two
    endpoints: the period of the timer never changes, the webhook changes
    only by [POST /api/config/discord] and the credentials only by
    [POST /api/config/auth]; and the webhook and each credential, once
    set, can be replaced but never be emptied again. *)
Theorem configuration_changes_only_through_its_endpoints
    (webhook_error : string -> option string) (s : Sys)
    (inputs : list Input) :
  let c := CONFIG s in
  let c' := CONFIG (fst (run webhook_error s inputs)) in
  checkIntervalMs c' = checkIntervalMs c /\
  (Forall (fun i => forall w, i <> ConfigDiscord w) inputs ->
   discordWebhook c' = discordWebhook c) /\
  (Forall (fun i => forall req, i <> ConfigAuth req) inputs ->
   basicAuth c' = basicAuth c /\ cookies c' = cookies c) /\
  (truthy (discordWebhook c) = true -> truthy (discordWebhook c') = true) /\
  (truthy (basicAuth c) = true -> truthy (basicAuth c') = true) /\
  (truthy (cookies c) = true -> truthy (cookies c') = true).
Proof. apply run_config. Qed.

(** ** Resetting the notifications of an entry *)




(** ** The products the basket is called for *)

Lemma calls_snoc allowed tr e :
  callsOnlyFor allowed (tr ++ [e]) =
    callsOnlyFor allowed tr &&
    match e with Reserve pid _ _ => allowed pid | _ => true end.
Proof. unfold callsOnlyFor. rewrite forallb_app. cbn. now rewrite andb_true_r. Qed.

Lemma calls_weaken (allowed allowed' : ProductId -> bool) tr :
  (forall pid, allowed pid = true -> allowed' pid = true) ->
  callsOnlyFor allowed tr = true -> callsOnlyFor allowed' tr = true.
Proof.
  intros Hw. unfold callsOnlyFor. rewrite !forallb_forall.
  intros H e He. specialize (H e He). destruct e; auto.
Qed.

Section Calls.
Variable webhook_error : string -> option string.
Variables (cfg : Config) (cart : CartOracle).
Variable allowed : ProductId -> bool.

Lemma calls_sink {L} info x name q url :
  preserves (callsIn allowed)
    (@sendDiscordNotification webhook_error L cfg info x name q url).
Proof.
  intros st H. unfold callsIn, sendDiscordNotification, emit, throw, ret in *.
  destruct (negb (truthy (discordWebhook cfg))); [exact H|].
  destruct (webhook_error (discordWebhook cfg)); [exact H|].
  cbn [snd events]. now rewrite calls_snoc, H.
Qed.

Lemma calls_addToCart {L} pid x :
  allowed pid = true -> preserves (callsIn allowed) (@addToCart L cart pid x).
Proof.
  intros Ha st H. unfold callsIn, addToCart in *. cbn [snd events].
  now rewrite calls_snoc, H, Ha.
Qed.

Variable pid : ProductId.
Hypothesis allowed_pid : allowed pid = true.

Lemma checkSize_calls info sm stockInfo url x :
  preserves (callsAt allowed pid)
    (checkSize webhook_error cfg cart info sm stockInfo url x).
Proof.
  intros st [Hpid Hok].
  unfold callsAt, checkSize, bind, get_local, addToCart,
    sendDiscordNotification, modify, emit, throw, ret.
  cbn [fst snd local events].
  destruct (newStockDetected (local st) stockInfo x).
  - destruct (success (cart (events st) (productId (local st)) x)) eqn:Es.
    + destruct (negb (truthy (discordWebhook cfg)));
        [|destruct (webhook_error (discordWebhook cfg))];
        cbn [fst snd local events with_notified productId notified];
        repeat match goal with
               | |- context [if ?c then _ else _] => destruct c
               end;
        cbn [fst snd local events with_notified productId notified];
        rewrite ?calls_snoc, ?Hok, ?Hpid, ?allowed_pid; auto.
    + repeat match goal with
             | |- context [if ?c then _ else _] => destruct c
             end;
        cbn [fst snd local events with_notified productId notified];
        rewrite ?calls_snoc, ?Hok, ?Hpid, ?allowed_pid; auto.
  - repeat match goal with
           | |- context [if ?c then _ else _] => destruct c
           end;
      cbn [fst snd local events with_notified productId notified]; auto.
Qed.

Lemma restockLoop_calls info url entries added :
  preserves (callsAt allowed pid)
    (restockLoop webhook_error cfg cart info url entries added).
Proof.
  destruct added.
  { intros st H. now rewrite restockLoop_added. }
  induction entries as [|[sizeId sizeInfo] rest IH]; intros st [Hpid Hok];
    [split; assumption|].
  cbn [restockLoop negb].
  unfold bind, get_local, addToCart, sendDiscordNotification, modify, emit,
    throw, ret.
  cbn [fst snd local events].
  destruct (success (cart (events st) (productId (local st)) sizeId)) eqn:Es.
  - destruct (negb (truthy (discordWebhook cfg)));
      [|destruct (webhook_error (discordWebhook cfg))];
      rewrite ?restockLoop_added;
      cbn [fst snd local events with_notified productId notified];
      unfold callsAt;
      cbn [fst snd local events with_notified productId notified];
      rewrite ?calls_snoc, ?Hok, ?Hpid, ?allowed_pid; auto.
  - apply IH. split; cbn [local events]; [assumption|].
    now rewrite calls_snoc, Hok, Hpid, allowed_pid.
Qed.

Lemma calls_modify_entry (g : Product -> Product) :
  (forall p, productId (g p) = productId p) ->
  preserves (callsAt allowed pid) (modify g).
Proof. intros Hg st [Hpid Hok]. split; cbn; [now rewrite Hg|assumption]. Qed.

Lemma monitorProduct_calls fetch :
  preserves (callsAt allowed pid) (monitorProduct webhook_error cfg fetch cart).
Proof.
  unfold monitorProduct.
  apply preserves_bind; [apply preserves_get|]. intros product.
  apply preserves_bind.
  { unfold fetchProductDetails.
    destruct (fetch (productId product));
      [apply preserves_ret|apply preserves_throw]. }
  intros [[info sm] stockInfo].
  apply preserves_bind.
  { unfold watchAllBranch.
    apply preserves_bind; [apply preserves_get|]. intros product'.
    apply preserves_if; [|apply preserves_ret].
    apply preserves_bind.
    - apply preserves_if; [|apply preserves_ret].
      apply preserves_bind; [apply restockLoop_calls|]. intros _.
      now apply calls_modify_entry.
    - intros _. apply preserves_if; [|apply preserves_ret].
      apply preserves_bind; intros; now apply calls_modify_entry. }
  intros _. apply preserves_bind; [apply preserves_get|]. intros product'.
  apply preserves_bind.
  - apply preserves_for_of. intros x _. apply checkSize_calls.
  - intros _. now apply calls_modify_entry.
Qed.

Lemma addPrepare_calls field all fetch :
  preserves (callsIn allowed)
    (addPrepare webhook_error cfg pid field all fetch cart).
Proof.
  unfold addPrepare.
  apply preserves_bind.
  { unfold fetchProductDetails.
    destruct (fetch pid); [apply preserves_ret|apply preserves_throw]. }
  intros [[info sm] stockInfo].
  apply preserves_bind.
  { apply preserves_if; [|apply preserves_ret].
    induction (JsObj.entries sm) as [|[sizeId sizeInfo] rest IH];
      cbn [addRestockLoop]; [apply preserves_ret|].
    apply preserves_bind; [now apply calls_addToCart|]. intros r.
    apply preserves_if; [|exact IH].
    apply preserves_bind; [apply calls_sink|]. intros _. intros st H. exact H. }
  intros _. apply preserves_bind.
  { apply preserves_if; [|apply preserves_ret].
    destruct (wsIterate field); [|apply preserves_throw].
    apply preserves_for_of. intros x _. unfold addCheckSize.
    apply preserves_if; [|apply preserves_ret].
    apply preserves_bind; [now apply calls_addToCart|]. intros r.
    apply preserves_if; [|apply preserves_ret].
    apply preserves_bind; [apply calls_sink|]. intros _. intros st H. exact H. }
  intros _.
  destruct (if wsTruthy field then newSet field else Returned JsSet.empty);
    [apply preserves_ret|apply preserves_throw].
Qed.

End Calls.

Lemma credentialsAlert_calls (webhook_error : string -> option string)
    (cfg : Config) (allowed : ProductId -> bool) message (st : St bool) :
  callsIn allowed st ->
  callsIn allowed
    (snd (sendTokenExpiredNotification webhook_error cfg message st)).
Proof.
  unfold callsIn, sendTokenExpiredNotification, bind, get_local, modify, emit,
    throw, ret.
  cbn [fst snd local events]. intros Hok.
  destruct (local st || negb (truthy (discordWebhook cfg))); [assumption|].
  cbn [fst snd local events].
  destruct (webhook_error (discordWebhook cfg)); cbn [snd events];
    [assumption|]. now rewrite calls_snoc, Hok.
Qed.

Lemma endpointCatch_calls (webhook_error : string -> option string)
    (allowed : ProductId -> bool) (s : Sys) (message : string)
    (tr : list Event) :
  callsOnlyFor allowed tr = true ->
  callsOnlyFor allowed (log (endpointCatch webhook_error s message tr)) = true.
Proof.
  intros Hok. unfold endpointCatch. cbn [log].
  destruct (authSignalEndpoint message); [|exact Hok].
  now apply (@credentialsAlert_calls webhook_error (CONFIG s) allowed message
               {| local := tokenExpiredNotified s; events := tr |}).
Qed.

Lemma sweepEntries_calls (webhook_error : string -> option string)
    (cfg : Config) (fetch : ProductId -> FetchResult) (cart : CartOracle)
    (allowed : ProductId -> bool) (entries : list (string * Product)) :
  Forall (fun kp => allowed (productId (snd kp)) = true) entries ->
  forall st : St bool,
    callsIn allowed st ->
    callsIn allowed (snd (sweepEntries webhook_error cfg fetch cart entries st)).
Proof.
  induction 1 as [|[key product] rest Hhead Hrest IH]; intros st Hok;
    [assumption|].
  cbn [sweepEntries]. cbn [snd] in Hhead.
  pose proof (@monitorProduct_calls webhook_error cfg cart allowed
                (productId product) Hhead fetch
                {| local := product; events := events st |}
                (conj eq_refl Hok)) as [_ Hm].
  destruct (monitorProduct webhook_error cfg fetch cart
              {| local := product; events := events st |}) as [tried pst].
  cbn [snd] in Hm.
  assert (callsIn allowed
            (snd (match tried with
                  | Returned _ =>
                      (Returned tt,
                       {| local := local st; events := events pst |})
                  | Thrown message =>
                      catchClause webhook_error cfg message
                        {| local := local st; events := events pst |}
                  end))) as Hc.
  { destruct tried; [exact Hm|]. unfold catchClause.
    destruct (authSignalSweep message); [|exact Hm].
    now apply credentialsAlert_calls. }
  destruct (match tried with
            | Returned _ => _
            | Thrown message => _
            end) as [[u|message] st2]; cbn [snd] in Hc.
  - specialize (IH st2 Hc).
    destruct (sweepEntries webhook_error cfg fetch cart rest st2)
      as [[o rest'] st3]. exact IH.
  - exact Hc.
Qed.

Lemma monitorAllProducts_calls (webhook_error : string -> option string)
    (s : Sys) (fetch : ProductId -> FetchResult) (cart : CartOracle) :
  callsOnlyFor
    (fun pid =>
       existsb (fun kp => productId (snd kp) =? pid) (monitoredProducts s))
    (log (monitorAllProducts webhook_error s fetch cart)) = true.
Proof.
  unfold monitorAllProducts.
  destruct (JsMap.size (monitoredProducts s) =? 0)%nat; [reflexivity|].
  pose proof (@sweepEntries_calls webhook_error (CONFIG s) fetch cart
                (fun pid =>
                   existsb (fun kp => productId (snd kp) =? pid)
                     (monitoredProducts s))
                (monitoredProducts s)) as H.
  match type of H with ?A -> _ => assert A as Hall end.
  { apply Forall_forall. intros kp Hin. apply existsb_exists.
    exists kp. split; [exact Hin|apply String.eqb_refl]. }
  specialize (H Hall {| local := tokenExpiredNotified s; events := [] |}
                eq_refl).
  destruct (sweepEntries webhook_error (CONFIG s) fetch cart
              (monitoredProducts s)
              {| local := tokenExpiredNotified s; events := [] |})
    as [[o entries] st]. exact H.
Qed.

(** X14.  The basket is called only for products the process has been
    asked to monitor: during an add, only for the product of the request;
    at a tick of the timer, only for products that are in the registry
    when the sweep starts; and never by any other request. *)
Theorem basket_called_only_for_monitored_products
    (webhook_error : string -> option string) (s : Sys) (i : Input) :
  callsOnlyFor (mayReserve s i) (snd (step webhook_error s i)) = true.
Proof.
  destruct i; unfold mayReserve; cbn [step forget fst snd].
  - unfold apiProductsAdd.
    destruct (add_productId req) as [pid|]; [|reflexivity].
    destruct (negb (truthy pid)); [reflexivity|].
    match goal with |- context [if ?c then _ else _] => destruct c end;
      [reflexivity|].
    pose proof (@addPrepare_calls webhook_error (CONFIG s) cart
                  (String.eqb pid) pid (String.eqb_refl pid)
                  (add_watchedSizes req) (add_watchAll req) fetch
                  {| local := JsSet.empty; events := [] |} eq_refl) as Hp.
    destruct (addPrepare webhook_error (CONFIG s) pid (add_watchedSizes req)
                (add_watchAll req) fetch cart
                {| local := JsSet.empty; events := [] |})
      as [[[[[info sm] stockInfo] watched]|message] st]; cbn [snd] in Hp.
    + destruct (addAnswer (add_watchedSizes req) (add_watchAll req) sm (local st))
        as [answer|message]; [exact Hp|].
      now apply endpointCatch_calls.
    + now apply endpointCatch_calls.
  - unfold apiProductsDelete.
    now destruct (JsMap.has (monitoredProducts s) key).
  - unfold apiProductsSizes.
    destruct (JsMap.get (monitoredProducts s) key); [|reflexivity].
    now destruct (newSet watchedSizes0).
  - unfold apiProductsReset.
    now destruct (JsMap.get (monitoredProducts s) key).
  - reflexivity.
  - unfold apiHistoryDelete.
    now destruct (JsMap.has (productHistory s) key).
  - reflexivity.
  - unfold apiConfigDiscord. now destruct (negb (truthy webhook)).
  - unfold apiProductsFetch.
    destruct resolved as [[pid|]|message]; [|reflexivity|].
    + destruct (negb (truthy pid)); [reflexivity|].
      destruct (fetch pid); [reflexivity|].
      now apply endpointCatch_calls.
    + now apply endpointCatch_calls.
  - destruct (monitoringInterval s); [|reflexivity].
    apply monitorAllProducts_calls.
Qed.

(** X15.  [DELETE /api/products/:key] forgets the entry under the key and
    nothing else: the other entries, the history and the configuration stay
    as they are; and in a state the process can reach, the sweep after the
    removal makes no basket call for the product with that id. *)
Theorem removed_product_is_no_longer_reserved
    (webhook_error : string -> option string) (s : Sys) (key : string)
    (fetch : ProductId -> FetchResult) (cart : CartOracle) :
  reachable webhook_error s ->
  let r := apiProductsDelete s key in
  JsMap.get (monitoredProducts (state r)) key = None /\
  (forall k, k <> key ->
     JsMap.get (monitoredProducts (state r)) k
       = JsMap.get (monitoredProducts s) k) /\
  productHistory (state r) = productHistory s /\
  CONFIG (state r) = CONFIG s /\
  callsOnlyFor (fun pid => negb (pid =? key))
    (log (monitorAllProducts webhook_error (state r) fetch cart)) = true.
Proof.
  intros Hr. cbv zeta.
  assert (storeOk s) as Hok.
  { clear key. induction Hr as [c|s i Hr IH]; [|now apply step_storeOk].
    repeat split; cbn; try constructor. discriminate. }
  pose proof (@step_storeOk webhook_error s (Remove key) Hok) as Hok'.
  pose proof (@step_config_same webhook_error s (Remove key)
                ltac:(discriminate) ltac:(discriminate)) as Hc.
  cbn [step forget fst] in Hok', Hc.
  assert (JsMap.get (monitoredProducts (state (apiProductsDelete s key))) key
          = None /\
          (forall k, k <> key ->
             JsMap.get (monitoredProducts (state (apiProductsDelete s key))) k
               = JsMap.get (monitoredProducts s) k) /\
          productHistory (state (apiProductsDelete s key)) = productHistory s)
    as (Hgone & Hothers & Hh).
  { unfold apiProductsDelete.
    destruct (JsMap.has (monitoredProducts s) key) eqn:Eh; cbn [state].
    - assert (forall s1 : Sys,
                monitoredProducts
                  (if (JsMap.size (monitoredProducts s1) =? 0)%nat
                   then stopMonitoring s1 else s1) = monitoredProducts s1 /\
                productHistory
                  (if (JsMap.size (monitoredProducts s1) =? 0)%nat
                   then stopMonitoring s1 else s1) = productHistory s1)
        as Hstop.
      { intros s1. destruct (JsMap.size (monitoredProducts s1) =? 0)%nat;
          [|tauto].
        unfold stopMonitoring. now destruct (monitoringInterval s1). }
      destruct (Hstop (with_products (JsMap.delete (monitoredProducts s) key) s))
        as [-> ->]. cbn.
      split; [|split; [|reflexivity]].
      + apply map_get_None. intros Hin. apply map_keys_delete in Hin. tauto.
      + intros k Hk. now apply map_get_delete_other.
    - unfold JsMap.has in Eh.
      destruct (JsMap.get (monitoredProducts s) key); [discriminate|tauto]. }
  split; [exact Hgone|]. split; [exact Hothers|]. split; [exact Hh|].
  split; [exact Hc|].
  eapply calls_weaken; [|apply monitorAllProducts_calls].
  intros pid Hex. apply existsb_exists in Hex as [[k p] [Hin E]].
  cbn [snd] in E. apply String.eqb_eq in E. subst pid.
  destruct Hok' as (Hentries & _). rewrite Forall_forall in Hentries.
  destruct (Hentries _ Hin) as [Hid _]. cbn [fst snd] in Hid. rewrite Hid.
  destruct (k =? key) eqn:Ek; [|reflexivity].
  apply String.eqb_eq in Ek. subst k. rewrite Ek in Hin.
  assert (In key (map fst (monitoredProducts (state (apiProductsDelete s key)))))
    as Hk by (apply in_map_iff; exists (key, p); split; [reflexivity|exact Hin]).
  apply map_get_None in Hgone. contradiction.
Qed.

Lemma removed_product_is_no_longer_reserved_witness :
  let s := fst (run Sample.url (initial (Sample.config Sample.hook))
                  [Add (Sample.watchSizes "1" ["38"]) (Sample.upstream [])
                     (Sample.basket true) "t0" "t0";
                   Add (Sample.watchSizes "2" ["38"]) (Sample.upstream [])
                     (Sample.basket true) "t1" "t1"]) in
  let r := apiProductsDelete s "1" in
  let sweep := monitorAllProducts Sample.url (state r)
                 (Sample.upstream ["38"]) (Sample.basket true) in
  count is_reserve (log sweep) = 1 /\
  JsMap.get (monitoredProducts (state r)) "1" = None /\
  (forall k, k <> "1" ->
     JsMap.get (monitoredProducts (state r)) k
       = JsMap.get (monitoredProducts s) k) /\
  productHistory (state r) = productHistory s /\
  CONFIG (state r) = CONFIG s /\
  callsOnlyFor (fun pid => negb (pid =? "1")) (log sweep) = true.
Proof.
  split; [reflexivity|].
  apply (@removed_product_is_no_longer_reserved Sample.url
           (fst (run Sample.url (initial (Sample.config Sample.hook))
                   [Add (Sample.watchSizes "1" ["38"]) (Sample.upstream [])
                      (Sample.basket true) "t0" "t0";
                    Add (Sample.watchSizes "2" ["38"]) (Sample.upstream [])
                      (Sample.basket true) "t1" "t1"]))
           "1" (Sample.upstream ["38"]) (Sample.basket true)).
  apply (@reachable_step Sample.url _
           (Add (Sample.watchSizes "2" ["38"]) (Sample.upstream [])
              (Sample.basket true) "t1" "t1")).
  apply (@reachable_step Sample.url _
           (Add (Sample.watchSizes "1" ["38"]) (Sample.upstream [])
              (Sample.basket true) "t0" "t0")).
  apply reachable_initial.
Defined.

(** ** Product links *)

Lemma takeDigits_split (s : string) :
  exists post,
    s = String.append (takeDigits s) post /\
    allDigits (takeDigits s) = true /\ startsWithDigit post = false.
Proof.
  induction s as [|c r IH]; cbn.
  - exists EmptyString. auto.
  - destruct (isDigit c) eqn:E.
    + destruct IH as (post & Hs & Ha & Hp). exists post. cbn.
      rewrite E, Ha. split; [now rewrite <- Hs|auto].
    + exists (String c r). cbn. auto.
Qed.

Lemma takeDigits_all (s : string) : allDigits s = true -> takeDigits s = s.
Proof.
  induction s as [|c r IH]; cbn; [reflexivity|].
  destruct (isDigit c); [|discriminate]. cbn. intros H. now rewrite IH.
Qed.

Lemma startsWith_split (p s : string) :
  startsWith p s = true -> exists r, s = String.append p r.
Proof.
  revert s. induction p as [|a p IH]; intros s; cbn.
  - exists s. reflexivity.
  - destruct s as [|b s]; [discriminate|].
    destruct (Ascii.eqb a b) eqn:E; [|discriminate]. cbn.
    apply Ascii.eqb_eq in E. subst b. intros H.
    destruct (IH s H) as [r ->]. now exists r.
Qed.

Lemma append_assoc (a b c : string) :
  String.append (String.append a b) c = String.append a (String.append b c).
Proof. induction a as [|x a IH]; cbn; [reflexivity|now rewrite IH]. Qed.

Lemma matchIdHere_sound (s id : string) :
  matchIdHere s = Some id ->
  truthy id = true /\ allDigits id = true /\
  exists post, s = String.append "/id/" (String.append id post) /\
               startsWithDigit post = false.
Proof.
  unfold matchIdHere. destruct (startsWith "/id/" s) eqn:E; [|discriminate].
  apply startsWith_split in E as [r ->]. cbn [String.append substringFrom].
  destruct (truthy (takeDigits r)) eqn:Et; [|discriminate].
  intros H. injection H as <-.
  destruct (takeDigits_split r) as (post & Hr & Ha & Hp).
  split; [exact Et|]. split; [exact Ha|].
  exists post. split; [|exact Hp]. now rewrite <- Hr.
Qed.

Lemma matchIdHere_complete (c : ascii) (post : string) :
  isDigit c = true ->
  matchIdHere (String.append "/id/" (String c post)) <> None.
Proof.
  intros Hc. unfold matchIdHere. cbn. rewrite Hc. cbn. discriminate.
Qed.

(** X16.  What the pattern of [parseProductUrl] finds in a string: if it
    matches, the id it captures is a non-empty run of digits that follows an
    occurrence of [/id/] in the string and is not followed by a further
    digit; if it does not match, no occurrence of [/id/] in the string is
    followed by a digit. *)
Theorem product_link_pattern_is_sound_and_complete (url : string) :
  match matchId url with
  | Some id =>
      truthy id = true /\ allDigits id = true /\
      exists pre post,
        url = String.append pre
                (String.append "/id/" (String.append id post)) /\
        startsWithDigit post = false
  | None =>
      forall pre c post,
        url = String.append pre (String.append "/id/" (String c post)) ->
        isDigit c = false
  end.
Proof.
  induction url as [|a r IH].
  - cbn. intros pre c post H. destruct pre; discriminate.
  - cbn [matchId]. destruct (matchIdHere (String a r)) as [id|] eqn:E.
    + apply matchIdHere_sound in E as (Ht & Ha & post & Hs & Hp).
      split; [exact Ht|]. split; [exact Ha|].
      exists EmptyString, post. now rewrite Hs.
    + destruct (matchId r) as [id|].
      * destruct IH as (Ht & Ha & pre & post & Hs & Hp).
        split; [exact Ht|]. split; [exact Ha|].
        exists (String a pre), post. split; [|exact Hp].
        change (String a r = String a (String.append pre
                  (String.append "/id/" (String.append id post)))).
        now rewrite <- Hs.
      * intros pre c post H. destruct pre as [|b pre].
        -- cbn [String.append] in H. destruct (isDigit c) eqn:Ec; [|reflexivity].
           exfalso. apply (@matchIdHere_complete c post Ec).
           cbn [String.append]. now rewrite <- H.
        -- cbn [String.append] in H. injection H as _ Hr.
           exact (IH pre c post Hr).
Qed.

Lemma matchId_productUrl (pid : ProductId) :
  truthy pid = true -> allDigits pid = true ->
  matchId (productUrlOf pid) = Some pid.
Proof.
  intros Ht Ha. unfold productUrlOf. cbn [String.append].
  repeat (cbn [matchId]; unfold matchIdHere at 1;
          cbn [startsWith Ascii.eqb Bool.eqb andb]).
  cbn [substringFrom]. now rewrite (takeDigits_all _ Ha), Ht.
Qed.

Section PreviewFacts.
Variable webhook_error : string -> option string.
Variable queryId : string -> Outcome (option string).

(** X17.  The product link that the monitor puts into its alerts parses
    back to the product id, without [new URL] being consulted; hence a
    preview by that link is the preview by the id. *)
Theorem product_link_parses_back_to_its_id
    (s : Sys) (pid : ProductId) (fetch : ProductId -> FetchResult) :
  truthy pid = true ->
  allDigits pid = true ->
  parseProductUrl queryId (productUrlOf pid) = Returned (Some pid) /\
  apiProductsFetchRequest webhook_error queryId s
    {| fetch_productId := None; fetch_url := Some (productUrlOf pid) |} fetch
  = apiProductsFetchRequest webhook_error queryId s
      {| fetch_productId := Some pid; fetch_url := None |} fetch.
Proof.
  intros Ht Ha.
  assert (parseProductUrl queryId (productUrlOf pid) = Returned (Some pid))
    as Hp by (unfold parseProductUrl; now rewrite matchId_productUrl).
  split; [exact Hp|].
  unfold apiProductsFetchRequest. cbn [fetch_url fetch_productId optTruthy].
  rewrite Hp.
  assert (truthy (productUrlOf pid) = true) as -> by reflexivity.
  reflexivity.
Qed.

(** What the handler does with a request, in terms of the product id it
    ends up with. *)
Lemma apiProductsFetchRequest_resolved (s : Sys) (req : FetchBody)
    (fetch : ProductId -> FetchResult) :
  exists resolved,
    let r := apiProductsFetchRequest webhook_error queryId s req fetch in
    let a := apiProductsFetch webhook_error s resolved fetch in
    state r = state a /\ log r = log a /\ status (result r) = status (result a) /\
    (status (result r) <> 400 -> result r = result a).
Proof.
  unfold apiProductsFetchRequest.
  assert (forall productId,
            previewProduct webhook_error s productId fetch
              = apiProductsFetch webhook_error s (Returned productId) fetch)
    as Hp by (intros [pid|]; reflexivity).
  destruct (fetch_url req) as [url|];
    [|exists (Returned (fetch_productId req)); rewrite Hp; cbv zeta; tauto].
  destruct (truthy url && negb (optTruthy (fetch_productId req)));
    [|exists (Returned (fetch_productId req)); rewrite Hp; cbv zeta; tauto].
  destruct (parseProductUrl queryId url) as [[pid|]|message].
  - exists (Returned (Some pid)). rewrite Hp. cbv zeta. tauto.
  - exists (Returned None). cbn. intuition.
  - exists (Thrown message). cbn. tauto.
Qed.

End PreviewFacts.

(** X18.  [POST /api/products/fetch] only reads: whatever its body and
    whatever the product endpoint answers, it changes neither the registry,
    the history, the timer nor the configuration, calls the basket for
    nothing and sends no stock alert; an answer 200 carries the snapshot
    parsed from what the product endpoint answered for the id, and leaves
    the whole state as it was; a product id in the body takes precedence
    over a link. *)
Theorem preview_only_reads
    (webhook_error : string -> option string)
    (queryId : string -> Outcome (option string))
    (s : Sys) (req : FetchBody) (fetch : ProductId -> FetchResult) :
  let r := apiProductsFetchRequest webhook_error queryId s req fetch in
  monitoredProducts (state r) = monitoredProducts s /\
  productHistory (state r) = productHistory s /\
  monitoringInterval (state r) = monitoringInterval s /\
  CONFIG (state r) = CONFIG s /\
  count is_reserve (log r) = 0 /\
  count is_notify (log r) = 0 /\
  (status (result r) = 200 ->
   exists pid data,
     truthy pid = true /\ fetch pid = Resolved data /\
     body (result r) = PreviewBody pid (parseProduct pid data) /\
     state r = s /\ log r = []) /\
  (optTruthy (fetch_productId req) = true ->
   r = apiProductsFetchRequest webhook_error queryId s
         {| fetch_productId := fetch_productId req; fetch_url := None |} fetch).
Proof.
  cbv zeta.
  destruct (apiProductsFetchRequest_resolved webhook_error queryId s req fetch)
    as (resolved & Hs & Hl & Hst & Hres).
  cbv zeta in Hs, Hl, Hst, Hres. rewrite Hs, Hl.
  assert (let a := apiProductsFetch webhook_error s resolved fetch in
          monitoredProducts (state a) = monitoredProducts s /\
          productHistory (state a) = productHistory s /\
          monitoringInterval (state a) = monitoringInterval s /\
          CONFIG (state a) = CONFIG s /\
          count is_reserve (log a) = 0 /\
          count is_notify (log a) = 0 /\
          (status (result a) = 200 ->
           exists pid data,
             truthy pid = true /\ fetch pid = Resolved data /\
             body (result a) = PreviewBody pid (parseProduct pid data) /\
             state a = s /\ log a = [])) as Ha.
  { cbv zeta. unfold apiProductsFetch.
    assert (forall message,
              let a := endpointCatch webhook_error s message [] in
              monitoredProducts (state a) = monitoredProducts s /\
              productHistory (state a) = productHistory s /\
              monitoringInterval (state a) = monitoringInterval s /\
              CONFIG (state a) = CONFIG s /\
              count is_reserve (log a) = 0 /\
              count is_notify (log a) = 0 /\
              (status (result a) = 200 ->
               exists pid data,
                 truthy pid = true /\ fetch pid = Resolved data /\
                 body (result a) = PreviewBody pid (parseProduct pid data) /\
                 state a = s /\ log a = [])) as Hcatch.
    { intros message. cbv zeta.
      destruct (endpointCatch_frame webhook_error s message [])
        as (F1 & F2 & F3 & F4 & F5).
      rewrite F5.
      rewrite !(@endpointCatch_log webhook_error s message []) by reflexivity.
      repeat split; auto. cbn. discriminate. }
    destruct resolved as [[pid|]|message]; [| |apply Hcatch].
    - destruct (truthy pid) eqn:Et; cbn [negb].
      + destruct (fetch pid) as [data|message] eqn:Ef; [|apply Hcatch].
        cbn. repeat split; auto. intros _. exists pid, data. auto.
      + cbn. repeat split; auto. discriminate.
    - cbn. repeat split; auto. discriminate. }
  cbv zeta in Ha.
  destruct Ha as (A1 & A2 & A3 & A4 & A5 & A6 & A7).
  repeat (split; [assumption|]). split.
  - intros H200.
    assert (status (result (apiProductsFetchRequest webhook_error queryId s
                              req fetch)) <> 400) as Hne by congruence.
    rewrite (Hres Hne). rewrite Hst in H200.
    destruct (A7 H200) as (pid & data & B1 & B2 & B3 & B4 & B5).
    exists pid, data. repeat split; assumption.
  - intros Hpid. unfold apiProductsFetchRequest. cbn [fetch_url fetch_productId].
    rewrite Hpid. cbn [negb].
    destruct (fetch_url req) as [url|]; [|reflexivity].
    now rewrite andb_false_r.
Qed.

Lemma product_link_parses_back_to_its_id_witness :
  let never := fun _ : string => @Thrown (option string) "Invalid URL" in
  let s := initial (Sample.config Sample.hook) in
  parseProductUrl never (productUrlOf "3158263") = Returned (Some "3158263") /\
  apiProductsFetchRequest Sample.url never s
    {| fetch_productId := None;
       fetch_url := Some (productUrlOf "3158263") |} (Sample.upstream ["38"])
  = apiProductsFetchRequest Sample.url never s
      {| fetch_productId := Some "3158263"; fetch_url := None |}
      (Sample.upstream ["38"]).
Proof.
  apply (@product_link_parses_back_to_its_id Sample.url
           (fun _ : string => @Thrown (option string) "Invalid URL")
           (initial (Sample.config Sample.hook)) "3158263"
           (Sample.upstream ["38"])); reflexivity.
Defined.

(** ** Credentials from pasted headers *)

Lemma trimStart_length (s : string) :
  String.length (trimStart s) <= String.length s.
Proof.
  induction s as [|c r IH]; cbn; [lia|].
  destruct (isWhiteSpace c); cbn; lia.
Qed.

Lemma trimEnd_length (s : string) :
  String.length (trimEnd s) <= String.length s.
Proof.
  induction s as [|c r IH]; cbn; [lia|].
  destruct (isWhiteSpace c && (trimEnd r =? "")); cbn; lia.
Qed.

Lemma trimStart_fix (s : string) :
  String.length (trimStart s) = String.length s -> trimStart s = s.
Proof.
  destruct s as [|c r]; cbn; [reflexivity|].
  destruct (isWhiteSpace c); [|reflexivity].
  pose proof (trimStart_length r). lia.
Qed.

Lemma trim_fix (v : string) : trim v = v -> trimStart v = v /\ trimEnd v = v.
Proof.
  unfold trim. intros H.
  assert (trimStart v = v) as Hs.
  { apply trimStart_fix. pose proof (trimStart_length v).
    pose proof (trimEnd_length (trimStart v)). rewrite H in *. lia. }
  split; [exact Hs|]. now rewrite Hs in H.
Qed.

Lemma trimEnd_app (p v : string) :
  trimEnd v <> "" -> trimEnd (String.append p v) = String.append p (trimEnd v).
Proof.
  intros Hv. induction p as [|c p IH]; cbn; [reflexivity|].
  rewrite IH.
  destruct (String.append p (trimEnd v)) eqn:E.
  - destruct p; cbn in E; [contradiction|discriminate].
  - cbn. now rewrite andb_false_r.
Qed.

Lemma trimEnd_space (s : string) (c : ascii) :
  isWhiteSpace c = true -> trimEnd (String.append s (String c "")) = trimEnd s.
Proof.
  intros Hc. induction s as [|a s IH]; cbn.
  - now rewrite Hc.
  - now rewrite IH.
Qed.

Lemma trim_space (s : string) (c : ascii) :
  isWhiteSpace c = true -> trim (String.append s (String c "")) = trim s.
Proof.
  intros Hc. unfold trim. induction s as [|a s IH]; cbn.
  - now rewrite Hc.
  - destruct (isWhiteSpace a); [exact IH|].
    apply (@trimEnd_space (String a s) c Hc).
Qed.

Lemma toLowerCase_app (a b : string) :
  toLowerCase (String.append a b)
    = String.append (toLowerCase a) (toLowerCase b).
Proof. induction a as [|c a IH]; cbn; [reflexivity|now rewrite IH]. Qed.

Lemma isHeaderValue_facts (v : string) :
  isHeaderValue v = true ->
  v <> "" /\ noLineBreak v = true /\ trimStart v = v /\ trimEnd v = v.
Proof.
  unfold isHeaderValue. rewrite !andb_true_iff, String.eqb_eq.
  intros [[Ht Hn] Hv]. apply trim_fix in Hv as [Hs He].
  repeat split; auto. intros ->. discriminate.
Qed.

(** What the loop makes of the two lines it looks for. *)
Lemma parseHeaderLine_authorization (result : ParsedHeaders) (b : string) :
  isHeaderValue b = true ->
  parseHeaderLine result (String.append "Authorization: Basic " b)
    = {| parsed_basicAuth := b; parsed_cookies := parsed_cookies result |}.
Proof.
  intros Hb. apply isHeaderValue_facts in Hb as (Hne & _ & Hs & He).
  assert (trimEnd b <> "") as Hne' by now rewrite He.
  unfold parseHeaderLine.
  assert (trim (String.append "Authorization: Basic " b)
          = String.append "Authorization: Basic " b) as ->.
  { unfold trim. cbn [String.append trimStart isWhiteSpace].
    change (trimEnd (String.append "Authorization: Basic " b)
            = String.append "Authorization: Basic " b).
    now rewrite trimEnd_app, He. }
  cbv zeta. rewrite toLowerCase_app.
  assert (startsWith "authorization:"
            (String.append (toLowerCase "Authorization: Basic ")
               (toLowerCase b)) = true) as -> by reflexivity.
  assert (startsWith "cookie:"
            (String.append (toLowerCase "Authorization: Basic ")
               (toLowerCase b)) = false) as -> by reflexivity.
  assert (substringFrom 14 (String.append "Authorization: Basic " b)
          = String.append " Basic " b) as -> by reflexivity.
  assert (trim (String.append " Basic " b) = String.append "Basic " b) as ->.
  { unfold trim.
    change (trimEnd (String.append "Basic " b) = String.append "Basic " b).
    now rewrite trimEnd_app, He. }
  rewrite toLowerCase_app.
  assert (startsWith "basic "
            (String.append (toLowerCase "Basic ") (toLowerCase b)) = true)
    as -> by reflexivity.
  assert (substringFrom 6 (String.append "Basic " b) = b) as -> by reflexivity.
  unfold trim. now rewrite Hs, He.
Qed.

Lemma parseHeaderLine_cookie (result : ParsedHeaders) (c : string) :
  isHeaderValue c = true ->
  parseHeaderLine result (String.append "Cookie: " c)
    = {| parsed_basicAuth := parsed_basicAuth result; parsed_cookies := c |}.
Proof.
  intros Hc. apply isHeaderValue_facts in Hc as (Hne & _ & Hs & He).
  assert (trimEnd c <> "") as Hne' by now rewrite He.
  unfold parseHeaderLine.
  assert (trim (String.append "Cookie: " c) = String.append "Cookie: " c) as ->.
  { unfold trim.
    change (trimEnd (String.append "Cookie: " c) = String.append "Cookie: " c).
    now rewrite trimEnd_app, He. }
  cbv zeta. rewrite toLowerCase_app.
  assert (startsWith "authorization:"
            (String.append (toLowerCase "Cookie: ") (toLowerCase c)) = false)
    as -> by reflexivity.
  assert (startsWith "cookie:"
            (String.append (toLowerCase "Cookie: ") (toLowerCase c)) = true)
    as -> by reflexivity.
  assert (substringFrom 7 (String.append "Cookie: " c) = String.append " " c)
    as -> by reflexivity.
  assert (trim (String.append " " c) = c) as ->; [|reflexivity].
  unfold trim. change (trimEnd (trimStart c) = c). now rewrite Hs, He.
Qed.

Lemma parseHeaderLine_other (result : ParsedHeaders) (line : string) :
  isOtherHeader line = true -> parseHeaderLine result line = result.
Proof.
  unfold isOtherHeader. rewrite !andb_true_iff, !negb_true_iff.
  intros [[_ Ha] Hc]. unfold parseHeaderLine. now rewrite Ha, Hc.
Qed.

Lemma parseHeaderLine_cr (result : ParsedHeaders) (line : string) :
  parseHeaderLine result (String.append line (String CR ""))
    = parseHeaderLine result line.
Proof. unfold parseHeaderLine. now rewrite trim_space. Qed.

(** Splitting a text at its line breaks. *)
Lemma splitLines_line (line : string) :
  noLineBreak line = true -> splitLines line = [line].
Proof.
  induction line as [|c r IH]; cbn [splitLines noLineBreak]; [reflexivity|].
  destruct (Ascii.eqb c LF); [discriminate|]. cbn [negb andb]. intros H.
  now rewrite (IH H).
Qed.

Lemma splitLines_app (line rest : string) :
  noLineBreak line = true ->
  splitLines (String.append line (String LF rest)) = line :: splitLines rest.
Proof.
  induction line as [|c r IH]; cbn [String.append splitLines noLineBreak].
  - now rewrite Ascii.eqb_refl.
  - destruct (Ascii.eqb c LF); [discriminate|]. cbn [negb andb]. intros H.
    now rewrite (IH H).
Qed.

Lemma noLineBreak_app (a b : string) :
  noLineBreak (String.append a b) = noLineBreak a && noLineBreak b.
Proof.
  induction a as [|c a IH]; cbn; [reflexivity|].
  now rewrite IH, andb_assoc.
Qed.

Lemma append_snoc (a : string) (c : ascii) (b : string) :
  String.append a (String c b) = String.append (String.append a (String c "")) b.
Proof. induction a as [|x a IH]; cbn; [reflexivity|now rewrite IH]. Qed.

Lemma joinLines_cons (eol line line2 : string) (rest : list string) :
  joinLines eol (line :: line2 :: rest)
    = String.append line (String.append eol (joinLines eol (line2 :: rest))).
Proof. reflexivity. Qed.

Lemma fold_joined_lines (eol : string) (lines : list string)
    (result : ParsedHeaders) :
  eol = String LF "" \/ eol = String CR (String LF "") ->
  Forall (fun line => noLineBreak line = true) lines ->
  lines <> [] ->
  fold_left parseHeaderLine (splitLines (joinLines eol lines)) result
    = fold_left parseHeaderLine lines result.
Proof.
  intros Heol Hall. revert result.
  induction Hall as [|line rest Hline Hrest IH]; intros result Hne;
    [congruence|].
  destruct rest as [|line2 rest].
  - cbn [joinLines]. now rewrite splitLines_line.
  - rewrite joinLines_cons. destruct Heol as [-> | ->].
    + cbn [String.append]. rewrite splitLines_app by exact Hline.
      cbn [fold_left]. apply IH. discriminate.
    + cbn [String.append]. rewrite append_snoc.
      rewrite splitLines_app
        by (rewrite noLineBreak_app, Hline; reflexivity).
      cbn [fold_left]. rewrite parseHeaderLine_cr. apply IH. discriminate.
Qed.

Lemma fold_other_lines (lines : list string) (result : ParsedHeaders) :
  Forall (fun line => isOtherHeader line = true) lines ->
  fold_left parseHeaderLine lines result = result.
Proof.
  intros Hall. revert result.
  induction Hall as [|line rest Hline Hrest IH]; intros result; cbn;
    [reflexivity|].
  now rewrite parseHeaderLine_other.
Qed.

Lemma joinLines_truthy (eol : string) (pre rest : list string) (line : string) :
  line <> "" -> truthy (joinLines eol (pre ++ line :: rest)) = true.
Proof.
  intros Hne.
  assert (forall tail, truthy (joinLines eol (line :: tail)) = true) as Hhead.
  { intros tail. cbn [joinLines].
    destruct line as [|c l]; [contradiction|]. now destruct tail. }
  induction pre as [|p pre IH]; [apply Hhead|].
  cbn [app joinLines].
  destruct (pre ++ line :: rest) as [|x xs] eqn:E;
    [destruct pre; discriminate|].
  destruct p as [|c p]; [|reflexivity].
  cbn [String.append].
  destruct eol as [|c eol]; [|reflexivity]. exact IH.
Qed.

(** X19.  Headers pasted as a text give back the credentials they carry:
    when the text has a line [Authorization: Basic b] and, after it, a line
    [Cookie: c], among any other header lines before, between and after
    them, with lines separated by LF or by CR LF, [parseHeadersFromEnv]
    returns [b] and [c]; and [POST /api/config/auth] with such a text as
    [headers] and no direct field stores them and clears the
    alert flag. *)
Theorem pasted_headers_yield_the_credentials
    (eol : string) (pre mid post : list string) (b c : string) (s : Sys) :
  eol = String LF "" \/ eol = String CR (String LF "") ->
  Forall (fun line => isOtherHeader line = true) (pre ++ mid ++ post) ->
  isHeaderValue b = true ->
  isHeaderValue c = true ->
  let text :=
    joinLines eol
      (pre ++ String.append "Authorization: Basic " b
           :: mid ++ String.append "Cookie: " c :: post) in
  let r := apiConfigAuthRequest s
             {| req_headers := Some text; req_basicAuth := None;
                req_cookies := None |} in
  parseHeadersFromEnv (Some text)
    = {| parsed_basicAuth := b; parsed_cookies := c |} /\
  basicAuth (CONFIG (state r)) = b /\
  cookies (CONFIG (state r)) = c /\
  tokenExpiredNotified (state r) = false /\
  discordWebhook (CONFIG (state r)) = discordWebhook (CONFIG s) /\
  monitoredProducts (state r) = monitoredProducts s.
Proof.
  intros Heol Hother Hb Hc. cbv zeta.
  destruct (isHeaderValue_facts b Hb) as (Hbne & Hbn & _ & _).
  destruct (isHeaderValue_facts c Hc) as (Hcne & Hcn & _ & _).
  apply Forall_app in Hother as [Hpre Hother].
  apply Forall_app in Hother as [Hmid Hpost].
  assert (Forall (fun line => noLineBreak line = true)
            (pre ++ String.append "Authorization: Basic " b
                 :: mid ++ String.append "Cookie: " c :: post)) as Hlines.
  { assert (forall l, Forall (fun line => isOtherHeader line = true) l ->
                      Forall (fun line => noLineBreak line = true) l) as Ho.
    { intros l H. eapply Forall_impl; [|exact H]. cbn. intros line.
      unfold isOtherHeader. rewrite !andb_true_iff. tauto. }
    apply Forall_app. split; [now apply Ho|].
    constructor; [rewrite noLineBreak_app, Hbn; reflexivity|].
    apply Forall_app. split; [now apply Ho|].
    constructor; [rewrite noLineBreak_app, Hcn; reflexivity|now apply Ho]. }
  assert (parseHeadersFromEnv
            (Some (joinLines eol
                     (pre ++ String.append "Authorization: Basic " b
                          :: mid ++ String.append "Cookie: " c :: post)))
          = {| parsed_basicAuth := b; parsed_cookies := c |}) as Hparse.
  { unfold parseHeadersFromEnv.
    rewrite joinLines_truthy by (cbn; discriminate). cbn [negb].
    rewrite fold_joined_lines; [|exact Heol|exact Hlines|now destruct pre].
    rewrite fold_left_app. cbn [fold_left].
    rewrite (fold_other_lines _ Hpre), parseHeaderLine_authorization by exact Hb.
    rewrite fold_left_app. cbn [fold_left].
    rewrite (fold_other_lines _ Hmid), parseHeaderLine_cookie by exact Hc.
    now rewrite (fold_other_lines _ Hpost). }
  split; [exact Hparse|].
  unfold apiConfigAuthRequest, authBodyOf.
  cbn [req_headers req_basicAuth req_cookies].
  rewrite joinLines_truthy by (cbn; discriminate). rewrite Hparse.
  cbn. unfold pick. cbn.
  assert (truthy b = true) as -> by (destruct b; [contradiction|reflexivity]).
  assert (truthy c = true) as -> by (destruct c; [contradiction|reflexivity]).
  auto.
Qed.

Lemma pasted_headers_yield_the_credentials_witness :
  let text :=
    joinLines (String CR (String LF ""))
      ["Host: raven.privatesportshop.fr";
       "Authorization: Basic dXNlcjp0b2tlbg==";
       "Accept: application/json";
       "Cookie: access_token=abc; store=20";
       "Connection: keep-alive"] in
  let s := initial (Sample.config Sample.hook) in
  let r := apiConfigAuthRequest s
             {| req_headers := Some text; req_basicAuth := None;
                req_cookies := None |} in
  parseHeadersFromEnv (Some text)
    = {| parsed_basicAuth := "dXNlcjp0b2tlbg==";
         parsed_cookies := "access_token=abc; store=20" |} /\
  basicAuth (CONFIG (state r)) = "dXNlcjp0b2tlbg==" /\
  cookies (CONFIG (state r)) = "access_token=abc; store=20" /\
  tokenExpiredNotified (state r) = false /\
  discordWebhook (CONFIG (state r)) = discordWebhook (CONFIG s) /\
  monitoredProducts (state r) = monitoredProducts s.
Proof.
  apply (@pasted_headers_yield_the_credentials
           (String CR (String LF "")) ["Host: raven.privatesportshop.fr"]
           ["Accept: application/json"] ["Connection: keep-alive"]
           "dXNlcjp0b2tlbg==" "access_token=abc; store=20"
           (initial (Sample.config Sample.hook)));
    try reflexivity.
  - now right.
  - repeat constructor.
Defined.

(** ** Refused credentials *)

Lemma authSignal_refused (code text : string) :
  code = "401" \/ code = "403" ->
  authSignalSweep (httpErrorMessage code text) = true /\
  authSignalEndpoint (httpErrorMessage code text) = true.
Proof.
  unfold authSignalSweep, authSignalEndpoint, httpErrorMessage. cbv zeta.
  intros [-> | ->]; rewrite !toLowerCase_app.
  - assert (includes "401"
              (String.append (toLowerCase "HTTP ")
                 (String.append (toLowerCase "401")
                    (String.append (toLowerCase ": ") (toLowerCase text))))
            = true) as -> by reflexivity.
    rewrite !orb_true_r. auto.
  - assert (includes "403"
              (String.append (toLowerCase "HTTP ")
                 (String.append (toLowerCase "403")
                    (String.append (toLowerCase ": ") (toLowerCase text))))
            = true) as -> by reflexivity.
    rewrite !orb_true_r. auto.
Qed.

(** X20.  When the product endpoint answers 401 or 403 for a monitored
    product, whatever the text of the answer, a sweep that starts with the
    alert flag clear and a webhook that is set and usable sends exactly one
    credentials alert, however many products are refused, and sets the
    flag; and a message that raises the alert in the add and preview
    handlers raises it in the sweep as well. *)
Theorem refused_credentials_raise_one_alert
    (webhook_error : string -> option string) (s : Sys)
    (fetch : ProductId -> FetchResult) (cart : CartOracle)
    (key : string) (p : Product) (code text : string) :
  code = "401" \/ code = "403" ->
  truthy (discordWebhook (CONFIG s)) = true ->
  webhook_error (discordWebhook (CONFIG s)) = None ->
  tokenExpiredNotified s = false ->
  In (key, p) (monitoredProducts s) ->
  fetch (productId p) = Rejected (httpErrorMessage code text) ->
  let r := monitorAllProducts webhook_error s fetch cart in
  count is_token_alert (log r) = 1 /\
  tokenExpiredNotified (state r) = true /\
  (forall message,
     authSignalEndpoint message = true -> authSignalSweep message = true).
Proof.
  intros Hcode Hset Hurl Hflag Hin Hf. cbv zeta.
  assert (existsb (authFails fetch) (monitoredProducts s) = true) as Hfail.
  { apply existsb_exists. exists (key, p). split; [exact Hin|].
    unfold authFails. cbn [snd]. rewrite Hf.
    now apply authSignal_refused. }
  split; [|split].
  - unfold monitorAllProducts.
    destruct (monitoredProducts s) as [|kp rest] eqn:Hm; [destruct Hin|].
    cbn [JsMap.size length Nat.eqb].
    pose proof (@sweepEntries_alerts webhook_error (CONFIG s) fetch cart
                  (kp :: rest) Hset Hurl
                  {| local := tokenExpiredNotified s; events := [] |}) as H.
    cbv zeta in H.
    destruct (sweepEntries webhook_error (CONFIG s) fetch cart (kp :: rest)
                {| local := tokenExpiredNotified s; events := [] |})
      as [[o es] st'].
    cbn [snd local events log] in *. rewrite Hfail, Hflag in H.
    destruct H as [_ ->]. reflexivity.
  - unfold monitorAllProducts.
    destruct (monitoredProducts s) as [|kp rest] eqn:Hm; [destruct Hin|].
    cbn [JsMap.size length Nat.eqb].
    pose proof (@sweepEntries_alerts webhook_error (CONFIG s) fetch cart
                  (kp :: rest) Hset Hurl
                  {| local := tokenExpiredNotified s; events := [] |}) as H.
    cbv zeta in H.
    destruct (sweepEntries webhook_error (CONFIG s) fetch cart (kp :: rest)
                {| local := tokenExpiredNotified s; events := [] |})
      as [[o es] st'].
    cbn [snd local events state with_registry tokenExpiredNotified] in *.
    rewrite Hfail in H. destruct H as [-> _]. apply orb_true_r.
  - intros message. unfold authSignalEndpoint, authSignalSweep. cbv zeta.
    intros ->. reflexivity.
Qed.

Lemma refused_credentials_raise_one_alert_witness :
  let s := fst (run Sample.url (initial (Sample.config Sample.hook))
                  [Add (Sample.watchSizes "1" ["38"]) (Sample.upstream [])
                     (Sample.basket true) "t0" "t0";
                   Add (Sample.watchSizes "2" ["40"]) (Sample.upstream [])
                     (Sample.basket true) "t1" "t1"]) in
  let refused := fun _ : ProductId =>
                   Rejected (httpErrorMessage "403" "Forbidden") in
  let r := monitorAllProducts Sample.url s refused (Sample.basket true) in
  count is_token_alert (log r) = 1 /\
  tokenExpiredNotified (state r) = true /\
  (forall message,
     authSignalEndpoint message = true -> authSignalSweep message = true).
Proof.
  cbv zeta.
  eapply (@refused_credentials_raise_one_alert Sample.url _ _
            (Sample.basket true) "1" _ "403" "Forbidden").
  - now right.
  - reflexivity.
  - reflexivity.
  - reflexivity.
  - left. reflexivity.
  - reflexivity.
Defined.

(** ** The configuration the process starts with *)

(** X21.  From the configuration read at startup, in every run: the period
    of the timer is 60 seconds, also that of the timer that is set; a
    webhook given by [DISCORD_WEBHOOK] stays set; and when [PSS_HEADERS] is
    not given, the credentials are those of [PSS_BASIC_AUTH] and
    [PSS_COOKIES] for as long as [POST /api/config/auth] is not called. *)
Theorem startup_configuration_persists
    (webhook_error : string -> option string) (env : Env)
    (inputs : list Input) :
  let s := fst (run webhook_error (initial (startupConfig env)) inputs) in
  checkIntervalMs (CONFIG s) = 60000%Z /\
  (forall i, monitoringInterval s = Some i -> everyMs i = 60000%Z) /\
  (optTruthy (DISCORD_WEBHOOK env) = true ->
   truthy (discordWebhook (CONFIG s)) = true) /\
  (optTruthy (PSS_HEADERS env) = false ->
   Forall (fun i => forall req, i <> ConfigAuth req) inputs ->
   basicAuth (CONFIG s) = js_or_default (PSS_BASIC_AUTH env) "" /\
   cookies (CONFIG s) = js_or_default (PSS_COOKIES env) "").
Proof.
  cbv zeta.
  destruct (run_config webhook_error (initial (startupConfig env)) inputs)
    as (Hp & _ & Hc & Hw & _).
  assert (storeOk (initial (startupConfig env))) as Hok
    by (repeat split; cbn; try constructor; discriminate).
  apply (run_storeOk webhook_error inputs) in Hok as (_ & _ & Ht).
  cbn [CONFIG initial] in Hp, Hc, Hw.
  split; [rewrite Hp; reflexivity|]. split.
  { intros i Hi. rewrite (Ht i Hi), Hp. reflexivity. }
  split.
  { intros Hset. apply Hw. unfold startupConfig. cbn [discordWebhook].
    destruct (DISCORD_WEBHOOK env) as [w|]; [|discriminate].
    cbn in *. now rewrite Hset. }
  intros Hnone Hall. destruct (Hc Hall) as [-> ->].
  assert (parseHeadersFromEnv (PSS_HEADERS env) = noHeaders) as Hparse.
  { unfold parseHeadersFromEnv.
    destruct (PSS_HEADERS env) as [h|]; [|reflexivity].
    cbn in Hnone. now rewrite Hnone. }
  unfold startupConfig. rewrite Hparse. split; reflexivity.
Qed.

(** ** A sweep goes through every entry *)

(** X22.  A sweep without sink failure returns normally and reaches every
    entry, also after entries whose fetch was rejected: afterwards each
    entry for which the product endpoint answered stores the product
    information, the size mapping and the stock of that answer, and in
    [watchAll] mode its [hadSizes] tells whether the answer has sizes. *)
Theorem sweep_updates_every_answered_entry
    (webhook_error : string -> option string) (s : Sys)
    (fetch : ProductId -> FetchResult) (cart : CartOracle) :
  sinkOk webhook_error (CONFIG s) = true ->
  let r := monitorAllProducts webhook_error s fetch cart in
  result r = Returned tt /\
  Forall
    (fun kp =>
       forall data,
         fetch (productId (snd kp)) = Resolved data ->
         (productInfo (snd kp), sizeMapping (snd kp), previousStock (snd kp))
           = parseProduct (productId (snd kp)) data /\
         (watchAll (snd kp) = true ->
          hadSizes (snd kp) = hasSizesOf (sizeMapping (snd kp))))
    (monitoredProducts (state r)).
Proof.
  intros Hsink. cbv zeta. unfold monitorAllProducts.
  destruct (JsMap.size (monitoredProducts s) =? 0)%nat eqn:E.
  - cbn. split; [reflexivity|].
    destruct (monitoredProducts s); [constructor|discriminate].
  - destruct (@sweepEntries_all webhook_error (CONFIG s) fetch Hsink
                (fun p =>
                   forall data,
                     fetch (productId p) = Resolved data ->
                     (productInfo p, sizeMapping p, previousStock p)
                       = parseProduct (productId p) data /\
                     (watchAll p = true ->
                      hadSizes p = hasSizesOf (sizeMapping p)))
                cart (monitoredProducts s))
      with (st := {| local := tokenExpiredNotified s; events := [] |})
      as (entries' & st' & -> & Hall).
    + intros st.
      destruct (fetch (productId (local st))) as [data|message] eqn:Ef.
      * pose proof (@monitorProduct_returns webhook_error (CONFIG s) fetch cart
                      Hsink st data Ef) as Hr.
        destruct (parseProduct (productId (local st)) data)
          as [[info sm] stockInfo] eqn:Ep.
        destruct Hr as (st1 & -> & Hpid & _ & Hmode & Hprev & Hinfo & Hsm & Hhad & _).
        cbn [snd]. intros data' Ef'. rewrite Hpid in Ef'.
        rewrite Ef in Ef'. injection Ef' as <-.
        rewrite Hpid, Ep, Hinfo, Hsm, Hprev. split; [reflexivity|].
        intros Hall. rewrite Hmode in Hall. now rewrite Hhad, Hall.
      * rewrite (@monitorProduct_rejected webhook_error (CONFIG s) fetch cart
                   st message Ef).
        cbn [snd]. intros data Ef'. congruence.
    + cbn. split; [reflexivity|exact Hall].
Qed.

Lemma sweep_updates_every_answered_entry_witness :
  let s := fst (run Sample.url (initial (Sample.config Sample.hook))
                  [Add (Sample.watchSizes "1" ["38"]) (Sample.upstream [])
                     (Sample.basket true) "t0" "t0";
                   Add (Sample.watchSizes "2" ["40"]) (Sample.upstream [])
                     (Sample.basket true) "t1" "t1"]) in
  let fetch := fun pid : ProductId =>
                 if pid =? "1" then Rejected "Request timeout"
                 else Resolved (Sample.payload ["40"]) in
  let r := monitorAllProducts Sample.url s fetch (Sample.basket true) in
  log r = [Reserve "2" "40" true;
           Notify (parseProductInfo "2" (Sample.payload ["40"])) "40" "EU 40" 1
             (productUrlOf "2")] /\
  result r = Returned tt /\
  Forall
    (fun kp =>
       forall data,
         fetch (productId (snd kp)) = Resolved data ->
         (productInfo (snd kp), sizeMapping (snd kp), previousStock (snd kp))
           = parseProduct (productId (snd kp)) data /\
         (watchAll (snd kp) = true ->
          hadSizes (snd kp) = hasSizesOf (sizeMapping (snd kp))))
    (monitoredProducts (state r)).
Proof.
  split; [reflexivity|].
  apply (@sweep_updates_every_answered_entry Sample.url
           (fst (run Sample.url (initial (Sample.config Sample.hook))
                   [Add (Sample.watchSizes "1" ["38"]) (Sample.upstream [])
                      (Sample.basket true) "t0" "t0";
                    Add (Sample.watchSizes "2" ["40"]) (Sample.upstream [])
                      (Sample.basket true) "t1" "t1"]))
           (fun pid : ProductId =>
              if pid =? "1" then Rejected "Request timeout"
              else Resolved (Sample.payload ["40"]))
           (Sample.basket true)).
  reflexivity.
Defined.

(** ** The history entry of an add *)

Lemma js_or_default_truthy (a : option string) (d : string) :
  truthy d = true -> truthy (js_or_default a d) = true.
Proof.
  intros Hd. unfold js_or_default. destruct a as [x|]; [|exact Hd].
  now destruct (truthy x) eqn:E.
Qed.

(** X23.  The history entry that an add answered 200 writes carries what
    the product endpoint answered: the title and the brand are those of the
    parsed product information, which are never empty, so that the
    fallback title [Produit id] of [addToHistory] is never stored; the
    entry has the size mapping of the answer and the two readings of the
    clock. *)
Theorem history_entry_carries_the_parsed_product
    (webhook_error : string -> option string) (s : Sys) (req : AddBody)
    (fetch : ProductId -> FetchResult) (cart : CartOracle)
    (now1 now2 : Timestamp) :
  let r := apiProductsAdd webhook_error s req fetch cart now1 now2 in
  status (result r) = 200 ->
  exists pid data e,
    add_productId req = Some pid /\
    fetch pid = Resolved data /\
    JsMap.get (productHistory (state r)) pid = Some e /\
    hist_productId e = pid /\
    hist_title e = js_or_default (data_name data) "Unknown" /\
    hist_brand e = js_or_default (data_brand_name data) "Unknown" /\
    truthy (hist_title e) = true /\
    truthy (hist_brand e) = true /\
    hist_sizeMapping e = snd (fst (parseProduct pid data)) /\
    addedAt e = now1 /\ lastMonitored e = now2.
Proof.
  cbv zeta. unfold apiProductsAdd.
  destruct (add_productId req) as [pid|]; [|cbn; discriminate].
  destruct (negb (truthy pid)); [cbn; discriminate|].
  match goal with |- context [if ?c then _ else _] => destruct c end;
    [cbn; discriminate|].
  pose proof (@addPrepare_returned webhook_error (CONFIG s) cart pid
                (add_watchedSizes req) (add_watchAll req) fetch
                {| local := JsSet.empty; events := [] |}) as Hr.
  destruct (addPrepare webhook_error (CONFIG s) pid (add_watchedSizes req)
              (add_watchAll req) fetch cart
              {| local := JsSet.empty; events := [] |})
    as [[[[[info sm] stockInfo] watched]|message] st];
    [|cbn; discriminate].
  destruct (Hr st (info, sm, stockInfo) watched eq_refl)
    as (data & Hf & Hsnap & _).
  match goal with |- context [startMonitoring ?x] =>
    destruct (startMonitoring_running x) as (_ & _ & Hh & _);
    set (s3 := startMonitoring x) in * end.
  destruct (addAnswer (add_watchedSizes req) (add_watchAll req) sm (local st))
    as [answer|message]; [|cbn; discriminate].
  cbn [result state log]. intros _.
  unfold parseProduct in Hsnap. injection Hsnap as Hinfo Hsm _.
  exists pid, data. eexists. split; [reflexivity|]. split; [exact Hf|].
  split; [rewrite Hh; cbn; unfold addToHistory; apply map_get_set_same|].
  cbn [hist_productId hist_title hist_brand hist_sizeMapping addedAt
         lastMonitored].
  assert (truthy (title info) = true) as Ht
    by (rewrite Hinfo; cbn; now apply js_or_default_truthy).
  assert (truthy (brand info) = true) as Hb
    by (rewrite Hinfo; cbn; now apply js_or_default_truthy).
  rewrite Ht. rewrite Hinfo at 1 2. cbn [title brand parseProductInfo].
  unfold parseProduct. cbn [fst snd]. rewrite <- Hsm.
  repeat split; auto.
Qed.

Lemma history_entry_carries_the_parsed_product_witness :
  let r := apiProductsAdd Sample.url (initial (Sample.config Sample.hook))
             (Sample.watchSizes "1" ["38"]) (Sample.upstream ["38"])
             (Sample.basket true) "t0" "t1" in
  status (result r) = 200 /\
  exists pid data e,
    add_productId (Sample.watchSizes "1" ["38"]) = Some pid /\
    Sample.upstream ["38"] pid = Resolved data /\
    JsMap.get (productHistory (state r)) pid = Some e /\
    hist_productId e = pid /\
    hist_title e = js_or_default (data_name data) "Unknown" /\
    hist_brand e = js_or_default (data_brand_name data) "Unknown" /\
    truthy (hist_title e) = true /\
    truthy (hist_brand e) = true /\
    hist_sizeMapping e = snd (fst (parseProduct pid data)) /\
    addedAt e = "t0" /\ lastMonitored e = "t1".
Proof.
  split; [reflexivity|].
  apply (@history_entry_carries_the_parsed_product Sample.url
           (initial (Sample.config Sample.hook))
           (Sample.watchSizes "1" ["38"]) (Sample.upstream ["38"])
           (Sample.basket true) "t0" "t1").
  reflexivity.
Defined.

(** ** The history and the monitor *)

(** X24.  The monitor never reads the history: from two states that differ
    in the history only, every step (a request or a tick of the timer)
    produces the same events and leaves the same configuration, registry,
    timer and alert flag.  So clearing the history, or deleting from it,
    cannot change what is monitored, reserved or alerted. *)
Theorem history_does_not_influence_the_monitor
    (webhook_error : string -> option string) (s : Sys)
    (h : JsMap.t HistoryEntry) (i : Input) :
  let r1 := step webhook_error s i in
  let r2 := step webhook_error (with_history h s) i in
  snd r2 = snd r1 /\
  CONFIG (fst r2) = CONFIG (fst r1) /\
  monitoredProducts (fst r2) = monitoredProducts (fst r1) /\
  monitoringInterval (fst r2) = monitoringInterval (fst r1) /\
  tokenExpiredNotified (fst r2) = tokenExpiredNotified (fst r1).
Proof.
  cbv zeta. destruct i; cbn [step forget fst snd].
  - unfold apiProductsAdd. cbn [CONFIG with_history].
    destruct (add_productId req) as [pid|]; [|cbn; repeat split].
    destruct (negb (truthy pid)); [cbn; repeat split|].
    match goal with |- context [if ?c then _ else _] => destruct c end;
      [cbn; repeat split|].
    destruct (addPrepare webhook_error (CONFIG s) pid (add_watchedSizes req)
                (add_watchAll req) fetch cart
                {| local := JsSet.empty; events := [] |})
      as [[[[[info sm] stockInfo] watched]|message] st].
    + destruct (addAnswer (add_watchedSizes req) (add_watchAll req) sm
                  (local st)) as [answer|message].
      * unfold startMonitoring. cbn.
        destruct (monitoringInterval s); cbn; repeat split.
      * unfold endpointCatch, startMonitoring. cbn.
        destruct (monitoringInterval s); cbn; repeat split.
    + unfold endpointCatch. cbn. repeat split.
  - unfold apiProductsDelete. cbn [monitoredProducts with_history].
    destruct (JsMap.has (monitoredProducts s) key); [|cbn; repeat split].
    cbn. destruct (length (JsMap.delete (monitoredProducts s) key) =? 0)%nat;
      [|cbn; repeat split].
    unfold stopMonitoring. cbn. destruct (monitoringInterval s); cbn;
      repeat split.
  - unfold apiProductsSizes. cbn [monitoredProducts with_history].
    destruct (JsMap.get (monitoredProducts s) key); [|cbn; repeat split].
    destruct (newSet watchedSizes0); cbn; repeat split.
  - unfold apiProductsReset. cbn [monitoredProducts with_history].
    destruct (JsMap.get (monitoredProducts s) key); cbn; repeat split.
  - cbn. repeat split.
  - unfold apiHistoryDelete. cbn [productHistory with_history].
    destruct (JsMap.has (productHistory s) key), (JsMap.has h key);
      cbn; repeat split.
  - cbn. repeat split.
  - unfold apiConfigDiscord. destruct (negb (truthy webhook)); cbn;
      repeat split.
  - unfold apiProductsFetch.
    destruct resolved as [[pid|]|message];
      [|cbn; repeat split|unfold endpointCatch; cbn; repeat split].
    destruct (negb (truthy pid)); [cbn; repeat split|].
    destruct (fetch pid); [cbn; repeat split|].
    unfold endpointCatch. cbn. repeat split.
  - cbn [monitoringInterval with_history].
    destruct (monitoringInterval s); [|cbn; repeat split].
    unfold monitorAllProducts. cbn [monitoredProducts with_history CONFIG
                                     tokenExpiredNotified].
    destruct (JsMap.size (monitoredProducts s) =? 0)%nat; [cbn; repeat split|].
    destruct (sweepEntries webhook_error (CONFIG s) fetch cart
                (monitoredProducts s)
                {| local := tokenExpiredNotified s; events := [] |})
      as [[o entries] st].
    cbn. repeat split.
Qed.

(** ** An add that fails after it has written the registry *)

(** X25.  The add handler is not atomic.  With [watchAll] set and a
    non-empty string as [watchedSizes] (fetch succeeded, no sink failure),
    the request passes the validation, the product is written to the
    registry with the characters of the string as watched sizes, the
    history entry is written and the timer is set; building the answer then
    fails, and the request is answered 500 although the product is
    monitored from then on. *)
Theorem add_answers_500_after_registering
    (webhook_error : string -> option string) (s : Sys)
    (pid : ProductId) (chars : list SizeId)
    (fetch : ProductId -> FetchResult) (cart : CartOracle)
    (now1 now2 : Timestamp) (data : Payload) :
  sinkOk webhook_error (CONFIG s) = true ->
  truthy pid = true ->
  chars <> [] ->
  fetch pid = Resolved data ->
  let req := {| add_productId := Some pid; add_watchedSizes := WsString chars;
                add_watchAll := true |} in
  let r := apiProductsAdd webhook_error s req fetch cart now1 now2 in
  result r = respond 500 (ErrorBody "watchedSizes.map is not a function") /\
  (exists p,
     JsMap.get (monitoredProducts (state r)) pid = Some p /\
     productId p = pid /\ watchAll p = true /\
     watchedSizes p = JsSet.of_list chars /\
     previousStock p = snd (parseProduct pid data)) /\
  JsMap.has (productHistory (state r)) pid = true /\
  monitoringInterval (state r) <> None.
Proof.
  intros Hsink Hpid Hchars Hf. cbv zeta.
  assert (lengthPositive (WsString chars) = true) as Hlen
    by (destruct chars; [congruence|reflexivity]).
  assert (wsTruthy (WsString chars) = true) as Htruthy
    by (destruct chars; [congruence|reflexivity]).
  destruct (parseProduct pid data) as [[info sm] stockInfo] eqn:Ep.
  assert (exists st,
            addPrepare webhook_error (CONFIG s) pid (WsString chars) true
              fetch cart {| local := JsSet.empty; events := [] |}
            = (Returned (info, sm, stockInfo, JsSet.of_list chars), st))
    as [st Hp].
  { unfold addPrepare, fetchProductDetails. rewrite Hf, Ep, Htruthy, Hlen.
    cbn [andb wsIterate newSet].
    assert (exists st1,
              (if hasSizesOf sm
               then addRestockLoop webhook_error (CONFIG s) cart pid info
                      (productUrlOf pid) (JsObj.entries sm)
               else ret tt) {| local := JsSet.empty; events := [] |}
              = (Returned tt, st1)) as [st1 E1].
    { destruct (hasSizesOf sm); [|eexists; reflexivity].
      now apply addRestockLoop_returns. }
    destruct (@addWatchedLoop_calls webhook_error (CONFIG s) cart pid info sm
                stockInfo (productUrlOf pid) Hsink chars st1)
      as (st2 & E2 & _).
    exists st2. unfold bind. unfold ret at 1. cbv beta iota.
    rewrite E1. cbv beta iota. rewrite E2. reflexivity. }
  unfold apiProductsAdd.
  cbn [add_productId add_watchedSizes add_watchAll].
  rewrite Hpid. cbn [negb andb orb]. rewrite Hp.
  unfold addAnswer. rewrite Htruthy. cbn [wsIsArray negb andb].
  match goal with |- context [endpointCatch _ ?x ?m ?t] =>
    destruct (endpointCatch_frame webhook_error x m t)
      as (F1 & F2 & F3 & F4 & F5);
    rewrite F1, F2, F3, F5 end.
  match goal with |- context [startMonitoring ?x] =>
    destruct (startMonitoring_running x) as (Hrun & Hreg & Hh & _);
    rewrite Hreg, Hh end.
  split; [reflexivity|]. split; [|split; [|exact Hrun]].
  - eexists. split; [cbn; apply map_get_set_same|]. cbn. auto.
  - cbn. unfold addToHistory, JsMap.has. now rewrite map_get_set_same.
Qed.

Lemma add_answers_500_after_registering_witness :
  let req := {| add_productId := Some "1"; add_watchedSizes := WsString ["3"; "8"];
                add_watchAll := true |} in
  let r := apiProductsAdd Sample.url (initial (Sample.config Sample.hook)) req
             (Sample.upstream []) (Sample.basket true) "t0" "t0" in
  result r = respond 500 (ErrorBody "watchedSizes.map is not a function") /\
  (exists p,
     JsMap.get (monitoredProducts (state r)) "1" = Some p /\
     productId p = "1" /\ watchAll p = true /\
     watchedSizes p = JsSet.of_list ["3"; "8"] /\
     previousStock p = snd (parseProduct "1" (Sample.payload []))) /\
  JsMap.has (productHistory (state r)) "1" = true /\
  monitoringInterval (state r) <> None.
Proof.
  apply (@add_answers_500_after_registering Sample.url
           (initial (Sample.config Sample.hook)) "1" ["3"; "8"]
           (Sample.upstream []) (Sample.basket true) "t0" "t0"
           (Sample.payload []));
    try reflexivity.
  discriminate.
Defined.
